(** * Presentation state of the room view (quickstart/src/joinroom.js)

    A shallow embedding of the event handlers of [joinroom.js]: the two
    module-level variables ([activeParticipant], [isActiveParticipantPinned]),
    the part of the page the handlers read and write, the SDK objects they
    consult (room, participants, publications), and the listeners they
    register.  Handlers are state transformers that may throw; a thrown
    error keeps the writes made before it, as in JavaScript. *)

From Stdlib Require Import Ascii String List Bool Arith Lia DecimalString.
Import ListNotations.
Open Scope string_scope.
Open Scope list_scope.

Set Implicit Arguments.

(* ------------------------------------------------------------------ *)
(** ** SDK objects as the handlers see them *)

(** [track.kind] of a media track.  Only audio and video tracks have
    [attach]/[detach]; the model covers those. *)
Inductive Kind := audio | video.

Definition kind_eqb (a b : Kind) : bool :=
  match a, b with
  | audio, audio | video, video => true
  | _, _ => false
  end.

(** A track object.  [track_id] stands for the object's identity,
    [has_setPriority] for the test [track.setPriority] of
    [setVideoPriority] (remote video tracks have the method, local ones
    do not). *)
Record Track := {
  track_id : nat;
  kind : Kind;
  has_setPriority : bool
}.

Definition track_eqb (a b : Track) : bool :=
  Nat.eqb (track_id a) (track_id b) && kind_eqb (kind a) (kind b)
  && Bool.eqb (has_setPriority a) (has_setPriority b).

(** A track publication: [publication.track] is null until subscribed. *)
Record Publication := {
  trackSid : string;
  pub_kind : Kind;
  track : option Track
}.

(** A participant object.  [tracks] and [videoTracks] are the values of
    the SDK's maps in insertion order. *)
Record Participant := {
  sid : string;
  identity : string;
  tracks : list Publication;
  videoTracks : list Publication;
  networkQualityLevel : option nat
}.

(** Participants are compared with [===]: a reference stands for the
    object, the heap gives its current fields. *)
Definition PRef := nat.

Record Room := {
  localParticipant : PRef;
  participants : list PRef;
  dominantSpeaker : option PRef;
  connected : bool
}.

Inductive JsError :=
| TypeError (msg : string)
| TwilioError (code : nat) (msg : string).

(** Calls into the SDK that leave no trace in the page. *)
Inductive SdkCall :=
| CLoggerSetLevel (level : string)
| CConnect (token : string) (nq_local nq_remote : nat)
| CSetPriority (t : Track) (priority : option string)
| CStop (t : Track)
| CPublishTrack (t : Track)
| CUnpublishTrack (t : Track)
| CCreateLocalVideoTrack
| CDisconnect.

(* ------------------------------------------------------------------ *)
(** ** The page *)

(** An <audio> or <video> element: inline [opacity] ([None] when the
    style is not set), [srcObject] ([None] for null, otherwise the tracks
    of the MediaStream) and the [muted] attribute. *)
Record MediaEl := {
  opacity : option string;
  srcObject : option (list Track);
  muted : bool
}.

(** A <div> under [$participants] with its <audio> and <video> child,
    as [setupParticipantContainer] adds them; [click_participant] is the
    participant captured by its click listener. *)
Record Container := {
  el_id : string;
  data_identity : string;
  classes : list string;
  audio_el : MediaEl;
  video_el : MediaEl;
  click_participant : PRef
}.

Inductive Hook := HDisconnect | HVisibilityChange.

Record Page := {
  participantsDiv : list Container;     (* children of $participants *)
  activeVideo : MediaEl;                (* $activeVideo.get(0) *)
  activeIdentity : option string;       (* data-identity of $activeParticipant *)
  leaveClick : bool;                    (* onLeave of the last join is bound *)
  startScreenClick : bool;              (* onStartScreen is bound *)
  onbeforeunload : option Hook;
  onpagehide : option Hook;
  onvisibilitychange : option Hook;
  window_room : bool;                   (* window.room is set *)
  leaveClickEarlier : nat;              (* onLeave of earlier joins still bound *)
  parseHTML : string -> list Container  (* what $(html) builds, see jq_html *)
}.

(** Listeners registered with [on]/[once], in registration order. *)
Inductive Listener :=
| OnTrackPublished (p : PRef)                     (* participantConnected *)
| OnSubscribed (pub : string) (p : PRef)          (* trackPublished *)
| OnUnsubscribed (pub : string) (p : PRef)        (* trackPublished *)
| OnParticipantConnected                          (* joinRoom *)
| OnParticipantDisconnected                       (* joinRoom *)
| OnDominantSpeakerChanged                        (* joinRoom *)
| OnParticipantConnectedNQ                        (* setupNetworkQualityUpdates *)
| OnNetworkQualityLevelChanged (p : PRef)         (* ...ForParticipant *)
| OnceDisconnected.                               (* joinRoom *)

Inductive PromiseState :=
| NotCalled
| Pending
| Resolved
| Rejected (e : JsError).

Record State := {
  activeParticipant : option PRef;
  isActiveParticipantPinned : bool;
  page : Page;
  heap : PRef -> Participant;
  room : Room;
  listeners : list Listener;
  calls : list SdkCall;
  localVideoTrack : option Track;       (* joinRoom's local variable *)
  pendingVideo : nat;                   (* createLocalVideoTrack awaited *)
  joinPromise : PromiseState            (* the promise joinRoom returned *)
}.

(* ------------------------------------------------------------------ *)
(** ** Field updates *)

Definition set_activeParticipant (v : option PRef) (st : State) : State :=
  {| activeParticipant := v;
     isActiveParticipantPinned := isActiveParticipantPinned st;
     page := page st; heap := heap st; room := room st;
     listeners := listeners st; calls := calls st;
     localVideoTrack := localVideoTrack st;
     pendingVideo := pendingVideo st; joinPromise := joinPromise st |}.

Definition set_isActiveParticipantPinned (v : bool) (st : State) : State :=
  {| activeParticipant := activeParticipant st;
     isActiveParticipantPinned := v;
     page := page st; heap := heap st; room := room st;
     listeners := listeners st; calls := calls st;
     localVideoTrack := localVideoTrack st;
     pendingVideo := pendingVideo st; joinPromise := joinPromise st |}.

Definition set_page (v : Page) (st : State) : State :=
  {| activeParticipant := activeParticipant st;
     isActiveParticipantPinned := isActiveParticipantPinned st;
     page := v; heap := heap st; room := room st;
     listeners := listeners st; calls := calls st;
     localVideoTrack := localVideoTrack st;
     pendingVideo := pendingVideo st; joinPromise := joinPromise st |}.

Definition set_heap (v : PRef -> Participant) (st : State) : State :=
  {| activeParticipant := activeParticipant st;
     isActiveParticipantPinned := isActiveParticipantPinned st;
     page := page st; heap := v; room := room st;
     listeners := listeners st; calls := calls st;
     localVideoTrack := localVideoTrack st;
     pendingVideo := pendingVideo st; joinPromise := joinPromise st |}.

Definition set_room (v : Room) (st : State) : State :=
  {| activeParticipant := activeParticipant st;
     isActiveParticipantPinned := isActiveParticipantPinned st;
     page := page st; heap := heap st; room := v;
     listeners := listeners st; calls := calls st;
     localVideoTrack := localVideoTrack st;
     pendingVideo := pendingVideo st; joinPromise := joinPromise st |}.

Definition set_listeners (v : list Listener) (st : State) : State :=
  {| activeParticipant := activeParticipant st;
     isActiveParticipantPinned := isActiveParticipantPinned st;
     page := page st; heap := heap st; room := room st;
     listeners := v; calls := calls st;
     localVideoTrack := localVideoTrack st;
     pendingVideo := pendingVideo st; joinPromise := joinPromise st |}.

Definition set_calls (v : list SdkCall) (st : State) : State :=
  {| activeParticipant := activeParticipant st;
     isActiveParticipantPinned := isActiveParticipantPinned st;
     page := page st; heap := heap st; room := room st;
     listeners := listeners st; calls := v;
     localVideoTrack := localVideoTrack st;
     pendingVideo := pendingVideo st; joinPromise := joinPromise st |}.

Definition set_localVideoTrack (v : option Track) (st : State) : State :=
  {| activeParticipant := activeParticipant st;
     isActiveParticipantPinned := isActiveParticipantPinned st;
     page := page st; heap := heap st; room := room st;
     listeners := listeners st; calls := calls st;
     localVideoTrack := v;
     pendingVideo := pendingVideo st; joinPromise := joinPromise st |}.

Definition set_pendingVideo (v : nat) (st : State) : State :=
  {| activeParticipant := activeParticipant st;
     isActiveParticipantPinned := isActiveParticipantPinned st;
     page := page st; heap := heap st; room := room st;
     listeners := listeners st; calls := calls st;
     localVideoTrack := localVideoTrack st;
     pendingVideo := v; joinPromise := joinPromise st |}.

Definition set_joinPromise (v : PromiseState) (st : State) : State :=
  {| activeParticipant := activeParticipant st;
     isActiveParticipantPinned := isActiveParticipantPinned st;
     page := page st; heap := heap st; room := room st;
     listeners := listeners st; calls := calls st;
     localVideoTrack := localVideoTrack st;
     pendingVideo := pendingVideo st; joinPromise := v |}.

Definition set_participantsDiv (v : list Container) (pg : Page) : Page :=
  {| participantsDiv := v; activeVideo := activeVideo pg;
     activeIdentity := activeIdentity pg; leaveClick := leaveClick pg;
     startScreenClick := startScreenClick pg;
     onbeforeunload := onbeforeunload pg; onpagehide := onpagehide pg;
     onvisibilitychange := onvisibilitychange pg;
     window_room := window_room pg;
     leaveClickEarlier := leaveClickEarlier pg; parseHTML := parseHTML pg |}.

Definition set_activeVideo (v : MediaEl) (pg : Page) : Page :=
  {| participantsDiv := participantsDiv pg; activeVideo := v;
     activeIdentity := activeIdentity pg; leaveClick := leaveClick pg;
     startScreenClick := startScreenClick pg;
     onbeforeunload := onbeforeunload pg; onpagehide := onpagehide pg;
     onvisibilitychange := onvisibilitychange pg;
     window_room := window_room pg;
     leaveClickEarlier := leaveClickEarlier pg; parseHTML := parseHTML pg |}.

Definition set_activeIdentity (v : option string) (pg : Page) : Page :=
  {| participantsDiv := participantsDiv pg; activeVideo := activeVideo pg;
     activeIdentity := v; leaveClick := leaveClick pg;
     startScreenClick := startScreenClick pg;
     onbeforeunload := onbeforeunload pg; onpagehide := onpagehide pg;
     onvisibilitychange := onvisibilitychange pg;
     window_room := window_room pg;
     leaveClickEarlier := leaveClickEarlier pg; parseHTML := parseHTML pg |}.

Definition set_leaveClick (v : bool) (pg : Page) : Page :=
  {| participantsDiv := participantsDiv pg; activeVideo := activeVideo pg;
     activeIdentity := activeIdentity pg; leaveClick := v;
     startScreenClick := startScreenClick pg;
     onbeforeunload := onbeforeunload pg; onpagehide := onpagehide pg;
     onvisibilitychange := onvisibilitychange pg;
     window_room := window_room pg;
     leaveClickEarlier := leaveClickEarlier pg; parseHTML := parseHTML pg |}.

Definition set_startScreenClick (v : bool) (pg : Page) : Page :=
  {| participantsDiv := participantsDiv pg; activeVideo := activeVideo pg;
     activeIdentity := activeIdentity pg; leaveClick := leaveClick pg;
     startScreenClick := v;
     onbeforeunload := onbeforeunload pg; onpagehide := onpagehide pg;
     onvisibilitychange := onvisibilitychange pg;
     window_room := window_room pg;
     leaveClickEarlier := leaveClickEarlier pg; parseHTML := parseHTML pg |}.

Definition set_onbeforeunload (v : option Hook) (pg : Page) : Page :=
  {| participantsDiv := participantsDiv pg; activeVideo := activeVideo pg;
     activeIdentity := activeIdentity pg; leaveClick := leaveClick pg;
     startScreenClick := startScreenClick pg;
     onbeforeunload := v; onpagehide := onpagehide pg;
     onvisibilitychange := onvisibilitychange pg;
     window_room := window_room pg;
     leaveClickEarlier := leaveClickEarlier pg; parseHTML := parseHTML pg |}.

Definition set_onpagehide (v : option Hook) (pg : Page) : Page :=
  {| participantsDiv := participantsDiv pg; activeVideo := activeVideo pg;
     activeIdentity := activeIdentity pg; leaveClick := leaveClick pg;
     startScreenClick := startScreenClick pg;
     onbeforeunload := onbeforeunload pg; onpagehide := v;
     onvisibilitychange := onvisibilitychange pg;
     window_room := window_room pg;
     leaveClickEarlier := leaveClickEarlier pg; parseHTML := parseHTML pg |}.

Definition set_onvisibilitychange (v : option Hook) (pg : Page) : Page :=
  {| participantsDiv := participantsDiv pg; activeVideo := activeVideo pg;
     activeIdentity := activeIdentity pg; leaveClick := leaveClick pg;
     startScreenClick := startScreenClick pg;
     onbeforeunload := onbeforeunload pg; onpagehide := onpagehide pg;
     onvisibilitychange := v;
     window_room := window_room pg;
     leaveClickEarlier := leaveClickEarlier pg; parseHTML := parseHTML pg |}.

Definition set_window_room (v : bool) (pg : Page) : Page :=
  {| participantsDiv := participantsDiv pg; activeVideo := activeVideo pg;
     activeIdentity := activeIdentity pg; leaveClick := leaveClick pg;
     startScreenClick := startScreenClick pg;
     onbeforeunload := onbeforeunload pg; onpagehide := onpagehide pg;
     onvisibilitychange := onvisibilitychange pg;
     window_room := v;
     leaveClickEarlier := leaveClickEarlier pg; parseHTML := parseHTML pg |}.

Definition set_leaveClickEarlier (v : nat) (pg : Page) : Page :=
  {| participantsDiv := participantsDiv pg; activeVideo := activeVideo pg;
     activeIdentity := activeIdentity pg; leaveClick := leaveClick pg;
     startScreenClick := startScreenClick pg;
     onbeforeunload := onbeforeunload pg; onpagehide := onpagehide pg;
     onvisibilitychange := onvisibilitychange pg;
     window_room := window_room pg;
     leaveClickEarlier := v; parseHTML := parseHTML pg |}.

Definition set_opacity (v : option string) (el : MediaEl) : MediaEl :=
  {| opacity := v; srcObject := srcObject el; muted := muted el |}.

Definition set_srcObject (v : option (list Track)) (el : MediaEl) : MediaEl :=
  {| opacity := opacity el; srcObject := v; muted := muted el |}.

Definition set_classes (v : list string) (c : Container) : Container :=
  {| el_id := el_id c; data_identity := data_identity c; classes := v;
     audio_el := audio_el c; video_el := video_el c;
     click_participant := click_participant c |}.

Definition set_click_participant (v : PRef) (c : Container) : Container :=
  {| el_id := el_id c; data_identity := data_identity c; classes := classes c;
     audio_el := audio_el c; video_el := video_el c;
     click_participant := v |}.

Definition set_data_identity (v : string) (c : Container) : Container :=
  {| el_id := el_id c; data_identity := v; classes := classes c;
     audio_el := audio_el c; video_el := video_el c;
     click_participant := click_participant c |}.

Definition media_el (k : Kind) (c : Container) : MediaEl :=
  match k with audio => audio_el c | video => video_el c end.

Definition set_media_el (k : Kind) (v : MediaEl) (c : Container) : Container :=
  match k with
  | audio =>
      {| el_id := el_id c; data_identity := data_identity c;
         classes := classes c; audio_el := v; video_el := video_el c;
         click_participant := click_participant c |}
  | video =>
      {| el_id := el_id c; data_identity := data_identity c;
         classes := classes c; audio_el := audio_el c; video_el := v;
         click_participant := click_participant c |}
  end.

(* ------------------------------------------------------------------ *)
(** ** Handlers as state transformers that may throw *)

Inductive Res (A : Type) :=
| Ok (a : A)
| Throw (e : JsError).

Arguments Throw {A} e.

Definition M (A : Type) := State -> Res A * State.

Definition ret {A} (a : A) : M A := fun st => (Ok a, st).

Definition bind {A B} (c : M A) (k : A -> M B) : M B :=
  fun st =>
    match c st with
    | (Ok a, st') => k a st'
    | (Throw e, st') => (Throw e, st')
    end.

Definition throw {A} (e : JsError) : M A := fun st => (Throw e, st).

Definition gets {A} (f : State -> A) : M A := fun st => (Ok (f st), st).

Definition modify (f : State -> State) : M unit := fun st => (Ok tt, f st).

Declare Scope js_scope.
Delimit Scope js_scope with js.
Notation "x <- c ;; k" := (bind c (fun x => k))
  (at level 61, c at next level, right associativity) : js_scope.
Notation "c ;; k" := (bind c (fun _ => k))
  (at level 61, right associativity) : js_scope.
Open Scope js_scope.

(** [collection.forEach(f)]: stops at the first throw. *)
Fixpoint forEach {A} (f : A -> M unit) (l : list A) : M unit :=
  match l with
  | [] => ret tt
  | x :: r => f x ;; forEach f r
  end.

Definition exec {A} (c : M A) (st : State) : State := snd (c st).
Definition result {A} (c : M A) (st : State) : Res A := fst (c st).

Definition on_page (f : Page -> Page) (st : State) : State :=
  set_page (f (page st)) st.

Definition on_participantsDiv (f : list Container -> list Container)
  (st : State) : State :=
  on_page (fun pg => set_participantsDiv (f (participantsDiv pg)) pg) st.

Definition on_activeVideo (f : MediaEl -> MediaEl) (st : State) : State :=
  on_page (fun pg => set_activeVideo (f (activeVideo pg)) pg) st.

Definition log (c : SdkCall) (st : State) : State :=
  set_calls (calls st ++ [c]) st.

Definition register (l : Listener) (st : State) : State :=
  set_listeners (listeners st ++ [l]) st.

(* ------------------------------------------------------------------ *)
(** ** jQuery selections over the children of [$participants] *)

(** [div#sid] under [$participants]. *)
Definition matches (s : string) (c : Container) : bool :=
  String.eqb (el_id c) s.

(** A jQuery setter applies to every matched element. *)
Definition jq_each (s : string) (f : Container -> Container)
  (cs : list Container) : list Container :=
  map (fun c => if matches s c then f c else c) cs.

(** [.get(0)]: the first matched element, if any. *)
Definition jq_get0 (s : string) (cs : list Container) : option Container :=
  find (matches s) cs.

(** A write through the element returned by [.get(0)]. *)
Fixpoint jq_first (s : string) (f : Container -> Container)
  (cs : list Container) : list Container :=
  match cs with
  | [] => []
  | c :: r => if matches s c then f c :: r else c :: jq_first s f r
  end.

(** [.remove()]. *)
Definition jq_remove (s : string) (cs : list Container) : list Container :=
  filter (fun c => negb (matches s c)) cs.

Definition removeClass (cls : string) (c : Container) : Container :=
  set_classes (filter (fun x => negb (String.eqb x cls)) (classes c)) c.

Definition addClass (cls : string) (c : Container) : Container :=
  if existsb (String.eqb cls) (classes c) then c
  else set_classes (classes c ++ [cls]) c.

Definition on_media (k : Kind) (f : MediaEl -> MediaEl) (c : Container)
  : Container :=
  set_media_el k (f (media_el k c)) c.

(* ------------------------------------------------------------------ *)
(** ** The SDK's [attach] and [detach] on an element

    [twilio-video] is external to the repository; these two follow its
    documented behaviour.  [track.attach(el)] makes [el.srcObject] a
    MediaStream in which the track replaces any track of the same kind.
    [track.detach(el)] takes the track out of the element's stream and
    does nothing when it is not there.  Without an element, [attach]
    builds an element of its own that is not inserted in the page, and
    [detach] detaches from every element the track is attached to. *)

Definition sdk_attach (t : Track) (el : MediaEl) : MediaEl :=
  let stream := match srcObject el with Some s => s | None => [] end in
  set_srcObject
    (Some (filter (fun x => negb (kind_eqb (kind x) (kind t))) stream ++ [t]))
    el.

Definition sdk_detach (t : Track) (el : MediaEl) : MediaEl :=
  set_srcObject
    (option_map (filter (fun x => negb (track_eqb x t))) (srcObject el)) el.

Definition sdk_detach_all (t : Track) (pg : Page) : Page :=
  set_activeVideo (sdk_detach t (activeVideo pg))
    (set_participantsDiv
       (map (fun c => on_media audio (sdk_detach t)
                        (on_media video (sdk_detach t) c))
            (participantsDiv pg)) pg).

(** The element shows the track. *)
Definition shows (t : Track) (el : MediaEl) : Prop :=
  match srcObject el with
  | Some s => In t s
  | None => False
  end.

(* ------------------------------------------------------------------ *)
(** ** joinroom.js *)

Definition ref_is (a : option PRef) (p : PRef) : bool :=
  match a with
  | Some r => Nat.eqb r p
  | None => false
  end.

(** [Array.from(participant.videoTracks.values())[0] || {}], then
    [.track]. *)
Definition first_video_track (p : Participant) : option Track :=
  match videoTracks p with
  | [] => None
  | publication :: _ => track publication
  end.

Definition setActiveParticipant (participant : PRef) : M unit :=
  a <- gets activeParticipant ;;
  match a with
  | Some act =>
      asid <- gets (fun st => sid (heap st act)) ;;
      modify (on_participantsDiv (jq_each asid (removeClass "active"))) ;;
      modify (on_participantsDiv (jq_each asid (removeClass "pinned"))) ;;
      (* Detach any existing VideoTrack of the active Participant. *)
      activeTrack <- gets (fun st => first_video_track (heap st act)) ;;
      match activeTrack with
      | Some trk =>
          modify (on_activeVideo (sdk_detach trk)) ;;
          modify (on_activeVideo (set_opacity (Some "0")))
      | None => ret tt
      end
  | None => ret tt
  end ;;
  (* Set the new active Participant. *)
  modify (set_activeParticipant (Some participant)) ;;
  who <- gets (fun st => heap st participant) ;;
  modify (on_participantsDiv (jq_each (sid who) (addClass "active"))) ;;
  pinned <- gets isActiveParticipantPinned ;;
  (if pinned
   then modify (on_participantsDiv (jq_each (sid who) (addClass "pinned")))
   else ret tt) ;;
  (* Attach the new active Participant's video. *)
  match first_video_track who with
  | Some trk =>
      modify (on_activeVideo (sdk_attach trk)) ;;
      modify (on_activeVideo (set_opacity None))
  | None => ret tt
  end ;;
  (* Set the new active Participant's identity. *)
  modify (on_page (set_activeIdentity (Some (identity who)))).

(** [dominantSpeaker || localParticipant]. *)
Definition speaker_or_local (rm : Room) : PRef :=
  match dominantSpeaker rm with
  | Some d => d
  | None => localParticipant rm
  end.

(** The [room] argument of the source is the one room of the state. *)
Definition setCurrentActiveParticipant : M unit :=
  rm <- gets room ;;
  setActiveParticipant (speaker_or_local rm).

(** [participant] is whatever the caller holds; the click handler passes
    the global [activeParticipant], which may be null. *)
Definition setVideoPriority (participant : option PRef)
  (priority : option string) : M unit :=
  match participant with
  | None =>
      throw (TypeError "Cannot read properties of null (reading 'videoTracks')")
  | Some p =>
      pubs <- gets (fun st => videoTracks (heap st p)) ;;
      forEach (fun publication =>
                 match track publication with
                 | Some trk =>
                     if has_setPriority trk
                     then modify (log (CSetPriority trk priority))
                     else ret tt
                 | None => ret tt
                 end) pubs
  end.

(** The click listener of a participant's container. *)
Definition container_click (participant : PRef) : M unit :=
  a <- gets activeParticipant ;;
  pinned <- gets isActiveParticipantPinned ;;
  if ref_is a participant && pinned then
    (* Unpin the RemoteParticipant and update the current active Participant. *)
    setVideoPriority (Some participant) None ;;
    modify (set_isActiveParticipantPinned false) ;;
    setCurrentActiveParticipant
  else
    (* Pin the RemoteParticipant as the active Participant. *)
    (if pinned then setVideoPriority a None else ret tt) ;;
    setVideoPriority (Some participant) (Some "high") ;;
    modify (set_isActiveParticipantPinned true) ;;
    setActiveParticipant participant.

(** The markup [setupParticipantContainer] hands to [$]: the identity
    and the sid are spliced in as they are. *)
Definition dq : string := String (ascii_of_nat 34) EmptyString.
Definition nl : string := String (ascii_of_nat 10) EmptyString.

Definition container_html (identity sid : string) (is_local : bool) : string :=
  ("<div class=" ++ dq ++ "participant" ++ dq
   ++ " data-identity=" ++ dq ++ identity ++ dq
   ++ " id=" ++ dq ++ sid ++ dq ++ ">" ++ nl
   ++ "    <audio autoplay " ++ (if is_local then "muted" else "")
   ++ " style=" ++ dq ++ "opacity: 0" ++ dq ++ "></audio>" ++ nl
   ++ "    <video autoplay muted playsinline style="
   ++ dq ++ "opacity: 0" ++ dq ++ "></video>" ++ nl
   ++ "  </div>")%string.

(** Printable ASCII without the double quote, the ampersand, the slash
    and the angle brackets: between the quotes of [data-identity] such a
    text is the attribute's value and nothing else.  Any other character
    may end the attribute, start a character reference or be rewritten
    before parsing. *)
Definition plain_char (c : ascii) : bool :=
  let n := nat_of_ascii c in
  Nat.leb 32 n && Nat.leb n 126
  && negb (existsb (Nat.eqb n) [34; 38; 47; 60; 62]).

Fixpoint plain (s : string) : bool :=
  match s with
  | EmptyString => true
  | String c r => plain_char c && plain r
  end.

(** The one element the markup describes when the identity is plain. *)
Definition template (who : Participant) (is_local : bool) (listener : PRef)
  : Container :=
  {| el_id := sid who;
     data_identity := identity who;
     classes := ["participant"];
     audio_el := {| opacity := Some "0"; srcObject := None; muted := is_local |};
     video_el := {| opacity := Some "0"; srcObject := None; muted := true |};
     click_participant := listener |}.

(** [$(html).on('click', ...)]: the elements built from the markup, each
    with the click listener.  With a plain identity this is the template's
    element; otherwise it is whatever the browser parses out of the
    markup, which the page gives as [parseHTML]. *)
Definition jq_html (pg : Page) (who : Participant) (is_local : bool)
  (listener : PRef) : list Container :=
  if plain (identity who)
  then [template who is_local listener]
  else map (set_click_participant listener)
         (parseHTML pg (container_html (identity who) (sid who) is_local)).

Definition setupParticipantContainer (participant : PRef) : M unit :=
  who <- gets (fun st => heap st participant) ;;
  rm <- gets room ;;
  (* Add a container for the Participant's media, with its click listener. *)
  container <- gets (fun st =>
                 jq_html (page st) who
                   (Nat.eqb participant (localParticipant rm)) participant) ;;
  (* Add the Participant's container to the DOM. *)
  modify (on_participantsDiv (fun cs => cs ++ container)).

Definition attachTrack (trk : Track) (participant : PRef) : M unit :=
  (* Attach the Participant's Track to the thumbnail. *)
  psid <- gets (fun st => sid (heap st participant)) ;;
  modify (on_participantsDiv
            (jq_each psid (on_media (kind trk) (set_opacity None)))) ;;
  modify (on_participantsDiv
            (jq_first psid (on_media (kind trk) (sdk_attach trk)))) ;;
  a <- gets activeParticipant ;;
  if kind_eqb (kind trk) video && ref_is a participant then
    modify (on_activeVideo (sdk_attach trk)) ;;
    modify (on_activeVideo (set_opacity None))
  else ret tt.

Definition detachTrack (trk : Track) (participant : PRef) : M unit :=
  (* Detach the Participant's Track from the thumbnail. *)
  psid <- gets (fun st => sid (heap st participant)) ;;
  mediaEl <- gets (fun st => jq_get0 psid (participantsDiv (page st))) ;;
  modify (on_participantsDiv
            (jq_each psid (on_media (kind trk) (set_opacity (Some "0"))))) ;;
  match mediaEl with
  | Some _ =>
      modify (on_participantsDiv
                (jq_first psid (on_media (kind trk) (sdk_detach trk)))) ;;
      modify (on_participantsDiv
                (jq_first psid (on_media (kind trk) (set_srcObject None))))
  | None =>
      modify (on_page (sdk_detach_all trk)) ;;
      throw (TypeError
               "Cannot set properties of undefined (setting 'srcObject')")
  end ;;
  a <- gets activeParticipant ;;
  if kind_eqb (kind trk) video && ref_is a participant then
    modify (on_activeVideo (sdk_detach trk)) ;;
    modify (on_activeVideo (set_srcObject None)) ;;
    modify (on_activeVideo (set_opacity (Some "0")))
  else ret tt.

Definition trackPublished (publication : Publication) (participant : PRef)
  : M unit :=
  match track publication with
  | Some trk => attachTrack trk participant
  | None => ret tt
  end ;;
  modify (register (OnSubscribed (trackSid publication) participant)) ;;
  modify (register (OnUnsubscribed (trackSid publication) participant)).

Definition participantConnected (participant : PRef) : M unit :=
  setupParticipantContainer participant ;;
  pubs <- gets (fun st => tracks (heap st participant)) ;;
  forEach (fun publication => trackPublished publication participant) pubs ;;
  modify (register (OnTrackPublished participant)).

Definition participantDisconnected (participant : PRef) : M unit :=
  a <- gets activeParticipant ;;
  pinned <- gets isActiveParticipantPinned ;;
  (if ref_is a participant && pinned then
     modify (set_isActiveParticipantPinned false) ;;
     setCurrentActiveParticipant
   else ret tt) ;;
  (* Remove the Participant's media container. *)
  psid <- gets (fun st => sid (heap st participant)) ;;
  modify (on_participantsDiv (jq_remove psid)).

Definition level_text (l : option nat) : string :=
  match l with
  | Some n => NilEmpty.string_of_uint (Nat.to_uint n)
  | None => "null"
  end.

(** [document.getElementById(participant.sid)] is the first element of
    the page with that id; the ids of the page's own markup are taken to
    differ from every sid. *)
Definition updateNetworkQualityReport (participant : PRef) : M unit :=
  who <- gets (fun st => heap st participant) ;;
  modify (on_participantsDiv
            (jq_first (sid who)
               (set_data_identity
                  ("NQ Level (" ++ identity who ++ "): "
                     ++ level_text (networkQualityLevel who))%string))).

(** The callback argument of the source is always
    [updateNetworkQualityReport]. *)
Definition setupNetworkQualityUpdatesForParticipant (participant : PRef)
  : M unit :=
  updateNetworkQualityReport participant ;;
  modify (register (OnNetworkQualityLevelChanged participant)).

Definition setupNetworkQualityUpdates : M unit :=
  rm <- gets room ;;
  setupNetworkQualityUpdatesForParticipant (localParticipant rm) ;;
  forEach setupNetworkQualityUpdatesForParticipant (participants rm) ;;
  modify (register OnParticipantConnectedNQ).

(** The listener of [dominantSpeakerChanged] installed by [joinRoom]. *)
Definition onDominantSpeakerChanged : M unit :=
  pinned <- gets isActiveParticipantPinned ;;
  if negb pinned then setCurrentActiveParticipant else ret tt.

(** [resolve]/[reject] settle a promise once. *)
Definition settle (v : PromiseState) (st : State) : State :=
  match joinPromise st with
  | Pending => set_joinPromise v st
  | _ => st
  end.

(** [$leave.click(onLeave)]: every call of [joinRoom] binds an [onLeave]
    of its own, and only a click takes one off.  The one bound before,
    if it is still there, captured the room of an earlier call. *)
Definition bind_onLeave (pg : Page) : Page :=
  set_leaveClick true
    (set_leaveClickEarlier
       (if leaveClick pg then S (leaveClickEarlier pg) else leaveClickEarlier pg)
       pg).

Section WithBrowser.

(** [isMobile] is imported from [./browser], a module that is not among
    the sources at hand; it is a constant of the page. *)
Variable isMobile : bool.

(** The listener of [disconnected] installed by [joinRoom]. *)
Definition onDisconnected (error : option JsError) : M unit :=
  (* Clear the event handlers on document and window. *)
  modify (on_page (set_onbeforeunload None)) ;;
  (if isMobile then
     modify (on_page (set_onpagehide None)) ;;
     modify (on_page (set_onvisibilitychange None))
   else ret tt) ;;
  (* Stop the LocalVideoTrack. *)
  lvt <- gets localVideoTrack ;;
  match lvt with
  | Some t => modify (log (CStop t))
  | None => throw (TypeError "Cannot read properties of null (reading 'stop')")
  end ;;
  (* Handle the disconnected LocalParticipant, then the remote ones. *)
  rm <- gets room ;;
  participantDisconnected (localParticipant rm) ;;
  forEach participantDisconnected (participants rm) ;;
  (* Clear the active Participant's video. *)
  modify (on_activeVideo (set_srcObject None)) ;;
  modify (on_page (set_window_room false)) ;;
  match error with
  | Some e => modify (settle (Rejected e))
  | None => modify (settle Resolved)
  end.

(** The synchronous part of [joinRoom] after [await connect(...)];
    [conn] is what the SDK's [connect] settles with.  The state holds
    one room, the one of the last call: [joinRoom] is called again once
    the room of the call before has been left, and the new room object
    carries no listeners. *)
Definition joinRoom_body (token : string) (conn : JsError + Room) : M unit :=
  modify (log (CLoggerSetLevel "debug")) ;;
  modify (log (CConnect token 3 3)) ;;
  match conn with
  | inl e => throw e
  | inr rm =>
      modify (set_room rm) ;;
      modify (set_listeners []) ;;
      (* Save the LocalVideoTrack. *)
      vts <- gets (fun st => videoTracks (heap st (localParticipant rm))) ;;
      match vts with
      | [] =>
          throw (TypeError
                   "Cannot read properties of undefined (reading 'track')")
      | publication :: _ => modify (set_localVideoTrack (track publication))
      end ;;
      modify (on_page (set_window_room true)) ;;
      (* Handle the LocalParticipant's media. *)
      participantConnected (localParticipant rm) ;;
      (* Subscribe to the media published by RemoteParticipants. *)
      forEach participantConnected (participants rm) ;;
      modify (register OnParticipantConnected) ;;
      modify (register OnParticipantDisconnected) ;;
      (* Set the current active Participant. *)
      setCurrentActiveParticipant ;;
      modify (register OnDominantSpeakerChanged) ;;
      setupNetworkQualityUpdates ;;
      modify (on_page bind_onLeave) ;;
      modify (on_page (set_startScreenClick true)) ;;
      (* The executor of the returned promise. *)
      modify (on_page (set_onbeforeunload (Some HDisconnect))) ;;
      (if isMobile then
         modify (on_page (set_onpagehide (Some HDisconnect))) ;;
         modify (on_page (set_onvisibilitychange (Some HVisibilityChange)))
       else ret tt) ;;
      modify (register OnceDisconnected)
  end.

(** [joinRoom] is async: a throw in its body rejects the promise it
    returned, otherwise the promise stays pending until [disconnected]. *)
Definition joinRoom (token : string) (conn : JsError + Room) (st : State)
  : State :=
  match joinRoom_body token conn st with
  | (Ok _, st') => set_joinPromise Pending st'
  | (Throw e, st') => set_joinPromise (Rejected e) st'
  end.

(* ------------------------------------------------------------------ *)
(** ** Event delivery *)

(** What an emitter passes to its listeners. *)
Inductive Emitted :=
| participantConnected_ (p : PRef)
| participantDisconnected_ (p : PRef)
| dominantSpeakerChanged_
| disconnected_ (error : option JsError)
| trackPublished_ (p : PRef) (publication : Publication)
| subscribed_ (pub : string) (trk : Track)
| unsubscribed_ (pub : string) (trk : Track)
| networkQualityLevelChanged_ (p : PRef).

(** The body a listener runs for an emitted event, if it listens to it. *)
Definition handler (l : Listener) (e : Emitted) : option (M unit) :=
  match l, e with
  | OnParticipantConnected, participantConnected_ p =>
      Some (participantConnected p)
  | OnParticipantConnectedNQ, participantConnected_ p =>
      Some (setupNetworkQualityUpdatesForParticipant p)
  | OnParticipantDisconnected, participantDisconnected_ p =>
      Some (participantDisconnected p)
  | OnDominantSpeakerChanged, dominantSpeakerChanged_ =>
      Some onDominantSpeakerChanged
  | OnceDisconnected, disconnected_ error => Some (onDisconnected error)
  | OnTrackPublished p, trackPublished_ q publication =>
      if Nat.eqb p q then Some (trackPublished publication p) else None
  | OnSubscribed s p, subscribed_ s' trk =>
      if String.eqb s s' then Some (attachTrack trk p) else None
  | OnUnsubscribed s p, unsubscribed_ s' trk =>
      if String.eqb s s' then Some (detachTrack trk p) else None
  | OnNetworkQualityLevelChanged p, networkQualityLevelChanged_ q =>
      if Nat.eqb p q then Some (updateNetworkQualityReport p) else None
  | _, _ => None
  end.

(** A [once] listener is taken off before it runs. *)
Fixpoint drop_once (ls : list Listener) : list Listener :=
  match ls with
  | [] => []
  | OnceDisconnected :: r => r
  | l :: r => l :: drop_once r
  end.

Definition deliver (e : Emitted) (l : Listener) : M unit :=
  match handler l e with
  | Some h =>
      match l with
      | OnceDisconnected => modify (fun st => set_listeners (drop_once (listeners st)) st)
      | _ => ret tt
      end ;;
      h
  | None => ret tt
  end.

(** [emitter.emit(...)]: the listeners registered when the event is
    emitted run in registration order; a throw ends the delivery. *)
Definition emit (e : Emitted) : M unit :=
  ls <- gets listeners ;;
  forEach (deliver e) ls.

(** [room.disconnect()]: the SDK leaves the room and emits
    [disconnected] without an error; on a room already left it does
    nothing. *)
Definition set_connected (v : bool) (rm : Room) : Room :=
  {| localParticipant := localParticipant rm; participants := participants rm;
     dominantSpeaker := dominantSpeaker rm; connected := v |}.

Definition room_disconnect : M unit :=
  modify (log CDisconnect) ;;
  rm <- gets room ;;
  if connected rm then
    modify (set_room (set_connected false rm)) ;;
    emit (disconnected_ None)
  else ret tt.

(** [onLeave], bound to the "Leave Room" button by the last call of
    [joinRoom]. *)
Definition onLeave : M unit :=
  modify (on_page (set_leaveClick false)) ;;
  room_disconnect.

(** [onLeave] as an earlier call of [joinRoom] bound it.  The state
    holds one room, the one of the last call: [joinRoom] is called again
    once the room of the call before has been left, and [disconnect] on
    a room that has been left does nothing. *)
Definition onLeave_earlier : M unit :=
  modify (on_page (fun pg =>
            set_leaveClickEarlier (pred (leaveClickEarlier pg)) pg)) ;;
  modify (log CDisconnect).

Fixpoint times (n : nat) (c : M unit) : M unit :=
  match n with
  | O => ret tt
  | S m => c ;; times m c
  end.

(** An update of one participant object. *)
Definition on_participant (p : PRef) (f : Participant -> Participant)
  (st : State) : State :=
  set_heap (fun r => if Nat.eqb r p then f (heap st r) else heap st r) st.

(** [localParticipant.unpublishTrack(t)]: the SDK takes the publication
    of [t], if there is one, out of the participant's [tracks] and
    [videoTracks]. *)
Definition without_track (t : Track) (pubs : list Publication)
  : list Publication :=
  filter (fun publication =>
            match track publication with
            | Some u => negb (track_eqb u t)
            | None => true
            end) pubs.

Definition unpublish (t : Track) (who : Participant) : Participant :=
  {| sid := sid who; identity := identity who;
     tracks := without_track t (tracks who);
     videoTracks := without_track t (videoTracks who);
     networkQualityLevel := networkQualityLevel who |}.

(** [document.onvisibilitychange] on mobile browsers, up to its
    [await]. *)
Definition onVisibilityChange (hidden : bool) : M unit :=
  if hidden then
    lvt <- gets localVideoTrack ;;
    match lvt with
    | Some t =>
        modify (log (CStop t)) ;;
        modify (log (CUnpublishTrack t)) ;;
        rm <- gets room ;;
        modify (on_participant (localParticipant rm) (unpublish t))
    | None =>
        throw (TypeError "Cannot read properties of null (reading 'stop')")
    end
  else
    modify (log CCreateLocalVideoTrack) ;;
    modify (fun st => set_pendingVideo (S (pendingVideo st)) st).

(** The rest of [onvisibilitychange] once [createLocalVideoTrack]
    settles.  [publishTrack] is asked for the new track; the publication
    itself comes later, when the SDK has it acknowledged: it then adds it
    to the local participant and emits [trackPublished] on it, which is
    the notification [EvTrackPublished] of the environment below. *)
Definition onLocalVideoTrackCreated (r : JsError + Track) : M unit :=
  n <- gets pendingVideo ;;
  match n with
  | O => ret tt
  | S m =>
      modify (set_pendingVideo m) ;;
      match r with
      | inl e => throw e
      | inr t =>
          modify (set_localVideoTrack (Some t)) ;;
          modify (log (CPublishTrack t))
      end
  end.

(* ------------------------------------------------------------------ *)
(** ** The environment: user gestures and SDK notifications

    Before it emits, the SDK updates the object the event is about; these
    updates follow the SDK's documentation of [Room], [Participant] and
    [TrackPublication]. *)

Definition on_room (f : Room -> Room) (st : State) : State :=
  set_room (f (room st)) st.

Definition set_participants (v : list PRef) (rm : Room) : Room :=
  {| localParticipant := localParticipant rm; participants := v;
     dominantSpeaker := dominantSpeaker rm; connected := connected rm |}.

Definition set_dominantSpeaker (v : option PRef) (rm : Room) : Room :=
  {| localParticipant := localParticipant rm; participants := participants rm;
     dominantSpeaker := v; connected := connected rm |}.

Definition add_publication (publication : Publication) (who : Participant)
  : Participant :=
  {| sid := sid who; identity := identity who;
     tracks := tracks who ++ [publication];
     videoTracks := match pub_kind publication with
                    | video => videoTracks who ++ [publication]
                    | audio => videoTracks who
                    end;
     networkQualityLevel := networkQualityLevel who |}.

Definition set_track (s : string) (v : option Track)
  (publication : Publication) : Publication :=
  if String.eqb (trackSid publication) s
  then {| trackSid := trackSid publication;
          pub_kind := pub_kind publication; track := v |}
  else publication.

Definition set_publication_track (s : string) (v : option Track)
  (who : Participant) : Participant :=
  {| sid := sid who; identity := identity who;
     tracks := map (set_track s v) (tracks who);
     videoTracks := map (set_track s v) (videoTracks who);
     networkQualityLevel := networkQualityLevel who |}.

Definition set_networkQualityLevel (v : option nat) (who : Participant)
  : Participant :=
  {| sid := sid who; identity := identity who; tracks := tracks who;
     videoTracks := videoTracks who; networkQualityLevel := v |}.

Inductive Event :=
| EvClick (n : nat)                (* click on the n-th thumbnail *)
| EvLeaveClick
| EvBeforeUnload
| EvPageHide
| EvVisibilityChange (hidden : bool)
| EvLocalVideoTrackCreated (r : JsError + Track)
| EvParticipantConnected (p : PRef)
| EvParticipantDisconnected (p : PRef)
| EvDominantSpeakerChanged (d : option PRef)
| EvDisconnected (error : JsError) (* the SDK drops the room *)
| EvTrackPublished (p : PRef) (publication : Publication)
| EvSubscribed (p : PRef) (pub : string) (trk : Track)
| EvUnsubscribed (p : PRef) (pub : string) (trk : Track)
| EvNetworkQualityLevelChanged (p : PRef) (level : nat).

Definition step (ev : Event) : M unit :=
  match ev with
  | EvClick n =>
      cs <- gets (fun st => participantsDiv (page st)) ;;
      match nth_error cs n with
      | Some c => container_click (click_participant c)
      | None => ret tt
      end
  | EvLeaveClick =>
      (* the handlers run in the order they were bound *)
      earlier <- gets (fun st => leaveClickEarlier (page st)) ;;
      times earlier onLeave_earlier ;;
      bound <- gets (fun st => leaveClick (page st)) ;;
      if bound then onLeave else ret tt
  | EvBeforeUnload =>
      h <- gets (fun st => onbeforeunload (page st)) ;;
      match h with Some HDisconnect => room_disconnect | _ => ret tt end
  | EvPageHide =>
      h <- gets (fun st => onpagehide (page st)) ;;
      match h with Some HDisconnect => room_disconnect | _ => ret tt end
  | EvVisibilityChange hidden =>
      h <- gets (fun st => onvisibilitychange (page st)) ;;
      match h with
      | Some HVisibilityChange => onVisibilityChange hidden
      | _ => ret tt
      end
  | EvLocalVideoTrackCreated r => onLocalVideoTrackCreated r
  | EvParticipantConnected p =>
      modify (on_room (fun rm => set_participants (participants rm ++ [p]) rm)) ;;
      emit (participantConnected_ p)
  | EvParticipantDisconnected p =>
      modify (on_room (fun rm =>
                set_participants
                  (filter (fun q => negb (Nat.eqb q p)) (participants rm)) rm)) ;;
      emit (participantDisconnected_ p)
  | EvDominantSpeakerChanged d =>
      modify (on_room (set_dominantSpeaker d)) ;;
      emit dominantSpeakerChanged_
  | EvDisconnected error =>
      rm <- gets room ;;
      if connected rm then
        modify (set_room (set_connected false rm)) ;;
        emit (disconnected_ (Some error))
      else ret tt
  | EvTrackPublished p publication =>
      modify (on_participant p (add_publication publication)) ;;
      emit (trackPublished_ p publication)
  | EvSubscribed p pub trk =>
      modify (on_participant p (set_publication_track pub (Some trk))) ;;
      emit (subscribed_ pub trk)
  | EvUnsubscribed p pub trk =>
      modify (on_participant p (set_publication_track pub None)) ;;
      emit (unsubscribed_ pub trk)
  | EvNetworkQualityLevelChanged p level =>
      modify (on_participant p (set_networkQualityLevel (Some level))) ;;
      emit (networkQualityLevelChanged_ p)
  end.

(** An error thrown by a handler does not stop the page: the next event
    is delivered to the state the handler left. *)
Definition run (evs : list Event) (st : State) : State :=
  fold_left (fun s ev => exec (step ev) s) evs st.

(** The states after each event of a sequence, in order. *)
Fixpoint trace (evs : list Event) (st : State) : list State :=
  match evs with
  | [] => []
  | ev :: r => let st' := exec (step ev) st in st' :: trace r st'
  end.

End WithBrowser.

(** The page as loaded, before [joinRoom] is first called. *)
Definition blank : Participant :=
  {| sid := ""; identity := ""; tracks := []; videoTracks := [];
     networkQualityLevel := None |}.

Definition initial_page : Page :=
  {| participantsDiv := [];
     activeVideo := {| opacity := None; srcObject := None; muted := true |};
     activeIdentity := None; leaveClick := false; startScreenClick := false;
     onbeforeunload := None; onpagehide := None; onvisibilitychange := None;
     window_room := false; leaveClickEarlier := 0; parseHTML := fun _ => [] |}.

Definition initial (h : PRef -> Participant) : State :=
  {| activeParticipant := None;
     isActiveParticipantPinned := false;
     page := initial_page;
     heap := h;
     room := {| localParticipant := 0; participants := [];
                dominantSpeaker := None; connected := false |};
     listeners := []; calls := [];
     localVideoTrack := None; pendingVideo := 0;
     joinPromise := NotCalled |}.

(* ================================================================== *)
(** * Vocabulary of the statements *)

(* ------------------------------------------------------------------ *)
(** ** Observations and what a handler does to them *)

(** [keeps f c]: running [c] leaves the observation [f] of the state as
    it was, whether [c] returns or throws. *)
Definition keeps {A B} (f : State -> B) (c : M A) : Prop :=
  forall st, f (snd (c st)) = f st.

(** [safe c]: [c] never throws. *)
Definition safe {A} (c : M A) : Prop :=
  forall st, exists a, fst (c st) = Ok a.

(** [preserves P c]: a property of the state that survives [c]. *)
Definition preserves {A} (P : State -> Prop) (c : M A) : Prop :=
  forall st, P st -> P (snd (c st)).

(** Observations that do not depend on one part of the state. *)
Definition ignores_page {B} (f : State -> B) : Prop :=
  forall pg st, f (set_page pg st) = f st.
Definition ignores_active {B} (f : State -> B) : Prop :=
  forall v st, f (set_activeParticipant v st) = f st.
Definition ignores_pinned {B} (f : State -> B) : Prop :=
  forall v st, f (set_isActiveParticipantPinned v st) = f st.
Definition ignores_calls {B} (f : State -> B) : Prop :=
  forall v st, f (set_calls v st) = f st.
Definition ignores_listeners {B} (f : State -> B) : Prop :=
  forall v st, f (set_listeners v st) = f st.

(** The hooks of the page. *)
Definition hooks (st : State) :=
  (leaveClick (page st), startScreenClick (page st),
   onbeforeunload (page st), onpagehide (page st),
   onvisibilitychange (page st), window_room (page st)).

(** The ids of the thumbnails, in document order: the nodes under
    [$participants]. *)
Definition nodes (st : State) : list string :=
  map el_id (participantsDiv (page st)).

(** The main surface. *)
Definition main_video (st : State) : MediaEl := activeVideo (page st).

(** No thumbnail carries the id [s]. *)
Definition no_node (s : string) (st : State) : Prop := ~ In s (nodes st).

(** The listener [l] is registered. *)
Definition listening (l : Listener) (st : State) : Prop := In l (listeners st).

(** The module's two variables. *)
Definition selection (st : State) : option PRef * bool :=
  (activeParticipant st, isActiveParticipantPinned st).

(** Nobody is pinned and [activeParticipant] is [a]. *)
Definition unpinned_active (a : option PRef) (st : State) : Prop :=
  activeParticipant st = a /\ isActiveParticipantPinned st = false.

(** Functions on a container that leave its id alone. *)
Definition keeps_id (f : Container -> Container) : Prop :=
  forall c, el_id (f c) = el_id c.

(* ------------------------------------------------------------------ *)
(** ** The dominant-speaker rule and the pin *)

(** The participant the dominant-speaker rule selects for a reported
    speaker [d] in a room whose local participant is [loc]. *)
Definition selected (loc : PRef) (d : option PRef) : option PRef :=
  Some (match d with Some s => s | None => loc end).

(** The three handlers that read or write the pin. *)
Inductive Gesture :=
| Click (p : PRef)                    (* the click listener of p's thumbnail *)
| Disconnect (p : PRef)               (* participantDisconnected(p, room) *)
| DominantSpeaker (d : option PRef).  (* dominantSpeakerChanged, the room
                                         reporting d *)

Definition handle (g : Gesture) : M unit :=
  match g with
  | Click p => container_click p
  | Disconnect p => participantDisconnected p
  | DominantSpeaker d =>
      modify (on_room (set_dominantSpeaker d)) ;; onDominantSpeakerChanged
  end.

(** Who is pinned, in the spec's words: a click on a thumbnail pins its
    participant unless that participant is the pinned one, in which case
    it unpins; the pin is dropped when the pinned participant
    disconnects; nothing else touches it. *)
Definition pinned_after (g : Gesture) (pin : option PRef) : option PRef :=
  match g with
  | Click p => if ref_is pin p then None else Some p
  | Disconnect p => if ref_is pin p then None else pin
  | DominantSpeaker _ => pin
  end.

(** The module's two variables agree with who is pinned. *)
Definition pin_agrees (st : State) (pin : option PRef) : Prop :=
  match pin with
  | Some p => isActiveParticipantPinned st = true /\ activeParticipant st = Some p
  | None => isActiveParticipantPinned st = false
  end.

(** The events that are neither a click on a thumbnail nor a
    [dominantSpeakerChanged] notification. *)
Definition quiet (ev : Event) : bool :=
  match ev with
  | EvClick _ | EvDominantSpeakerChanged _ => false
  | _ => true
  end.

(* ------------------------------------------------------------------ *)
(** ** Priority requests *)

(** The tracks [setVideoPriority] calls [setPriority] on. *)
Definition priority_tracks (who : Participant) : list Track :=
  flat_map (fun publication =>
              match track publication with
              | Some trk => if has_setPriority trk then [trk] else []
              | None => []
              end) (videoTracks who).

Definition priority_requests (who : Participant) (priority : option string)
  : list SdkCall :=
  map (fun trk => CSetPriority trk priority) (priority_tracks who).

(** The request that resets the priority of whoever was pinned. *)
Definition reset_previous (st : State) : M unit :=
  if isActiveParticipantPinned st
  then setVideoPriority (activeParticipant st) None
  else ret tt.

(** The requests that give back the priority of whoever is pinned. *)
Definition previous_reset (st : State) : list SdkCall :=
  if isActiveParticipantPinned st then
    match activeParticipant st with
    | Some q => priority_requests (heap st q) None
    | None => []
    end
  else [].

(** The claim as the spec words it, for the click that unpins: the
    priority asked for on P's video tracks is "standard". *)
Definition unpin_click_as_stated (P : PRef) (st : State) : Prop :=
  let st' := exec (container_click P) st in
  isActiveParticipantPinned st' = false
  /\ calls st' = calls st ++ priority_requests (heap st P) (Some "standard")
  /\ activeParticipant st'
     = selected (localParticipant (room st)) (dominantSpeaker (room st)).

(* ------------------------------------------------------------------ *)
(** ** Attaching and detaching *)

(** What [attachTrack] does to the thumbnails, and to the main video when
    it touches it. *)
Definition thumb_attached (trk : Track) (psid : string) (cs : list Container)
  : list Container :=
  jq_first psid (on_media (kind trk) (sdk_attach trk))
    (jq_each psid (on_media (kind trk) (set_opacity None)) cs).

Definition main_attached (trk : Track) (el : MediaEl) : MediaEl :=
  set_opacity None (sdk_attach trk el).

(** What [detachTrack] does when the thumbnail element exists. *)
Definition thumb_detached (trk : Track) (psid : string) (cs : list Container)
  : list Container :=
  jq_first psid (on_media (kind trk) (set_srcObject None))
    (jq_first psid (on_media (kind trk) (sdk_detach trk))
       (jq_each psid (on_media (kind trk) (set_opacity (Some "0"))) cs)).

Definition main_detached (trk : Track) (el : MediaEl) : MediaEl :=
  set_opacity (Some "0") (set_srcObject None (sdk_detach trk el)).

(** The thumbnail element of the track's kind shows the track. *)
Definition rendered_in_thumbnail (trk : Track) (psid : string) (st : State)
  : Prop :=
  exists c, jq_get0 psid (participantsDiv (page st)) = Some c
            /\ shows trk (media_el (kind trk) c)
            /\ opacity (media_el (kind trk) c) = None.

(** The claim as the spec words it, for one detach: no error and the
    same nodes as before. *)
Definition detach_is_harmless (trk : Track) (p : PRef) (st : State) : Prop :=
  result (detachTrack trk p) st = Ok tt
  /\ nodes (exec (detachTrack trk p) st) = nodes st.

(** The claim as the spec words it: thumbnail always, main surface if
    and only if the publisher is the active participant. *)
Definition attach_renders_as_stated (trk : Track) (p : PRef) (st : State)
  : Prop :=
  let st' := exec (attachTrack trk p) st in
  rendered_in_thumbnail trk (sid (heap st p)) st'
  /\ (shows trk (main_video st') <-> activeParticipant st = Some p).

(* ------------------------------------------------------------------ *)
(** ** Joining and leaving *)

(** The state in which [joinRoom] calls [setCurrentActiveParticipant]. *)
Definition before_selection (token : string) (rm : Room)
  (publication : Publication) (st : State) : State :=
  register OnParticipantDisconnected
    (register OnParticipantConnected
       (exec (forEach participantConnected (participants rm))
          (exec (participantConnected (localParticipant rm))
             (on_page (set_window_room true)
                (set_localVideoTrack (track publication)
                   (set_listeners []
                      (set_room rm
                         (log (CConnect token 3 3)
                            (log (CLoggerSetLevel "debug") st))))))))).

(** What [joinRoom] does after [setCurrentActiveParticipant]. *)
Definition after_selection (isMobile : bool) : M unit :=
  modify (register OnDominantSpeakerChanged) ;;
  setupNetworkQualityUpdates ;;
  modify (on_page bind_onLeave) ;;
  modify (on_page (set_startScreenClick true)) ;;
  modify (on_page (set_onbeforeunload (Some HDisconnect))) ;;
  (if isMobile then
     modify (on_page (set_onpagehide (Some HDisconnect))) ;;
     modify (on_page (set_onvisibilitychange (Some HVisibilityChange)))
   else ret tt) ;;
  modify (register OnceDisconnected).

(** The claim as the spec words it. *)
Definition local_video_or_hidden (loc : Participant) (st : State) : Prop :=
  match first_video_track loc with
  | Some trk => shows trk (main_video st)
  | None => opacity (main_video st) = Some "0"
  end.

Definition joined_alone_as_stated (isMobile : bool) (token : string)
  (rm : Room) (st0 : State) : Prop :=
  let st' := joinRoom isMobile token (inr rm) st0 in
  activeParticipant st' = Some (localParticipant rm)
  /\ local_video_or_hidden (heap st0 (localParticipant rm)) st'.

(** How the join promise is settled by a disconnect. *)
Definition outcome (error : option JsError) : PromiseState :=
  match error with
  | Some e => Rejected e
  | None => Resolved
  end.

(** The hooks once the handler has cleared them. *)
Definition unhooked (isMobile : bool) (st : State) : State :=
  (if isMobile
   then fun s => on_page (set_onvisibilitychange None)
                   (on_page (set_onpagehide None) s)
   else fun s => s)
    (on_page (set_onbeforeunload None) st).

(** What the spec asks of the teardown, for the room [rm] whose
    participants are described by [h] and the local video track [lt]. *)
Definition torn_down (isMobile : bool) (lt : Track) (rm : Room)
  (h : PRef -> Participant) (st' : State) : Prop :=
  In (CStop lt) (calls st')
  /\ (forall q, In q (localParticipant rm :: participants rm) ->
                no_node (sid (h q)) st')
  /\ srcObject (main_video st') = None
  /\ onbeforeunload (page st') = None
  /\ (isMobile = true ->
      onpagehide (page st') = None /\ onvisibilitychange (page st') = None).

(* ------------------------------------------------------------------ *)
(** ** Sample rooms *)

Definition camera : Track := {| track_id := 1; kind := video; has_setPriority := false |}.
Definition microphone : Track := {| track_id := 2; kind := audio; has_setPriority := false |}.
Definition remote_video (n : nat) : Track :=
  {| track_id := n; kind := video; has_setPriority := true |}.

Definition alice : Participant :=
  {| sid := "PA0"; identity := "alice";
     tracks := [ {| trackSid := "MT1"; pub_kind := video; track := Some camera |};
                 {| trackSid := "MT2"; pub_kind := audio; track := Some microphone |} ];
     videoTracks := [ {| trackSid := "MT1"; pub_kind := video; track := Some camera |} ];
     networkQualityLevel := None |}.

Definition bob : Participant :=
  {| sid := "PA1"; identity := "bob";
     tracks := [ {| trackSid := "MT3"; pub_kind := video; track := Some (remote_video 3) |} ];
     videoTracks := [ {| trackSid := "MT3"; pub_kind := video; track := Some (remote_video 3) |} ];
     networkQualityLevel := Some 4 |}.

Definition carol : Participant :=
  {| sid := "PA2"; identity := "carol";
     tracks := [ {| trackSid := "MT4"; pub_kind := video; track := Some (remote_video 4) |} ];
     videoTracks := [ {| trackSid := "MT4"; pub_kind := video; track := Some (remote_video 4) |} ];
     networkQualityLevel := None |}.

(** A local participant that publishes no video. *)
Definition audio_only : Participant :=
  {| sid := "PA0"; identity := "alice";
     tracks := [ {| trackSid := "MT2"; pub_kind := audio; track := Some microphone |} ];
     videoTracks := [];
     networkQualityLevel := None |}.

Definition people (r : PRef) : Participant :=
  match r with
  | 0 => alice
  | 1 => bob
  | 2 => carol
  | _ => blank
  end.

Definition audio_only_people (r : PRef) : Participant :=
  match r with
  | 0 => audio_only
  | _ => blank
  end.

Definition room_of (remote : list PRef) : Room :=
  {| localParticipant := 0; participants := remote;
     dominantSpeaker := None; connected := true |}.

(** Alice alone, then with Bob and Carol, after [joinRoom] on a desktop
    browser. *)
Definition alone : State := joinRoom false "token" (inr (room_of [])) (initial people).
Definition trio : State := joinRoom false "token" (inr (room_of [1; 2])) (initial people).

(** Bob has left the room of [trio]: his thumbnail is gone when his
    track is unsubscribed. *)
Definition bob_gone : State := run false [EvParticipantDisconnected 1] trio.


(** Bob's thumbnail has been clicked in [trio]; then Carol is reported
    as the dominant speaker. *)
Definition bob_pinned : State := run false [EvClick 1] trio.
Definition bob_pinned_carol_speaks : State :=
  run false [EvDominantSpeakerChanged (Some 2)] bob_pinned.

(* ------------------------------------------------------------------ *)
(** ** Highlighting of thumbnails *)

(** What marks a thumbnail: its id and its classes. *)
Definition label (c : Container) : string * list string :=
  (el_id c, classes c).

Definition labels (st : State) : list (string * list string) :=
  map label (participantsDiv (page st)).

(** The sid of the active participant, if there is one. *)
Definition active_sid (st : State) : option string :=
  option_map (fun a => sid (heap st a)) (activeParticipant st).

Definition marked (cls : string) (l : string * list string) : Prop :=
  In cls (snd l).

(** "active" and "pinned" sit on thumbnails of the active participant
    only. *)
Definition marks_on_active (st : State) : Prop :=
  forall l, In l (labels st) ->
    marked "active" l \/ marked "pinned" l -> active_sid st = Some (fst l).

(** Besides, "pinned" is shown only while the flag is up. *)
Definition highlight_ok (st : State) : Prop :=
  marks_on_active st
  /\ (forall l, In l (labels st) ->
        marked "pinned" l -> isActiveParticipantPinned st = true).

(** The thumbnails after [setActiveParticipant], from those before:
    the marks of the previous active participant are taken off, those of
    the new one put on. *)
Definition unmarked (old : option string) (cs : list Container)
  : list Container :=
  match old with
  | Some s => jq_each s (removeClass "pinned") (jq_each s (removeClass "active") cs)
  | None => cs
  end.

Definition remarked (new : string) (pinned : bool) (cs : list Container)
  : list Container :=
  (if pinned then jq_each new (addClass "pinned") else fun x => x)
    (jq_each new (addClass "active") cs).

(** The same two properties as tests. *)
Definition has_class (cls : string) (l : string * list string) : bool :=
  existsb (String.eqb cls) (snd l).

Definition on_activeb (a : option string) (l : string * list string) : bool :=
  if has_class "active" l || has_class "pinned" l
  then match a with Some s => String.eqb s (fst l) | None => false end
  else true.

Definition marks_on_activeb (st : State) : bool :=
  forallb (on_activeb (active_sid st)) (labels st).

Definition highlight_okb (st : State) : bool :=
  marks_on_activeb st
  && forallb (fun l => implb (has_class "pinned" l) (isActiveParticipantPinned st))
       (labels st).

(** What the highlighting rules look at. *)
Definition highlighting (st : State)
  : list (string * list string) * option string * bool :=
  (labels st, active_sid st, isActiveParticipantPinned st).

(** Functions on a container that leave its id and classes alone. *)
Definition keeps_label (f : Container -> Container) : Prop :=
  forall c, label (f c) = label c.

(** Updates of a participant object that leave its sid alone. *)
Definition keeps_sid (f : Participant -> Participant) : Prop :=
  forall who, sid (f who) = sid who.

(** Updates of a participant object that leave its identity alone. *)
Definition keeps_identity (f : Participant -> Participant) : Prop :=
  forall who, identity (f who) = identity who.

(** Every participant object has a plain identity, so that every
    thumbnail [setupParticipantContainer] adds is the template's. *)
Definition plain_identities (st : State) : Prop :=
  forall q, plain (identity (heap st q)) = true.

(** The highlighting is in order on a page whose participants have plain
    identities. *)
Definition tidy (st : State) : Prop :=
  plain_identities st /\ highlight_ok st.

(* ------------------------------------------------------------------ *)
(** ** Listeners of a participant *)

(** The listeners [trackPublished] registers on a publication. *)
Definition publication_listeners (p : PRef) (publication : Publication)
  : list Listener :=
  [OnSubscribed (trackSid publication) p; OnUnsubscribed (trackSid publication) p].

(** The listeners [participantConnected] registers for a participant. *)
Definition participant_listeners (h : PRef -> Participant) (p : PRef)
  : list Listener :=
  flat_map (publication_listeners p) (tracks (h p)) ++ [OnTrackPublished p].

(* ------------------------------------------------------------------ *)
(** ** Blank media elements *)

(** A media element as [setupParticipantContainer] creates it and
    [detachTrack] leaves it: hidden, with no stream. *)
Definition blank_el (el : MediaEl) : Prop :=
  opacity el = Some "0" /\ srcObject el = None.

Definition blank_elb (el : MediaEl) : bool :=
  match opacity el, srcObject el with
  | Some o, None => String.eqb o "0"
  | _, _ => false
  end.

(** Every thumbnail carrying the id [s] has its element of kind [k]
    blank. *)
Definition thumbnails_blank (k : Kind) (s : string) (st : State) : Prop :=
  forall c, In c (participantsDiv (page st)) ->
            el_id c = s -> blank_el (media_el k c).

Definition thumbnails_blankb (k : Kind) (s : string) (st : State) : bool :=
  forallb (fun c => implb (matches s c) (blank_elb (media_el k c)))
    (participantsDiv (page st)).

(* ------------------------------------------------------------------ *)
(** ** The network quality label *)

(** The text [updateNetworkQualityReport] writes for a participant. *)
Definition quality_text (who : Participant) : string :=
  ("NQ Level (" ++ identity who ++ "): " ++ level_text (networkQualityLevel who))%string.

(* ------------------------------------------------------------------ *)
(** ** What [joinRoom] sets up *)

(** The participants [joinRoom] handles, the local one first. *)
Definition everyone (rm : Room) : list PRef :=
  localParticipant rm :: participants rm.

(** The participants [ps] have plain identities. *)
Definition plain_among (h : PRef -> Participant) (ps : list PRef) : bool :=
  forallb (fun q => plain (identity (h q))) ps.

(** The listeners [joinRoom] has registered when it returns, in
    registration order. *)
Definition joined_listeners (h : PRef -> Participant) (rm : Room)
  : list Listener :=
  flat_map (participant_listeners h) (everyone rm)
  ++ [OnParticipantConnected; OnParticipantDisconnected; OnDominantSpeakerChanged]
  ++ map OnNetworkQualityLevelChanged (everyone rm)
  ++ [OnParticipantConnectedNQ; OnceDisconnected].




Definition is_once (l : Listener) : bool :=
  match l with OnceDisconnected => true | _ => false end.

Definition is_dominant (l : Listener) : bool :=
  match l with OnDominantSpeakerChanged => true | _ => false end.

(* ------------------------------------------------------------------ *)
(** ** The Leave button *)

(** The number of [onLeave] handlers bound to the Leave button: the one
    of the last join and those of earlier joins. *)
Definition leave_handlers (st : State) : nat :=
  if leaveClick (page st)
  then S (leaveClickEarlier (page st))
  else leaveClickEarlier (page st).

(** Some [onLeave] is bound to the Leave button. *)
Definition leave_bound (st : State) : bool :=
  negb (Nat.eqb (leave_handlers st) 0).

(** The track [createLocalVideoTrack] gives when the page comes back to
    the foreground. *)
Definition second_camera : Track :=
  {| track_id := 7; kind := video; has_setPriority := false |}.

(* ================================================================== *)
(** * Reasoning about handlers *)

Lemma keeps_ret {A B} (f : State -> B) (a : A) : keeps f (ret a).
Proof. intro st; reflexivity. Qed.

Lemma keeps_gets {A B} (f : State -> B) (g : State -> A) : keeps f (gets g).
Proof. intro st; reflexivity. Qed.

Lemma keeps_throw {A B} (f : State -> B) e : keeps f (@throw A e).
Proof. intro st; reflexivity. Qed.

Lemma keeps_modify {B} (f : State -> B) g :
  (forall st, f (g st) = f st) -> keeps f (modify g).
Proof. intros H st; apply H. Qed.

Lemma keeps_bind {A B C} (f : State -> C) (c : M A) (k : A -> M B) :
  keeps f c -> (forall a, keeps f (k a)) -> keeps f (bind c k).
Proof.
  intros Hc Hk st. unfold bind.
  specialize (Hc st). destruct (c st) as [[a|e] st']; cbn in *.
  - rewrite Hk. exact Hc.
  - exact Hc.
Qed.

Lemma keeps_forEach {A B} (f : State -> B) (g : A -> M unit) l :
  (forall x, keeps f (g x)) -> keeps f (forEach g l).
Proof.
  intro H. induction l as [|x l IH]; cbn [forEach].
  - apply keeps_ret.
  - apply keeps_bind; auto.
Qed.

Lemma safe_ret {A} (a : A) : safe (ret a).
Proof. intro st; exists a; reflexivity. Qed.

Lemma safe_gets {A} (g : State -> A) : safe (gets g).
Proof. intro st; exists (g st); reflexivity. Qed.

Lemma safe_modify g : safe (modify g).
Proof. intro st; exists tt; reflexivity. Qed.

Lemma safe_bind {A B} (c : M A) (k : A -> M B) :
  safe c -> (forall a, safe (k a)) -> safe (bind c k).
Proof.
  intros Hc Hk st. unfold bind.
  destruct (Hc st) as [a Ha]. destruct (c st) as [r st']; cbn in Ha; subst r.
  apply Hk.
Qed.

Lemma safe_forEach {A} (g : A -> M unit) l :
  (forall x, safe (g x)) -> safe (forEach g l).
Proof.
  intro H. induction l as [|x l IH]; cbn [forEach].
  - apply safe_ret.
  - apply safe_bind; auto.
Qed.

Lemma safe_unit (c : M unit) st : safe c -> fst (c st) = Ok tt.
Proof. intro H. destruct (H st) as [[] Ha]. exact Ha. Qed.

(** Running [c] then [k] when [c] returns. *)
Lemma bind_ok {A B} (c : M A) (k : A -> M B) st a :
  fst (c st) = Ok a -> bind c k st = k a (snd (c st)).
Proof. unfold bind. destruct (c st) as [r st']; cbn. intros ->. reflexivity. Qed.

Create HintDb js discriminated.

#[export] Hint Extern 1 (ignores_page _) => (intros ? ?; reflexivity) : js.
#[export] Hint Extern 1 (ignores_active _) => (intros ? ?; reflexivity) : js.
#[export] Hint Extern 1 (ignores_pinned _) => (intros ? ?; reflexivity) : js.
#[export] Hint Extern 1 (ignores_calls _) => (intros ? ?; reflexivity) : js.
#[export] Hint Extern 1 (ignores_listeners _) => (intros ? ?; reflexivity) : js.

Ltac step_m :=
  match goal with
  | |- keeps _ (bind _ _) => apply keeps_bind; [ | intro ]
  | |- keeps _ (ret _) => apply keeps_ret
  | |- keeps _ (gets _) => apply keeps_gets
  | |- keeps _ (throw _) => apply keeps_throw
  | |- keeps _ (modify _) =>
      apply keeps_modify; intro;
      first [ reflexivity | match goal with H : _ |- _ => apply H end ]
  | |- keeps _ (forEach _ _) => apply keeps_forEach; intro
  | |- safe (bind _ _) => apply safe_bind; [ | intro ]
  | |- safe (ret _) => apply safe_ret
  | |- safe (gets _) => apply safe_gets
  | |- safe (modify _) => apply safe_modify
  | |- safe (forEach _ _) => apply safe_forEach; intro
  | |- keeps _ _ => solve [auto with js]
  | |- safe _ => solve [auto with js]
  | |- keeps _ (match ?x with _ => _ end) => destruct x
  | |- safe (match ?x with _ => _ end) => destruct x
  end.

Ltac run_m := repeat step_m.

(** *** What each function of the module leaves alone *)

Section Frames.

Context {B : Type} (f : State -> B).

Lemma setActiveParticipant_keeps p :
  ignores_page f -> ignores_active f -> keeps f (setActiveParticipant p).
Proof. intros Hp Ha. unfold setActiveParticipant. run_m. Qed.

Lemma setCurrentActiveParticipant_keeps :
  ignores_page f -> ignores_active f -> keeps f setCurrentActiveParticipant.
Proof.
  intros Hp Ha. unfold setCurrentActiveParticipant. run_m.
  apply setActiveParticipant_keeps; assumption.
Qed.

Lemma setVideoPriority_keeps who priority :
  ignores_calls f -> keeps f (setVideoPriority who priority).
Proof. intros Hc. unfold setVideoPriority, log. run_m. Qed.

Lemma container_click_keeps p :
  ignores_page f -> ignores_active f -> ignores_pinned f -> ignores_calls f ->
  keeps f (container_click p).
Proof.
  intros Hp Ha Hi Hc. unfold container_click.
  pose proof setVideoPriority_keeps. pose proof setActiveParticipant_keeps.
  pose proof setCurrentActiveParticipant_keeps.
  run_m; auto.
Qed.

Lemma setupParticipantContainer_keeps p :
  ignores_page f -> keeps f (setupParticipantContainer p).
Proof. intros Hp. unfold setupParticipantContainer. run_m. Qed.

Lemma attachTrack_keeps trk p : ignores_page f -> keeps f (attachTrack trk p).
Proof. intros Hp. unfold attachTrack. run_m. Qed.

Lemma detachTrack_keeps trk p : ignores_page f -> keeps f (detachTrack trk p).
Proof. intros Hp. unfold detachTrack. run_m. Qed.

Lemma trackPublished_keeps publication p :
  ignores_page f -> ignores_listeners f ->
  keeps f (trackPublished publication p).
Proof.
  intros Hp Hl. unfold trackPublished, register.
  pose proof attachTrack_keeps. run_m; auto.
Qed.

Lemma participantConnected_keeps p :
  ignores_page f -> ignores_listeners f -> keeps f (participantConnected p).
Proof.
  intros Hp Hl. unfold participantConnected, register.
  pose proof setupParticipantContainer_keeps. pose proof trackPublished_keeps.
  run_m; auto.
Qed.

Lemma participantDisconnected_keeps p :
  ignores_page f -> ignores_active f -> ignores_pinned f ->
  keeps f (participantDisconnected p).
Proof.
  intros Hp Ha Hi. unfold participantDisconnected.
  pose proof setCurrentActiveParticipant_keeps. run_m; auto.
Qed.

Lemma updateNetworkQualityReport_keeps p :
  ignores_page f -> keeps f (updateNetworkQualityReport p).
Proof. intros Hp. unfold updateNetworkQualityReport. run_m. Qed.

Lemma setupNetworkQualityUpdatesForParticipant_keeps p :
  ignores_page f -> ignores_listeners f ->
  keeps f (setupNetworkQualityUpdatesForParticipant p).
Proof.
  intros Hp Hl. unfold setupNetworkQualityUpdatesForParticipant, register.
  pose proof updateNetworkQualityReport_keeps. run_m; auto.
Qed.

Lemma setupNetworkQualityUpdates_keeps :
  ignores_page f -> ignores_listeners f -> keeps f setupNetworkQualityUpdates.
Proof.
  intros Hp Hl. unfold setupNetworkQualityUpdates, register.
  pose proof setupNetworkQualityUpdatesForParticipant_keeps. run_m; auto.
Qed.

Lemma onDominantSpeakerChanged_keeps :
  ignores_page f -> ignores_active f -> keeps f onDominantSpeakerChanged.
Proof.
  intros Hp Ha. unfold onDominantSpeakerChanged.
  pose proof setCurrentActiveParticipant_keeps. run_m; auto.
Qed.

End Frames.

(** *** Functions that never throw *)

Lemma setActiveParticipant_safe p : safe (setActiveParticipant p).
Proof. unfold setActiveParticipant. run_m. Qed.

Lemma setCurrentActiveParticipant_safe : safe setCurrentActiveParticipant.
Proof.
  unfold setCurrentActiveParticipant. run_m. apply setActiveParticipant_safe.
Qed.

Lemma setVideoPriority_safe p priority : safe (setVideoPriority (Some p) priority).
Proof. unfold setVideoPriority. run_m. Qed.

Lemma setupParticipantContainer_safe p : safe (setupParticipantContainer p).
Proof. unfold setupParticipantContainer. run_m. Qed.

Lemma attachTrack_safe trk p : safe (attachTrack trk p).
Proof. unfold attachTrack. run_m. Qed.

Lemma trackPublished_safe publication p : safe (trackPublished publication p).
Proof. unfold trackPublished. pose proof attachTrack_safe. run_m; auto. Qed.

Lemma participantConnected_safe p : safe (participantConnected p).
Proof.
  unfold participantConnected.
  pose proof setupParticipantContainer_safe. pose proof trackPublished_safe.
  run_m; auto.
Qed.

Lemma participantDisconnected_safe p : safe (participantDisconnected p).
Proof.
  unfold participantDisconnected. pose proof setCurrentActiveParticipant_safe.
  run_m; auto.
Qed.

Lemma updateNetworkQualityReport_safe p : safe (updateNetworkQualityReport p).
Proof. unfold updateNetworkQualityReport. run_m. Qed.

Lemma setupNetworkQualityUpdatesForParticipant_safe p :
  safe (setupNetworkQualityUpdatesForParticipant p).
Proof.
  unfold setupNetworkQualityUpdatesForParticipant.
  pose proof updateNetworkQualityReport_safe. run_m; auto.
Qed.

Lemma setupNetworkQualityUpdates_safe : safe setupNetworkQualityUpdates.
Proof.
  unfold setupNetworkQualityUpdates.
  pose proof setupNetworkQualityUpdatesForParticipant_safe. run_m; auto.
Qed.

Lemma onDominantSpeakerChanged_safe : safe onDominantSpeakerChanged.
Proof.
  unfold onDominantSpeakerChanged. pose proof setCurrentActiveParticipant_safe.
  run_m; auto.
Qed.

(** *** The active participant after the functions that set it *)

Lemma exec_bind {A B} (c : M A) (k : A -> M B) st a :
  fst (c st) = Ok a -> exec (bind c k) st = exec (k a) (snd (c st)).
Proof. intro H. unfold exec. rewrite (bind_ok _ _ _ H). reflexivity. Qed.

Lemma result_bind {A B} (c : M A) (k : A -> M B) st a :
  fst (c st) = Ok a -> result (bind c k) st = result (k a) (snd (c st)).
Proof. intro H. unfold result. rewrite (bind_ok _ _ _ H). reflexivity. Qed.

Lemma exec_keeps {A B} (f : State -> B) (c : M A) st :
  keeps f c -> f (exec c st) = f st.
Proof. intro H. apply H. Qed.

Lemma exec_gets {A B} (g : State -> A) (k : A -> M B) st :
  exec (bind (gets g) k) st = exec (k (g st)) st.
Proof. reflexivity. Qed.

Lemma result_gets {A B} (g : State -> A) (k : A -> M B) st :
  result (bind (gets g) k) st = result (k (g st)) st.
Proof. reflexivity. Qed.

Lemma exec_modify {B} g (k : unit -> M B) st :
  exec (bind (modify g) k) st = exec (k tt) (g st).
Proof. reflexivity. Qed.

Lemma result_modify {B} g (k : unit -> M B) st :
  result (bind (modify g) k) st = result (k tt) (g st).
Proof. reflexivity. Qed.

Lemma exec_safe {B} (c : M unit) (k : unit -> M B) st :
  safe c -> exec (bind c k) st = exec (k tt) (exec c st).
Proof. intro H. apply exec_bind. apply safe_unit, H. Qed.

Lemma result_safe {B} (c : M unit) (k : unit -> M B) st :
  safe c -> result (bind c k) st = result (k tt) (exec c st).
Proof. intro H. apply result_bind. apply safe_unit, H. Qed.

Lemma setActiveParticipant_active p st :
  activeParticipant (exec (setActiveParticipant p) st) = Some p.
Proof.
  unfold setActiveParticipant. rewrite exec_gets.
  rewrite exec_safe by (destruct (activeParticipant st); run_m).
  rewrite exec_modify.
  rewrite exec_keeps; [reflexivity|]. run_m.
Qed.

Lemma setCurrentActiveParticipant_active st :
  activeParticipant (exec setCurrentActiveParticipant st)
  = Some (speaker_or_local (room st)).
Proof.
  unfold setCurrentActiveParticipant. rewrite exec_gets.
  apply setActiveParticipant_active.
Qed.

Lemma onDominantSpeakerChanged_active st :
  isActiveParticipantPinned st = false ->
  activeParticipant (exec onDominantSpeakerChanged st)
  = Some (speaker_or_local (room st)).
Proof.
  intro H. unfold onDominantSpeakerChanged. rewrite exec_gets, H.
  apply setCurrentActiveParticipant_active.
Qed.

Lemma onDominantSpeakerChanged_pinned_noop st :
  isActiveParticipantPinned st = true ->
  exec onDominantSpeakerChanged st = st.
Proof.
  intro H. unfold onDominantSpeakerChanged. rewrite exec_gets, H.
  reflexivity.
Qed.

Lemma preserves_ret {A} P (a : A) : preserves P (ret a).
Proof. intros st H; exact H. Qed.

Lemma preserves_gets {A} P (g : State -> A) : preserves P (gets g).
Proof. intros st H; exact H. Qed.

Lemma preserves_throw {A} P e : preserves P (@throw A e).
Proof. intros st H; exact H. Qed.

Lemma preserves_modify P g :
  (forall st, P st -> P (g st)) -> preserves P (modify g).
Proof. intros H st; apply H. Qed.

Lemma preserves_bind {A B} P (c : M A) (k : A -> M B) :
  preserves P c -> (forall a, preserves P (k a)) -> preserves P (bind c k).
Proof.
  intros Hc Hk st HP. unfold bind.
  specialize (Hc st HP). destruct (c st) as [[a|e] st']; cbn in *.
  - apply Hk, Hc.
  - exact Hc.
Qed.

Lemma preserves_forEach {A} P (g : A -> M unit) l :
  (forall x, preserves P (g x)) -> preserves P (forEach g l).
Proof.
  intro H. induction l as [|x l IH]; cbn [forEach].
  - apply preserves_ret.
  - apply preserves_bind; auto.
Qed.

Lemma keeps_preserves {A B} (f : State -> B) (P : B -> Prop) (c : M A) :
  keeps f c -> preserves (fun st => P (f st)) c.
Proof. intros H st HP. rewrite H. exact HP. Qed.

Lemma register_listening l l' st : listening l st -> listening l (register l' st).
Proof. unfold listening, register. cbn. intro. apply in_or_app. auto. Qed.

Lemma register_listening_new l st : listening l (register l st).
Proof. unfold listening, register. cbn. apply in_or_app. cbn. auto. Qed.

Lemma setupNetworkQualityUpdates_listening l :
  preserves (listening l) setupNetworkQualityUpdates.
Proof.
  unfold setupNetworkQualityUpdates, setupNetworkQualityUpdatesForParticipant.
  assert (Hu : forall p, preserves (listening l) (updateNetworkQualityReport p)).
  { intro p. apply (keeps_preserves (f := listeners) (fun ls => In l ls)).
    apply updateNetworkQualityReport_keeps. auto with js. }
  assert (Hr : forall l', preserves (listening l) (modify (register l'))).
  { intro l'. apply preserves_modify. intro. apply register_listening. }
  repeat first [ apply Hu | apply Hr
               | apply preserves_bind; [ | intro ]
               | apply preserves_gets
               | apply preserves_forEach; intro; cbv beta ].
Qed.

#[export] Hint Resolve setActiveParticipant_safe setCurrentActiveParticipant_safe
  setVideoPriority_safe setupParticipantContainer_safe attachTrack_safe
  trackPublished_safe participantConnected_safe participantDisconnected_safe
  updateNetworkQualityReport_safe setupNetworkQualityUpdatesForParticipant_safe
  setupNetworkQualityUpdates_safe onDominantSpeakerChanged_safe : js.

(* ------------------------------------------------------------------ *)
(** ** Delivery of [dominantSpeakerChanged] *)

Section Delivery.

Variable isMobile : bool.

Lemma deliver_dominantSpeakerChanged l :
  deliver isMobile dominantSpeakerChanged_ l
  = match l with
    | OnDominantSpeakerChanged => ret tt ;; onDominantSpeakerChanged
    | _ => ret tt
    end.
Proof. destruct l; reflexivity. Qed.

Lemma deliver_dominantSpeakerChanged_safe l :
  safe (deliver isMobile dominantSpeakerChanged_ l).
Proof. rewrite deliver_dominantSpeakerChanged. destruct l; run_m. Qed.

Lemma deliver_dominantSpeakerChanged_keeps {B} (f : State -> B) l :
  ignores_page f -> ignores_active f ->
  keeps f (deliver isMobile dominantSpeakerChanged_ l).
Proof.
  intros Hp Ha. rewrite deliver_dominantSpeakerChanged.
  pose proof (onDominantSpeakerChanged_keeps Hp Ha). destruct l; run_m.
Qed.

(** With the pin flag down, one listener is enough to make the active
    participant follow the room. *)
Lemma dominantSpeakerChanged_unpinned ls : forall st,
  isActiveParticipantPinned st = false ->
  activeParticipant st = Some (speaker_or_local (room st))
  \/ In OnDominantSpeakerChanged ls ->
  activeParticipant (exec (forEach (deliver isMobile dominantSpeakerChanged_) ls) st)
  = Some (speaker_or_local (room st)).
Proof.
  induction ls as [|l ls IH]; intros st Hpin Hcase.
  - destruct Hcase as [H|[]]. exact H.
  - cbn [forEach].
    rewrite exec_safe by apply deliver_dominantSpeakerChanged_safe.
    set (st1 := exec (deliver isMobile dominantSpeakerChanged_ l) st).
    assert (Hroom : room st1 = room st).
    { apply (deliver_dominantSpeakerChanged_keeps (f := room)); auto with js. }
    assert (Hpin1 : isActiveParticipantPinned st1 = false).
    { unfold st1. rewrite exec_keeps; [exact Hpin|].
      apply deliver_dominantSpeakerChanged_keeps; auto with js. }
    rewrite <- Hroom. apply IH; [exact Hpin1|].
    rewrite Hroom. unfold st1. rewrite deliver_dominantSpeakerChanged.
    destruct l;
      try (destruct Hcase as [H|[H|H]];
           [left; exact H | discriminate H | right; exact H]).
    left. rewrite exec_safe by apply safe_ret.
    apply onDominantSpeakerChanged_active. exact Hpin.
Qed.

Lemma emit_dominantSpeakerChanged_keeps {B} (f : State -> B) :
  ignores_page f -> ignores_active f ->
  keeps f (emit isMobile dominantSpeakerChanged_).
Proof.
  intros Hp Ha. unfold emit. run_m.
  apply deliver_dominantSpeakerChanged_keeps; assumption.
Qed.

(** One [dominantSpeakerChanged] notification while nobody is pinned. *)
Lemma step_dominantSpeakerChanged_unpinned d st :
  isActiveParticipantPinned st = false ->
  listening OnDominantSpeakerChanged st ->
  let st' := exec (step isMobile (EvDominantSpeakerChanged d)) st in
  activeParticipant st' = Some (speaker_or_local (room st'))
  /\ isActiveParticipantPinned st' = false
  /\ listening OnDominantSpeakerChanged st'
  /\ dominantSpeaker (room st') = d
  /\ localParticipant (room st') = localParticipant (room st).
Proof.
  intros Hpin Hl. cbn zeta. unfold step. rewrite exec_modify.
  set (st1 := on_room (set_dominantSpeaker d) st).
  assert (Hk : forall B (f : State -> B), ignores_page f -> ignores_active f ->
               f (exec (emit isMobile dominantSpeakerChanged_) st1) = f st1).
  { intros B f Hp Ha. apply exec_keeps, emit_dominantSpeakerChanged_keeps; auto. }
  rewrite (Hk _ room), (Hk _ isActiveParticipantPinned) by auto with js.
  unfold listening. rewrite (Hk _ listeners) by auto with js.
  repeat split; try assumption.
  unfold emit. rewrite exec_gets.
  apply dominantSpeakerChanged_unpinned; [exact Hpin | right; exact Hl].
Qed.

End Delivery.

(* ------------------------------------------------------------------ *)
(** ** [joinRoom] when [connect] succeeds and a local video publication
       exists *)

Section Join.

Variable isMobile : bool.

Lemma after_selection_safe : safe (after_selection isMobile).
Proof. unfold after_selection. run_m. Qed.

Lemma after_selection_keeps {B} (f : State -> B) :
  ignores_page f -> ignores_listeners f -> keeps f (after_selection isMobile).
Proof.
  intros Hp Hl. unfold after_selection, register.
  pose proof (setupNetworkQualityUpdates_keeps Hp Hl). run_m.
Qed.

Lemma joinRoom_body_exec token rm st publication vts :
  videoTracks (heap st (localParticipant rm)) = publication :: vts ->
  exec (joinRoom_body isMobile token (inr rm)) st
  = exec (after_selection isMobile)
      (exec setCurrentActiveParticipant
         (before_selection token rm publication st)).
Proof.
  intro Hv. unfold joinRoom_body.
  rewrite !exec_modify. rewrite exec_gets.
  cbn [heap set_listeners set_room log set_calls].
  rewrite Hv. rewrite !exec_modify.
  rewrite exec_safe by auto with js.
  rewrite exec_safe by (apply safe_forEach; auto with js).
  rewrite !exec_modify.
  rewrite exec_safe by auto with js.
  reflexivity.
Qed.

Lemma joinRoom_body_result token rm st publication vts :
  videoTracks (heap st (localParticipant rm)) = publication :: vts ->
  result (joinRoom_body isMobile token (inr rm)) st = Ok tt.
Proof.
  intro Hv. unfold joinRoom_body.
  rewrite !result_modify. rewrite result_gets.
  cbn [heap set_listeners set_room log set_calls].
  rewrite Hv. rewrite !result_modify.
  rewrite result_safe by auto with js.
  rewrite result_safe by (apply safe_forEach; auto with js).
  rewrite !result_modify.
  rewrite result_safe by auto with js.
  apply (safe_unit _ after_selection_safe).
Qed.

Lemma before_selection_keeps {B} (f : State -> B) token rm publication st :
  ignores_page f -> ignores_listeners f ->
  f (before_selection token rm publication st)
  = f (set_localVideoTrack (track publication)
         (set_room rm (log (CConnect token 3 3)
                         (log (CLoggerSetLevel "debug") st)))).
Proof.
  intros Hp Hl. unfold before_selection, register.
  rewrite !Hl.
  rewrite exec_keeps
    by (apply keeps_forEach; intro; apply participantConnected_keeps; auto).
  rewrite exec_keeps by (apply participantConnected_keeps; auto).
  unfold on_page. rewrite Hp.
  exact (Hl [] (set_localVideoTrack (track publication)
                  (set_room rm (log (CConnect token 3 3)
                                  (log (CLoggerSetLevel "debug") st))))).
Qed.

(** The state [joinRoom] leaves. *)
Lemma joinRoom_exec token rm st publication vts :
  videoTracks (heap st (localParticipant rm)) = publication :: vts ->
  joinRoom isMobile token (inr rm) st
  = set_joinPromise Pending
      (exec (after_selection isMobile)
         (exec setCurrentActiveParticipant
            (before_selection token rm publication st))).
Proof.
  intro Hv. unfold joinRoom.
  pose proof (joinRoom_body_result token rm st Hv) as Hr.
  pose proof (joinRoom_body_exec token rm st Hv) as He.
  unfold result, exec in Hr, He.
  destruct (joinRoom_body isMobile token (inr rm) st) as [r st'].
  cbn [fst snd] in Hr, He. subst r. rewrite He. reflexivity.
Qed.

Lemma joinRoom_active token rm st publication vts :
  videoTracks (heap st (localParticipant rm)) = publication :: vts ->
  let st' := joinRoom isMobile token (inr rm) st in
  activeParticipant st' = Some (speaker_or_local rm)
  /\ room st' = rm
  /\ isActiveParticipantPinned st' = isActiveParticipantPinned st
  /\ listening OnDominantSpeakerChanged st'.
Proof.
  intro Hv. cbn zeta. rewrite (joinRoom_exec token rm st Hv).
  set (st0 := before_selection token rm publication st).
  assert (Hroom : room st0 = rm) by (apply before_selection_keeps; auto with js).
  assert (Hpin : isActiveParticipantPinned st0 = isActiveParticipantPinned st)
    by (apply before_selection_keeps; auto with js).
  repeat split.
  - cbn [activeParticipant set_joinPromise].
    rewrite exec_keeps by (apply after_selection_keeps; auto with js).
    rewrite setCurrentActiveParticipant_active, Hroom. reflexivity.
  - cbn [room set_joinPromise].
    rewrite exec_keeps by (apply after_selection_keeps; auto with js).
    rewrite exec_keeps by (apply setCurrentActiveParticipant_keeps; auto with js).
    exact Hroom.
  - cbn [isActiveParticipantPinned set_joinPromise].
    rewrite exec_keeps by (apply after_selection_keeps; auto with js).
    rewrite exec_keeps by (apply setCurrentActiveParticipant_keeps; auto with js).
    exact Hpin.
  - unfold listening. cbn [listeners set_joinPromise].
    unfold after_selection. rewrite exec_modify.
    assert (Hrest : forall c : M unit,
               preserves (listening OnDominantSpeakerChanged) c ->
               forall s, listening OnDominantSpeakerChanged s ->
                         listening OnDominantSpeakerChanged (exec c s))
      by (intros c Hc s Hs; apply Hc, Hs).
    apply Hrest; [|apply register_listening_new].
    assert (Hr : forall l', preserves (listening OnDominantSpeakerChanged)
                              (modify (register l'))).
    { intro l'. apply preserves_modify. intro. apply register_listening. }
    assert (Hpg : forall g, preserves (listening OnDominantSpeakerChanged)
                              (modify (on_page g))).
    { intro g. apply preserves_modify. intros s Hs. exact Hs. }
    repeat first [ apply Hr | apply Hpg | apply setupNetworkQualityUpdates_listening
                 | apply preserves_ret
                 | apply preserves_bind; [ | intro ]
                 | match goal with |- preserves _ (if ?b then _ else _) => destruct b end ].
Qed.

End Join.

(* ================================================================== *)
(** * Properties of the room view *)

(* ------------------------------------------------------------------ *)
(** ** The dominant-speaker rule *)

Lemma trace_dominant_unpinned isMobile loc ds : forall st,
  isActiveParticipantPinned st = false ->
  listening OnDominantSpeakerChanged st ->
  localParticipant (room st) = loc ->
  map activeParticipant (trace isMobile (map EvDominantSpeakerChanged ds) st)
  = map (selected loc) ds.
Proof.
  induction ds as [|d ds IH]; intros st Hpin Hl Hloc; [reflexivity|].
  cbn [map trace].
  destruct (step_dominantSpeakerChanged_unpinned isMobile d st Hpin Hl)
    as (Ha & Hpin' & Hl' & Hd & Hloc').
  f_equal.
  - rewrite Ha. unfold speaker_or_local, selected.
    rewrite Hd, Hloc', Hloc. reflexivity.
  - apply IH; [exact Hpin' | exact Hl' | congruence].
Qed.

(** C1. While nobody is pinned, the active participant is the room's
    dominant speaker when there is one and the local participant
    otherwise.  [joinRoom] selects it that way once it has read the local
    video publication, and installs the listener; with the listener
    installed and the flag down, the same holds after every
    [dominantSpeakerChanged] notification of any sequence. *)
Theorem C1_unpinned_active_is_dominant_speaker_or_local :
  forall isMobile,
    (forall token rm st0,
        videoTracks (heap st0 (localParticipant rm)) <> [] ->
        let st1 := joinRoom isMobile token (inr rm) st0 in
        activeParticipant st1 = selected (localParticipant rm) (dominantSpeaker rm)
        /\ room st1 = rm
        /\ isActiveParticipantPinned st1 = isActiveParticipantPinned st0
        /\ listening OnDominantSpeakerChanged st1)
    /\ (forall st ds,
          isActiveParticipantPinned st = false ->
          listening OnDominantSpeakerChanged st ->
          map activeParticipant (trace isMobile (map EvDominantSpeakerChanged ds) st)
          = map (selected (localParticipant (room st))) ds).
Proof.
  intro isMobile. split.
  - intros token rm st0 Hv. cbn zeta.
    destruct (videoTracks (heap st0 (localParticipant rm)))
      as [|publication vts] eqn:Hvt; [congruence|].
    exact (@joinRoom_active isMobile token rm st0 publication vts Hvt).
  - intros st ds Hpin Hl. apply trace_dominant_unpinned; auto.
Qed.

Lemma C1_witness :
  videoTracks (heap (initial people) (localParticipant (room_of [1; 2]))) <> []
  /\ isActiveParticipantPinned trio = false
  /\ listening OnDominantSpeakerChanged trio
  /\ activeParticipant trio = Some 0
  /\ map activeParticipant
       (trace false (map EvDominantSpeakerChanged [Some 1; None; Some 2]) trio)
     = [Some 1; Some 0; Some 2].
Proof.
  assert (Hv : videoTracks (heap (initial people) (localParticipant (room_of [1; 2])))
               <> []) by discriminate.
  destruct (C1_unpinned_active_is_dominant_speaker_or_local false) as [Hjoin Hseq].
  destruct (Hjoin "token" (room_of [1; 2]) (initial people) Hv)
    as (Ha & _ & Hp & Hl).
  split; [exact Hv|]. split; [exact Hp|]. split; [exact Hl|].
  split; [exact Ha|].
  exact (Hseq trio [Some 1; None; Some 2] Hp Hl).
Defined.

(* ------------------------------------------------------------------ *)
(** ** Priority requests and the click listener *)

Lemma setVideoPriority_calls p priority st :
  calls (exec (setVideoPriority (Some p) priority) st)
  = calls st ++ priority_requests (heap st p) priority.
Proof.
  unfold setVideoPriority, priority_requests, priority_tracks.
  rewrite exec_gets.
  generalize (videoTracks (heap st p)) as pubs. intro pubs. revert st.
  induction pubs as [|publication pubs IH]; intro st; cbn [forEach flat_map map].
  - symmetry. apply app_nil_r.
  - destruct (track publication) as [trk|].
    + destruct (has_setPriority trk).
      * rewrite exec_modify, IH. unfold log. cbn [calls set_calls app map].
        rewrite <- app_assoc. reflexivity.
      * rewrite exec_safe by apply safe_ret. apply IH.
    + rewrite exec_safe by apply safe_ret. apply IH.
Qed.

Lemma container_click_unpin p st :
  activeParticipant st = Some p ->
  isActiveParticipantPinned st = true ->
  result (container_click p) st = Ok tt
  /\ exec (container_click p) st
     = exec setCurrentActiveParticipant
         (set_isActiveParticipantPinned false
            (exec (setVideoPriority (Some p) None) st)).
Proof.
  intros Ha Hp. unfold container_click.
  rewrite !result_gets, !exec_gets. rewrite Ha, Hp.
  cbn [ref_is]. rewrite Nat.eqb_refl. cbn [andb].
  rewrite result_safe, exec_safe by auto with js.
  rewrite result_modify, exec_modify.
  split; [|reflexivity].
  apply (safe_unit _ setCurrentActiveParticipant_safe).
Qed.

Lemma reset_previous_safe st :
  (isActiveParticipantPinned st = true -> activeParticipant st <> None) ->
  safe (reset_previous st).
Proof.
  intro H. unfold reset_previous.
  destruct (isActiveParticipantPinned st); [|apply safe_ret].
  destruct (activeParticipant st) as [a|]; [auto with js|].
  exfalso. apply H; reflexivity.
Qed.

Lemma container_click_pin p st :
  ref_is (activeParticipant st) p && isActiveParticipantPinned st = false ->
  (isActiveParticipantPinned st = true -> activeParticipant st <> None) ->
  result (container_click p) st = Ok tt
  /\ exec (container_click p) st
     = exec (setActiveParticipant p)
         (set_isActiveParticipantPinned true
            (exec (setVideoPriority (Some p) (Some "high"))
               (exec (reset_previous st) st))).
Proof.
  intros Hc Hinv. unfold container_click.
  rewrite !result_gets, !exec_gets. rewrite Hc.
  fold (reset_previous st).
  rewrite result_safe, exec_safe by (apply reset_previous_safe, Hinv).
  rewrite result_safe, exec_safe by auto with js.
  rewrite result_modify, exec_modify.
  split; [|reflexivity].
  apply (safe_unit _ (setActiveParticipant_safe p)).
Qed.

Lemma participantDisconnected_exec p st :
  exec (participantDisconnected p) st
  = let st1 := if ref_is (activeParticipant st) p && isActiveParticipantPinned st
               then exec setCurrentActiveParticipant
                      (set_isActiveParticipantPinned false st)
               else st in
    on_participantsDiv (jq_remove (sid (heap st1 p))) st1.
Proof.
  unfold participantDisconnected. rewrite !exec_gets.
  destruct (ref_is (activeParticipant st) p && isActiveParticipantPinned st).
  - rewrite exec_safe by run_m. rewrite exec_modify.
    rewrite exec_gets. reflexivity.
  - rewrite exec_safe by apply safe_ret. reflexivity.
Qed.

(* ------------------------------------------------------------------ *)
(** ** The pin *)

Lemma pin_agrees_nonnull st pin :
  pin_agrees st pin ->
  isActiveParticipantPinned st = true -> activeParticipant st <> None.
Proof.
  destruct pin as [p|]; cbn; [intros [_ ->] _; discriminate|congruence].
Qed.

Lemma pin_agrees_test st pin p :
  pin_agrees st pin ->
  ref_is (activeParticipant st) p && isActiveParticipantPinned st = ref_is pin p.
Proof.
  destruct pin as [q|]; cbn [pin_agrees].
  - intros [-> ->]. apply andb_true_r.
  - intros ->. apply andb_false_r.
Qed.

Lemma handle_pin g st pin :
  pin_agrees st pin ->
  result (handle g) st = Ok tt
  /\ pin_agrees (exec (handle g) st) (pinned_after g pin).
Proof.
  intro Hag. pose proof (pin_agrees_test st pin) as Htest.
  destruct g as [p|p|d]; cbn [handle pinned_after].
  - (* click *)
    specialize (Htest p Hag). destruct (ref_is pin p) eqn:Hr.
    + destruct pin as [q|]; [|discriminate].
      cbn [ref_is] in Hr. apply Nat.eqb_eq in Hr. subst q.
      destruct Hag as [Hp Ha].
      destruct (@container_click_unpin p st Ha Hp) as [Hres ->].
      split; [exact Hres|]. cbn [pin_agrees].
      rewrite exec_keeps by (apply setCurrentActiveParticipant_keeps; auto with js).
      reflexivity.
    + destruct (@container_click_pin p st Htest (@pin_agrees_nonnull st pin Hag))
        as [Hres ->].
      split; [exact Hres|]. cbn [pin_agrees]. split.
      * rewrite exec_keeps by (apply setActiveParticipant_keeps; auto with js).
        reflexivity.
      * apply setActiveParticipant_active.
  - (* disconnect *)
    split; [apply (safe_unit _ (participantDisconnected_safe p))|].
    rewrite participantDisconnected_exec. specialize (Htest p Hag).
    rewrite Htest. destruct (ref_is pin p); cbn zeta.
    + cbn [pin_agrees on_participantsDiv on_page set_page isActiveParticipantPinned].
      rewrite exec_keeps by (apply setCurrentActiveParticipant_keeps; auto with js).
      reflexivity.
    + destruct pin as [q|]; exact Hag.
  - (* dominant speaker *)
    split.
    + rewrite result_modify. apply (safe_unit _ onDominantSpeakerChanged_safe).
    + rewrite exec_modify. destruct pin as [q|]; cbn [pin_agrees] in *.
      * destruct Hag as [Hp Ha].
        rewrite onDominantSpeakerChanged_pinned_noop by exact Hp.
        split; assumption.
      * rewrite exec_keeps by (apply onDominantSpeakerChanged_keeps; auto with js).
        exact Hag.
Qed.

(** C2. The pin invariant is kept by the click, participant-disconnect
    and dominant-speaker handlers: whenever the flag is up,
    [activeParticipant] is the pinned participant (so it is not null);
    no handler throws; and a raised flag is lowered exactly by a click on
    the pinned participant or by that participant's disconnect. *)
Theorem C2_pin_invariant_preserved :
  forall g st pin,
    pin_agrees st pin ->
    let st' := exec (handle g) st in
    result (handle g) st = Ok tt
    /\ pin_agrees st' (pinned_after g pin)
    /\ (isActiveParticipantPinned st' = true -> activeParticipant st' <> None)
    /\ (forall p, pin = Some p ->
          (isActiveParticipantPinned st' = false
           <-> g = Click p \/ g = Disconnect p)).
Proof.
  intros g st pin Hag. cbn zeta.
  destruct (@handle_pin g st pin Hag) as [Hres Hag'].
  split; [exact Hres|]. split; [exact Hag'|]. split.
  - exact (@pin_agrees_nonnull _ _ Hag').
  - intros p ->. revert Hag'. generalize (exec (handle g) st) as st'. intro st'.
    destruct g as [q|q|d]; cbn [pinned_after ref_is].
    + destruct (Nat.eqb_spec p q) as [->|Hne]; cbn [pin_agrees].
      * intro H. split; [auto|intros _; exact H].
      * intros [H _]. split; [congruence|].
        intros [E|E]; [injection E as E; congruence|discriminate E].
    + destruct (Nat.eqb_spec p q) as [->|Hne]; cbn [pin_agrees].
      * intro H. split; [auto|intros _; exact H].
      * intros [H _]. split; [congruence|].
        intros [E|E]; [discriminate E|injection E as E; congruence].
    + cbn [pin_agrees]. intros [H _]. split; [congruence|].
      intros [E|E]; discriminate E.
Qed.

Lemma C2_witness :
  pin_agrees (exec (handle (Click 1)) trio) (Some 1)
  /\ let st' := exec (handle (Disconnect 1)) (exec (handle (Click 1)) trio) in
     result (handle (Disconnect 1)) (exec (handle (Click 1)) trio) = Ok tt
     /\ pin_agrees st' None
     /\ (isActiveParticipantPinned st' = true -> activeParticipant st' <> None)
     /\ (forall p, Some 1 = Some p ->
           (isActiveParticipantPinned st' = false
            <-> Disconnect 1 = Click p \/ Disconnect 1 = Disconnect p)).
Proof.
  split; [split; reflexivity|].
  exact (@C2_pin_invariant_preserved (Disconnect 1)
           (exec (handle (Click 1)) trio) (Some 1) (conj eq_refl eq_refl)).
Defined.

(** While somebody is pinned, [dominantSpeakerChanged] only updates the
    room. *)
Lemma dominantSpeakerChanged_pinned isMobile ls : forall st,
  isActiveParticipantPinned st = true ->
  exec (forEach (deliver isMobile dominantSpeakerChanged_) ls) st = st.
Proof.
  induction ls as [|l ls IH]; intros st Hp; [reflexivity|].
  cbn [forEach].
  rewrite exec_safe by apply deliver_dominantSpeakerChanged_safe.
  assert (Hl : exec (deliver isMobile dominantSpeakerChanged_ l) st = st).
  { rewrite deliver_dominantSpeakerChanged. destruct l; try reflexivity.
    rewrite exec_safe by apply safe_ret.
    apply onDominantSpeakerChanged_pinned_noop, Hp. }
  rewrite Hl. apply IH, Hp.
Qed.

Lemma step_dominantSpeakerChanged_pinned isMobile d st :
  isActiveParticipantPinned st = true ->
  exec (step isMobile (EvDominantSpeakerChanged d)) st
  = on_room (set_dominantSpeaker d) st.
Proof.
  intro Hp. unfold step. rewrite exec_modify. unfold emit. rewrite exec_gets.
  apply dominantSpeakerChanged_pinned. exact Hp.
Qed.

Lemma trace_dominant_pinned isMobile P ds : forall st,
  activeParticipant st = Some P ->
  isActiveParticipantPinned st = true ->
  Forall (fun s => activeParticipant s = Some P
                   /\ isActiveParticipantPinned s = true)
    (trace isMobile (map EvDominantSpeakerChanged ds) st)
  /\ activeParticipant (run isMobile (map EvDominantSpeakerChanged ds) st) = Some P
  /\ isActiveParticipantPinned (run isMobile (map EvDominantSpeakerChanged ds) st)
     = true.
Proof.
  induction ds as [|d ds IH]; intros st Ha Hp.
  - cbn. auto.
  - cbn [map trace run fold_left].
    rewrite step_dominantSpeakerChanged_pinned by exact Hp.
    destruct (IH (on_room (set_dominantSpeaker d) st) Ha Hp) as (Hall & Ha' & Hp').
    split; [constructor; [split; assumption | exact Hall]|].
    split; assumption.
Qed.

(** C3. Once a click has pinned P, [activeParticipant] stays P and the
    flag stays up through any number of [dominantSpeakerChanged]
    notifications; a click on P's thumbnail, or P's disconnect, then
    lowers the flag and hands the choice back to the dominant-speaker
    rule. *)
Theorem C3_pinned_participant_stays_active :
  forall isMobile P st ds,
    ref_is (activeParticipant st) P && isActiveParticipantPinned st = false ->
    (isActiveParticipantPinned st = true -> activeParticipant st <> None) ->
    let st1 := exec (container_click P) st in
    let st2 := run isMobile (map EvDominantSpeakerChanged ds) st1 in
    Forall (fun s => activeParticipant s = Some P
                     /\ isActiveParticipantPinned s = true)
      (st1 :: trace isMobile (map EvDominantSpeakerChanged ds) st1)
    /\ (isActiveParticipantPinned (exec (container_click P) st2) = false
        /\ activeParticipant (exec (container_click P) st2)
           = Some (speaker_or_local (room st2)))
    /\ (isActiveParticipantPinned (exec (participantDisconnected P) st2) = false
        /\ activeParticipant (exec (participantDisconnected P) st2)
           = Some (speaker_or_local (room st2))).
Proof.
  intros isMobile P st ds Hc Hinv. cbn zeta.
  destruct (@container_click_pin P st Hc Hinv) as [_ Hex].
  set (st1 := exec (container_click P) st) in *.
  assert (Ha1 : activeParticipant st1 = Some P).
  { rewrite Hex. apply setActiveParticipant_active. }
  assert (Hp1 : isActiveParticipantPinned st1 = true).
  { rewrite Hex.
    rewrite exec_keeps by (apply setActiveParticipant_keeps; auto with js).
    reflexivity. }
  destruct (@trace_dominant_pinned isMobile P ds st1 Ha1 Hp1) as (Hall & Ha2 & Hp2).
  set (st2 := run isMobile (map EvDominantSpeakerChanged ds) st1) in *.
  split; [constructor; [split; assumption | exact Hall]|].
  split.
  - destruct (@container_click_unpin P st2 Ha2 Hp2) as [_ ->].
    rewrite setCurrentActiveParticipant_active.
    rewrite exec_keeps by (apply setCurrentActiveParticipant_keeps; auto with js).
    split; [reflexivity|]. cbn [room set_isActiveParticipantPinned].
    rewrite exec_keeps by (apply setVideoPriority_keeps; auto with js).
    reflexivity.
  - rewrite participantDisconnected_exec. rewrite Ha2, Hp2.
    cbn [ref_is]. rewrite Nat.eqb_refl. cbn [andb]. cbn zeta.
    cbn [on_participantsDiv on_page set_page isActiveParticipantPinned
           activeParticipant].
    rewrite setCurrentActiveParticipant_active.
    rewrite exec_keeps by (apply setCurrentActiveParticipant_keeps; auto with js).
    split; reflexivity.
Qed.

Lemma C3_witness :
  (ref_is (activeParticipant trio) 1 && isActiveParticipantPinned trio = false)
  /\ (isActiveParticipantPinned trio = true -> activeParticipant trio <> None)
  /\ let st1 := exec (container_click 1) trio in
     let st2 := run false (map EvDominantSpeakerChanged [Some 2; None; Some 0]) st1 in
     Forall (fun s => activeParticipant s = Some 1
                      /\ isActiveParticipantPinned s = true)
       (st1 :: trace false (map EvDominantSpeakerChanged [Some 2; None; Some 0]) st1)
     /\ (isActiveParticipantPinned (exec (container_click 1) st2) = false
         /\ activeParticipant (exec (container_click 1) st2)
            = Some (speaker_or_local (room st2)))
     /\ (isActiveParticipantPinned (exec (participantDisconnected 1) st2) = false
         /\ activeParticipant (exec (participantDisconnected 1) st2)
            = Some (speaker_or_local (room st2))).
Proof.
  split; [vm_compute; reflexivity|]. split; [vm_compute; discriminate|].
  apply (@C3_pinned_participant_stays_active false 1 trio [Some 2; None; Some 0]).
  - vm_compute; reflexivity.
  - vm_compute; discriminate.
Defined.

(* ------------------------------------------------------------------ *)
(** ** Attaching and detaching *)

Lemma on_media_keeps_id k g : keeps_id (on_media k g).
Proof. intro c. destruct k; reflexivity. Qed.

Lemma matches_keeps_id f s c : keeps_id f -> matches s (f c) = matches s c.
Proof. intro H. unfold matches. rewrite H. reflexivity. Qed.

Lemma jq_each_ids s f cs : keeps_id f -> map el_id (jq_each s f cs) = map el_id cs.
Proof.
  intro H. unfold jq_each. rewrite map_map. apply map_ext.
  intro c. destruct (matches s c); [apply H | reflexivity].
Qed.

Lemma jq_first_ids s f cs : keeps_id f -> map el_id (jq_first s f cs) = map el_id cs.
Proof.
  intro H. induction cs as [|c cs IH]; [reflexivity|].
  cbn [jq_first]. destruct (matches s c); cbn [map].
  - rewrite H. reflexivity.
  - rewrite IH. reflexivity.
Qed.

Lemma jq_each_each s f g cs :
  keeps_id g -> jq_each s f (jq_each s g cs) = jq_each s (fun c => f (g c)) cs.
Proof.
  intro H. unfold jq_each. rewrite map_map. apply map_ext.
  intro c. destruct (matches s c) eqn:E.
  - rewrite (matches_keeps_id s c H), E. reflexivity.
  - rewrite E. reflexivity.
Qed.

Lemma jq_first_first s f g cs :
  keeps_id g -> jq_first s f (jq_first s g cs) = jq_first s (fun c => f (g c)) cs.
Proof.
  intro H. induction cs as [|c cs IH]; [reflexivity|].
  cbn [jq_first]. destruct (matches s c) eqn:E; cbn [jq_first].
  - rewrite (matches_keeps_id s c H), E. reflexivity.
  - rewrite E, IH. reflexivity.
Qed.

Lemma jq_each_first s f g cs :
  keeps_id f -> keeps_id g -> (forall c, f (g c) = g (f c)) ->
  jq_each s f (jq_first s g cs) = jq_first s g (jq_each s f cs).
Proof.
  intros Hf Hg Hc. induction cs as [|c cs IH]; [reflexivity|].
  cbn [jq_first jq_each map]. destruct (matches s c) eqn:E; cbn [jq_first map].
  - rewrite (matches_keeps_id s c Hg), (matches_keeps_id s c Hf), E, Hc.
    reflexivity.
  - rewrite E. f_equal. exact IH.
Qed.

Lemma jq_each_ext s f g cs :
  (forall c, f c = g c) -> jq_each s f cs = jq_each s g cs.
Proof.
  intro H. unfold jq_each. apply map_ext. intro c. rewrite H. reflexivity.
Qed.

Lemma jq_first_ext s f g cs :
  (forall c, f c = g c) -> jq_first s f cs = jq_first s g cs.
Proof.
  intro H. induction cs as [|c cs IH]; [reflexivity|].
  cbn [jq_first]. rewrite H, IH. reflexivity.
Qed.

Lemma jq_get0_each s f cs :
  keeps_id f -> jq_get0 s (jq_each s f cs) = option_map f (jq_get0 s cs).
Proof.
  intro H. unfold jq_get0. induction cs as [|c cs IH]; [reflexivity|].
  cbn [jq_each map find]. destruct (matches s c) eqn:E.
  - rewrite (matches_keeps_id s c H), E. reflexivity.
  - rewrite E. exact IH.
Qed.

Lemma jq_get0_first s f cs :
  keeps_id f -> jq_get0 s (jq_first s f cs) = option_map f (jq_get0 s cs).
Proof.
  intro H. unfold jq_get0. induction cs as [|c cs IH]; [reflexivity|].
  cbn [jq_first find]. destruct (matches s c) eqn:E; cbn [find].
  - rewrite (matches_keeps_id s c H), E. reflexivity.
  - rewrite E. exact IH.
Qed.

(** The SDK's attach is idempotent on an element. *)
Lemma sdk_attach_twice trk el : sdk_attach trk (sdk_attach trk el) = sdk_attach trk el.
Proof.
  unfold sdk_attach, set_srcObject. cbn [srcObject opacity muted].
  do 2 f_equal. rewrite filter_app. cbn [filter].
  assert (E : kind_eqb (kind trk) (kind trk) = true) by (destruct (kind trk); reflexivity).
  rewrite E. cbn [negb]. rewrite app_nil_r. f_equal.
  generalize (match srcObject el with Some s => s | None => [] end) as l.
  induction l as [|x l IH]; [reflexivity|].
  cbn [filter]. destruct (negb (kind_eqb (kind x) (kind trk))) eqn:Ex; cbn [filter].
  - rewrite Ex, IH. reflexivity.
  - exact IH.
Qed.

Lemma sdk_attach_shows trk el : shows trk (sdk_attach trk el).
Proof. unfold shows, sdk_attach. cbn. apply in_or_app. right. left. reflexivity. Qed.

Lemma attachTrack_exec trk p st :
  exec (attachTrack trk p) st
  = let st1 := on_participantsDiv (thumb_attached trk (sid (heap st p))) st in
    if kind_eqb (kind trk) video && ref_is (activeParticipant st) p
    then on_activeVideo (main_attached trk) st1
    else st1.
Proof.
  unfold attachTrack. rewrite exec_gets, !exec_modify, exec_gets.
  cbn [activeParticipant on_participantsDiv on_page set_page].
  destruct (kind_eqb (kind trk) video && ref_is (activeParticipant st) p);
    reflexivity.
Qed.

Lemma detachTrack_present trk p st c :
  jq_get0 (sid (heap st p)) (participantsDiv (page st)) = Some c ->
  result (detachTrack trk p) st = Ok tt
  /\ exec (detachTrack trk p) st
     = let st1 := on_participantsDiv (thumb_detached trk (sid (heap st p))) st in
       if kind_eqb (kind trk) video && ref_is (activeParticipant st) p
       then on_activeVideo (main_detached trk) st1
       else st1.
Proof.
  intro Hc. unfold detachTrack.
  rewrite !result_gets, !exec_gets, Hc. cbv beta iota.
  rewrite result_modify, exec_modify.
  rewrite exec_safe, result_safe by run_m.
  rewrite result_gets, exec_gets, !exec_modify.
  change (exec (modify ?g) ?s) with (g s).
  cbn [activeParticipant on_participantsDiv on_page set_page].
  destruct (kind_eqb (kind trk) video && ref_is (activeParticipant st) p);
    split; reflexivity.
Qed.

Lemma detachTrack_absent trk p st :
  jq_get0 (sid (heap st p)) (participantsDiv (page st)) = None ->
  result (detachTrack trk p) st
  = Throw (TypeError "Cannot set properties of undefined (setting 'srcObject')").
Proof.
  intro Hc. unfold detachTrack.
  rewrite !result_gets, Hc. cbv beta iota. rewrite !result_modify. reflexivity.
Qed.

Lemma thumb_attached_ids trk psid cs :
  map el_id (thumb_attached trk psid cs) = map el_id cs.
Proof.
  unfold thumb_attached.
  rewrite jq_first_ids, jq_each_ids by apply on_media_keeps_id. reflexivity.
Qed.

Lemma thumb_detached_ids trk psid cs :
  map el_id (thumb_detached trk psid cs) = map el_id cs.
Proof.
  unfold thumb_detached.
  rewrite !jq_first_ids, jq_each_ids by apply on_media_keeps_id. reflexivity.
Qed.

Lemma thumb_attached_twice trk psid cs :
  thumb_attached trk psid (thumb_attached trk psid cs) = thumb_attached trk psid cs.
Proof.
  unfold thumb_attached.
  rewrite jq_each_first; try apply on_media_keeps_id;
    [|intro c; destruct (kind trk); reflexivity].
  rewrite jq_first_first, jq_each_each by apply on_media_keeps_id.
  erewrite jq_first_ext; [erewrite jq_each_ext; [reflexivity|]|].
  - intro c. destruct (kind trk); reflexivity.
  - intro c. unfold on_media. destruct (kind trk);
      cbn [media_el set_media_el audio_el video_el];
      rewrite sdk_attach_twice; reflexivity.
Qed.

Lemma thumb_detached_twice trk psid cs :
  thumb_detached trk psid (thumb_detached trk psid cs) = thumb_detached trk psid cs.
Proof.
  assert (E : forall l, thumb_detached trk psid l
                        = jq_first psid (on_media (kind trk) (set_srcObject None))
                            (jq_each psid (on_media (kind trk) (set_opacity (Some "0"))) l)).
  { intro l. unfold thumb_detached.
    rewrite jq_first_first by apply on_media_keeps_id.
    apply jq_first_ext. intro c. destruct (kind trk); reflexivity. }
  rewrite !E.
  rewrite jq_each_first; try apply on_media_keeps_id;
    [|intro c; destruct (kind trk); reflexivity].
  rewrite jq_first_first, jq_each_each by apply on_media_keeps_id.
  erewrite jq_first_ext; [erewrite jq_each_ext; [reflexivity|]|];
    intro c; destruct (kind trk); reflexivity.
Qed.

Lemma on_participantsDiv_twice G st :
  (forall cs, G (G cs) = G cs) ->
  on_participantsDiv G (on_participantsDiv G st) = on_participantsDiv G st.
Proof.
  intro H. unfold on_participantsDiv, on_page, set_page, set_participantsDiv.
  cbn [page participantsDiv]. rewrite H. reflexivity.
Qed.

Lemma on_both_twice F G st :
  (forall el, F (F el) = F el) -> (forall cs, G (G cs) = G cs) ->
  on_activeVideo F (on_participantsDiv G (on_activeVideo F (on_participantsDiv G st)))
  = on_activeVideo F (on_participantsDiv G st).
Proof.
  intros HF HG.
  unfold on_activeVideo, on_participantsDiv, on_page, set_page,
    set_participantsDiv, set_activeVideo.
  cbn [page participantsDiv activeVideo]. rewrite HF, HG. reflexivity.
Qed.

Lemma thumb_detached_get0 trk psid cs c :
  jq_get0 psid cs = Some c ->
  exists c', jq_get0 psid (thumb_detached trk psid cs) = Some c'.
Proof.
  intro Hc. unfold thumb_detached.
  rewrite !jq_get0_first, jq_get0_each, Hc by apply on_media_keeps_id.
  eexists. reflexivity.
Qed.

Lemma main_attached_twice trk el :
  main_attached trk (main_attached trk el) = main_attached trk el.
Proof.
  unfold main_attached.
  change (sdk_attach trk (set_opacity None (sdk_attach trk el)))
    with (set_opacity None (sdk_attach trk (sdk_attach trk el))).
  rewrite sdk_attach_twice. reflexivity.
Qed.

Lemma attachTrack_twice trk p st :
  exec (attachTrack trk p) (exec (attachTrack trk p) st)
  = exec (attachTrack trk p) st.
Proof.
  rewrite (attachTrack_exec trk p (exec (attachTrack trk p) st)).
  rewrite (attachTrack_exec trk p st). cbn zeta.
  destruct (kind_eqb (kind trk) video && ref_is (activeParticipant st) p) eqn:E.
  - cbn [activeParticipant heap on_activeVideo on_participantsDiv on_page set_page].
    rewrite E.
    apply (on_both_twice (main_attached trk) (thumb_attached trk (sid (heap st p)))).
    + apply main_attached_twice.
    + apply thumb_attached_twice.
  - cbn [activeParticipant heap on_participantsDiv on_page set_page].
    rewrite E. apply on_participantsDiv_twice, thumb_attached_twice.
Qed.

Lemma attachTrack_nodes trk p st :
  nodes (exec (attachTrack trk p) st) = nodes st.
Proof.
  rewrite attachTrack_exec. cbn zeta. unfold nodes.
  destruct (kind_eqb (kind trk) video && ref_is (activeParticipant st) p);
    cbn [page participantsDiv on_activeVideo on_participantsDiv on_page
           set_page set_activeVideo set_participantsDiv];
    apply thumb_attached_ids.
Qed.

Lemma detachTrack_twice trk p st c :
  jq_get0 (sid (heap st p)) (participantsDiv (page st)) = Some c ->
  exec (detachTrack trk p) (exec (detachTrack trk p) st)
  = exec (detachTrack trk p) st.
Proof.
  intro Hc. destruct (@detachTrack_present trk p st c Hc) as [_ He].
  destruct (thumb_detached_get0 trk _ _ Hc) as [c' Hc'].
  assert (Hc2 : jq_get0 (sid (heap (exec (detachTrack trk p) st) p))
                  (participantsDiv (page (exec (detachTrack trk p) st)))
                = Some c').
  { rewrite He. cbn zeta.
    destruct (kind_eqb (kind trk) video && ref_is (activeParticipant st) p);
      exact Hc'. }
  destruct (@detachTrack_present trk p _ c' Hc2) as [_ He2].
  rewrite He2. rewrite He. cbn zeta.
  destruct (kind_eqb (kind trk) video && ref_is (activeParticipant st) p) eqn:E.
  - cbn [activeParticipant heap on_activeVideo on_participantsDiv on_page set_page].
    rewrite E.
    apply (on_both_twice (main_detached trk) (thumb_detached trk (sid (heap st p)))).
    + reflexivity.
    + apply thumb_detached_twice.
  - cbn [activeParticipant heap on_participantsDiv on_page set_page].
    rewrite E. apply on_participantsDiv_twice, thumb_detached_twice.
Qed.

Lemma detachTrack_nodes trk p st c :
  jq_get0 (sid (heap st p)) (participantsDiv (page st)) = Some c ->
  nodes (exec (detachTrack trk p) st) = nodes st.
Proof.
  intro Hc. destruct (@detachTrack_present trk p st c Hc) as [_ ->].
  cbn zeta. unfold nodes.
  destruct (kind_eqb (kind trk) video && ref_is (activeParticipant st) p);
    cbn [page participantsDiv on_activeVideo on_participantsDiv on_page
           set_page set_activeVideo set_participantsDiv];
    apply thumb_detached_ids.
Qed.

(** C4, as stated, fails: with the participant's media element absent,
    [detachTrack] throws on [mediaEl.srcObject = null]. *)
Lemma C4_counterexample :
  jq_get0 (sid (heap bob_gone 1)) (participantsDiv (page bob_gone)) = None
  /\ ~ detach_is_harmless (remote_video 3) 1 bob_gone.
Proof.
  split; [vm_compute; reflexivity|].
  intros [H _]. vm_compute in H. discriminate H.
Qed.

(** C4, amended. [attachTrack] never throws, adds no node, and a second
    attach of the same track changes nothing.  When the participant's
    thumbnail exists, [detachTrack] does not throw either, attached or
    not, removes or adds no node, and a second detach changes nothing.
    When the thumbnail does not exist, [detachTrack] throws. *)
Theorem C4_attach_detach_idempotent :
  forall trk p st,
    (result (attachTrack trk p) st = Ok tt
     /\ nodes (exec (attachTrack trk p) st) = nodes st
     /\ exec (attachTrack trk p) (exec (attachTrack trk p) st)
        = exec (attachTrack trk p) st)
    /\ (jq_get0 (sid (heap st p)) (participantsDiv (page st)) <> None ->
        result (detachTrack trk p) st = Ok tt
        /\ nodes (exec (detachTrack trk p) st) = nodes st
        /\ exec (detachTrack trk p) (exec (detachTrack trk p) st)
           = exec (detachTrack trk p) st)
    /\ (jq_get0 (sid (heap st p)) (participantsDiv (page st)) = None ->
        result (detachTrack trk p) st
        = Throw (TypeError
                   "Cannot set properties of undefined (setting 'srcObject')")).
Proof.
  intros trk p st. split; [|split].
  - split; [apply (safe_unit _ (attachTrack_safe trk p))|].
    split; [apply attachTrack_nodes | apply attachTrack_twice].
  - intro Hne.
    destruct (jq_get0 (sid (heap st p)) (participantsDiv (page st)))
      as [c|] eqn:Hc; [|congruence].
    split; [apply (@detachTrack_present trk p st c Hc)|].
    split; [apply (@detachTrack_nodes trk p st c Hc)
           | apply (@detachTrack_twice trk p st c Hc)].
  - apply detachTrack_absent.
Qed.

Lemma C4_witness :
  jq_get0 (sid (heap trio 1)) (participantsDiv (page trio)) <> None
  /\ jq_get0 (sid (heap bob_gone 1)) (participantsDiv (page bob_gone)) = None
  /\ (result (detachTrack (remote_video 3) 1) trio = Ok tt
      /\ nodes (exec (detachTrack (remote_video 3) 1) trio) = nodes trio
      /\ exec (detachTrack (remote_video 3) 1)
           (exec (detachTrack (remote_video 3) 1) trio)
         = exec (detachTrack (remote_video 3) 1) trio)
  /\ result (detachTrack (remote_video 3) 1) bob_gone
     = Throw (TypeError
                "Cannot set properties of undefined (setting 'srcObject')").
Proof.
  assert (H1 : jq_get0 (sid (heap trio 1)) (participantsDiv (page trio)) <> None)
    by (vm_compute; discriminate).
  assert (H2 : jq_get0 (sid (heap bob_gone 1)) (participantsDiv (page bob_gone))
               = None)
    by (vm_compute; reflexivity).
  split; [exact H1|]. split; [exact H2|]. split.
  - exact (proj1 (proj2 (C4_attach_detach_idempotent (remote_video 3) 1 trio)) H1).
  - exact (proj2 (proj2 (C4_attach_detach_idempotent (remote_video 3) 1 bob_gone)) H2).
Defined.

(* ------------------------------------------------------------------ *)
(** ** The main surface after [joinRoom] *)

Lemma setActiveParticipant_main p trk st :
  first_video_track (heap st p) = Some trk ->
  exists el,
    activeVideo (page (exec (setActiveParticipant p) st)) = main_attached trk el.
Proof.
  intro Ht. unfold setActiveParticipant. rewrite exec_gets.
  rewrite exec_safe by (destruct (activeParticipant st); run_m).
  match goal with |- context [exec ?c st] => set (st1 := exec c st) end.
  assert (Hh : heap st1 = heap st).
  { unfold st1. apply exec_keeps. destruct (activeParticipant st); run_m. }
  rewrite exec_modify, exec_gets. cbn [heap set_activeParticipant].
  rewrite Hh, Ht. rewrite exec_modify, exec_gets.
  rewrite exec_safe by run_m.
  rewrite exec_safe by run_m.
  rewrite exec_modify.
  change (exec (modify ?g) ?s) with (g s).
  eexists. reflexivity.
Qed.

Lemma updateNetworkQualityReport_main p :
  keeps main_video (updateNetworkQualityReport p).
Proof. unfold updateNetworkQualityReport. run_m. Qed.

Lemma setupNetworkQualityUpdates_main : keeps main_video setupNetworkQualityUpdates.
Proof.
  unfold setupNetworkQualityUpdates, setupNetworkQualityUpdatesForParticipant.
  pose proof updateNetworkQualityReport_main. run_m.
Qed.

Lemma after_selection_main isMobile : keeps main_video (after_selection isMobile).
Proof.
  unfold after_selection. pose proof setupNetworkQualityUpdates_main. run_m.
Qed.

(** C5, as stated, fails when the local participant publishes no video:
    [joinRoom] throws before it selects an active participant, and
    nothing sets the opacity of the main video. *)
Lemma C5_counterexample :
  participants (room_of []) = []
  /\ dominantSpeaker (room_of []) = None
  /\ ~ joined_alone_as_stated false "token" (room_of []) (initial audio_only_people)
  /\ activeParticipant
       (joinRoom false "token" (inr (room_of [])) (initial audio_only_people))
     = None
  /\ opacity (main_video
                (joinRoom false "token" (inr (room_of [])) (initial audio_only_people)))
     = None.
Proof.
  split; [reflexivity|]. split; [reflexivity|]. split.
  - intros [H _]. vm_compute in H. discriminate H.
  - split; vm_compute; reflexivity.
Qed.

(** C5, amended. In a room with only the local participant and no
    dominant speaker, when the local participant's first video
    publication carries a track, [joinRoom] leaves the local participant
    active, the main video showing that track, and the main video's
    inline opacity cleared. *)
Theorem C5_join_alone_with_video :
  forall isMobile token rm st0 publication vts trk,
    participants rm = [] ->
    dominantSpeaker rm = None ->
    videoTracks (heap st0 (localParticipant rm)) = publication :: vts ->
    track publication = Some trk ->
    let st' := joinRoom isMobile token (inr rm) st0 in
    activeParticipant st' = Some (localParticipant rm)
    /\ shows trk (main_video st')
    /\ opacity (main_video st') = None
    /\ joinPromise st' = Pending.
Proof.
  intros isMobile token rm st0 publication vts trk _ Hd Hv Ht. cbn zeta.
  destruct (@joinRoom_active isMobile token rm st0 publication vts Hv)
    as (Ha & _ & _ & _).
  split.
  { rewrite Ha. unfold speaker_or_local. rewrite Hd. reflexivity. }
  rewrite (@joinRoom_exec isMobile token rm st0 publication vts Hv).
  set (st_b := before_selection token rm publication st0).
  assert (Hroom : room st_b = rm) by (apply before_selection_keeps; auto with js).
  assert (Hheap : heap st_b = heap st0) by (apply before_selection_keeps; auto with js).
  assert (Hf : first_video_track (heap st_b (localParticipant rm)) = Some trk).
  { rewrite Hheap. unfold first_video_track. rewrite Hv. exact Ht. }
  assert (Hm : exists el,
             main_video (set_joinPromise Pending
                           (exec (after_selection isMobile)
                              (exec setCurrentActiveParticipant st_b)))
             = main_attached trk el).
  { change (main_video (set_joinPromise Pending ?s)) with (main_video s).
    rewrite exec_keeps by apply after_selection_main.
    unfold setCurrentActiveParticipant. rewrite exec_gets, Hroom.
    unfold speaker_or_local. rewrite Hd.
    apply setActiveParticipant_main, Hf. }
  destruct Hm as [el ->].
  split; [apply sdk_attach_shows|]. split; reflexivity.
Qed.

Lemma C5_witness :
  participants (room_of []) = []
  /\ dominantSpeaker (room_of []) = None
  /\ videoTracks (heap (initial people) (localParticipant (room_of [])))
     = {| trackSid := "MT1"; pub_kind := video; track := Some camera |} :: []
  /\ track {| trackSid := "MT1"; pub_kind := video; track := Some camera |}
     = Some camera
  /\ activeParticipant alone = Some 0
  /\ shows camera (main_video alone)
  /\ opacity (main_video alone) = None
  /\ joinPromise alone = Pending.
Proof.
  do 4 (split; [reflexivity|]).
  exact (@C5_join_alone_with_video false "token" (room_of []) (initial people)
           _ _ camera eq_refl eq_refl eq_refl eq_refl).
Defined.

(* ------------------------------------------------------------------ *)
(** ** The pin toggle *)

Lemma reset_previous_calls st :
  (isActiveParticipantPinned st = true -> activeParticipant st <> None) ->
  calls (exec (reset_previous st) st) = calls st ++ previous_reset st.
Proof.
  intro H. unfold reset_previous, previous_reset.
  destruct (isActiveParticipantPinned st).
  - destruct (activeParticipant st) as [q|].
    + apply setVideoPriority_calls.
    + exfalso. apply H; reflexivity.
  - symmetry. apply app_nil_r.
Qed.

Lemma reset_previous_keeps {B} (f : State -> B) st :
  ignores_calls f -> f (exec (reset_previous st) st) = f st.
Proof.
  intro H. unfold reset_previous. destruct (isActiveParticipantPinned st).
  - apply exec_keeps, setVideoPriority_keeps, H.
  - reflexivity.
Qed.

(** C6, as stated, fails: the click that unpins calls [setPriority(null)],
    which is not a request for the "standard" priority. *)
Lemma C6_counterexample :
  ref_is (activeParticipant bob_pinned) 1 && isActiveParticipantPinned bob_pinned
  = true
  /\ calls (exec (container_click 1) bob_pinned)
     = calls bob_pinned ++ [CSetPriority (remote_video 3) None]
  /\ ~ unpin_click_as_stated 1 bob_pinned.
Proof.
  split; [vm_compute; reflexivity|]. split; [vm_compute; reflexivity|].
  intros [_ [H _]]. vm_compute in H. discriminate H.
Qed.

(** C6, amended. The click listener of P's thumbnail.  If P is the
    pinned active participant it calls [setPriority(null)] on P's video
    tracks, lowers the flag and makes active the room's dominant speaker
    if there is one, else the local participant.  Otherwise it first
    calls [setPriority(null)] on the video tracks of whoever was pinned,
    then requests "high" on P's video tracks, and leaves the flag up
    with P active. *)
Theorem C6_click_toggles_pin :
  forall P st,
    (isActiveParticipantPinned st = true -> activeParticipant st <> None) ->
    let st' := exec (container_click P) st in
    result (container_click P) st = Ok tt
    /\ (ref_is (activeParticipant st) P && isActiveParticipantPinned st = true ->
        isActiveParticipantPinned st' = false
        /\ calls st' = calls st ++ priority_requests (heap st P) None
        /\ activeParticipant st'
           = selected (localParticipant (room st)) (dominantSpeaker (room st)))
    /\ (ref_is (activeParticipant st) P && isActiveParticipantPinned st = false ->
        isActiveParticipantPinned st' = true
        /\ calls st' = calls st ++ previous_reset st
                         ++ priority_requests (heap st P) (Some "high")
        /\ activeParticipant st' = Some P).
Proof.
  intros P st Hinv. cbn zeta.
  destruct (ref_is (activeParticipant st) P && isActiveParticipantPinned st) eqn:Hc.
  - apply andb_true_iff in Hc. destruct Hc as [Hr Hp].
    assert (Ha : activeParticipant st = Some P).
    { destruct (activeParticipant st) as [a|]; [|discriminate Hr].
      cbn [ref_is] in Hr. apply Nat.eqb_eq in Hr. congruence. }
    destruct (@container_click_unpin P st Ha Hp) as [Hres Hex].
    split; [exact Hres|]. split; [|discriminate].
    intros _. rewrite Hex.
    rewrite setCurrentActiveParticipant_active.
    rewrite (exec_keeps (f := isActiveParticipantPinned))
      by (apply setCurrentActiveParticipant_keeps; auto with js).
    rewrite (exec_keeps (f := calls))
      by (apply setCurrentActiveParticipant_keeps; auto with js).
    cbn [isActiveParticipantPinned calls room set_isActiveParticipantPinned].
    rewrite setVideoPriority_calls.
    rewrite (exec_keeps (f := room)) by (apply setVideoPriority_keeps; auto with js).
    split; [reflexivity|]. split; [reflexivity|].
    unfold speaker_or_local, selected.
    destruct (dominantSpeaker (room st)); reflexivity.
  - destruct (@container_click_pin P st Hc Hinv) as [Hres Hex].
    split; [exact Hres|]. split; [discriminate|].
    intros _. rewrite Hex.
    rewrite setActiveParticipant_active.
    rewrite (exec_keeps (f := isActiveParticipantPinned))
      by (apply setActiveParticipant_keeps; auto with js).
    rewrite (exec_keeps (f := calls))
      by (apply setActiveParticipant_keeps; auto with js).
    cbn [isActiveParticipantPinned calls set_isActiveParticipantPinned].
    rewrite setVideoPriority_calls.
    rewrite (reset_previous_keeps (f := heap)) by auto with js.
    rewrite reset_previous_calls by exact Hinv.
    rewrite <- app_assoc. repeat split.
Qed.

Lemma C6_witness :
  let st := bob_pinned_carol_speaks in
  (isActiveParticipantPinned st = true -> activeParticipant st <> None)
  /\ let st' := exec (container_click 1) st in
     result (container_click 1) st = Ok tt
     /\ (ref_is (activeParticipant st) 1 && isActiveParticipantPinned st = true ->
         isActiveParticipantPinned st' = false
         /\ calls st' = calls st ++ priority_requests (heap st 1) None
         /\ activeParticipant st'
            = selected (localParticipant (room st)) (dominantSpeaker (room st)))
     /\ (ref_is (activeParticipant st) 1 && isActiveParticipantPinned st = false ->
         isActiveParticipantPinned st' = true
         /\ calls st' = calls st ++ previous_reset st
                          ++ priority_requests (heap st 1) (Some "high")
         /\ activeParticipant st' = Some 1).
Proof.
  cbn zeta. split; [vm_compute; discriminate|].
  apply (@C6_click_toggles_pin 1 bob_pinned_carol_speaks).
  vm_compute; discriminate.
Defined.

(* ------------------------------------------------------------------ *)
(** ** Thumbnails that are removed stay removed *)

Lemma jq_remove_ids s cs :
  map el_id (jq_remove s cs)
  = filter (fun i => negb (String.eqb i s)) (map el_id cs).
Proof.
  unfold jq_remove, matches. induction cs as [|c cs IH]; [reflexivity|].
  cbn [filter map]. destruct (String.eqb (el_id c) s); cbn [negb map];
    rewrite IH; reflexivity.
Qed.

Lemma removeClass_keeps_id cls : keeps_id (removeClass cls).
Proof. intro c. reflexivity. Qed.

Lemma addClass_keeps_id cls : keeps_id (addClass cls).
Proof.
  intro c. unfold addClass. destruct (existsb (String.eqb cls) (classes c));
    reflexivity.
Qed.

Lemma nodes_jq_each s f st :
  keeps_id f -> nodes (on_participantsDiv (jq_each s f) st) = nodes st.
Proof. intro H. unfold nodes. cbn. apply jq_each_ids, H. Qed.

Lemma setActiveParticipant_nodes p : keeps nodes (setActiveParticipant p).
Proof.
  unfold setActiveParticipant.
  pose proof nodes_jq_each as Hn.
  run_m; first [apply removeClass_keeps_id | apply addClass_keeps_id].
Qed.

Lemma setCurrentActiveParticipant_nodes : keeps nodes setCurrentActiveParticipant.
Proof.
  unfold setCurrentActiveParticipant. pose proof setActiveParticipant_nodes. run_m.
Qed.

Lemma participantDisconnected_nodes p st :
  nodes (exec (participantDisconnected p) st)
  = filter (fun i => negb (String.eqb i (sid (heap st p)))) (nodes st).
Proof.
  rewrite participantDisconnected_exec. cbn zeta.
  destruct (ref_is (activeParticipant st) p && isActiveParticipantPinned st).
  - unfold nodes at 1. cbn [page participantsDiv on_participantsDiv on_page
                              set_page set_participantsDiv].
    rewrite jq_remove_ids.
    change (map el_id (participantsDiv (page ?s))) with (nodes s).
    rewrite (exec_keeps (f := nodes)) by apply setCurrentActiveParticipant_nodes.
    rewrite (exec_keeps (f := heap))
      by (apply setCurrentActiveParticipant_keeps; auto with js).
    reflexivity.
  - unfold nodes at 1. cbn [page participantsDiv on_participantsDiv on_page
                              set_page set_participantsDiv].
    apply jq_remove_ids.
Qed.

Lemma participantDisconnected_removes p st :
  no_node (sid (heap st p)) (exec (participantDisconnected p) st).
Proof.
  unfold no_node. rewrite participantDisconnected_nodes.
  intro H. apply filter_In in H. destruct H as [_ H].
  rewrite String.eqb_refl in H. discriminate H.
Qed.

Lemma participantDisconnected_no_node s p :
  preserves (no_node s) (participantDisconnected p).
Proof.
  intros st H. unfold no_node. change (snd (participantDisconnected p st))
    with (exec (participantDisconnected p) st).
  rewrite participantDisconnected_nodes.
  intro Hin. apply filter_In in Hin. apply H, Hin.
Qed.

(** [forEach participantDisconnected] removes the thumbnail of every
    participant it visits. *)
Lemma forEach_participantDisconnected_removes ps : forall st q,
  In q ps ->
  no_node (sid (heap st q)) (exec (forEach participantDisconnected ps) st).
Proof.
  induction ps as [|p ps IH]; intros st q Hin; [destruct Hin|].
  cbn [forEach]. rewrite exec_safe by auto with js.
  assert (Hh : heap (exec (participantDisconnected p) st) = heap st)
    by (apply exec_keeps, participantDisconnected_keeps; auto with js).
  destruct Hin as [->|Hin].
  - apply (@preserves_forEach _ (no_node (sid (heap st q)))
             participantDisconnected ps).
    + intro x. apply participantDisconnected_no_node.
    + apply participantDisconnected_removes.
  - rewrite <- Hh. apply IH, Hin.
Qed.

(* ------------------------------------------------------------------ *)
(** ** Teardown *)

Lemma setActiveParticipant_hooks p : keeps hooks (setActiveParticipant p).
Proof. unfold setActiveParticipant. run_m. Qed.

Lemma participantDisconnected_hooks p : keeps hooks (participantDisconnected p).
Proof.
  unfold participantDisconnected, setCurrentActiveParticipant.
  pose proof setActiveParticipant_hooks. run_m.
Qed.

Section Teardown.

Variable isMobile : bool.

Lemma onDisconnected_exec error st lt :
  localVideoTrack st = Some lt ->
  result (onDisconnected isMobile error) st = Ok tt
  /\ exec (onDisconnected isMobile error) st
     = settle (outcome error)
         (on_page (set_window_room false)
            (on_activeVideo (set_srcObject None)
               (exec (forEach participantDisconnected (participants (room st)))
                  (exec (participantDisconnected (localParticipant (room st)))
                     (log (CStop lt) (unhooked isMobile st)))))).
Proof.
  intro Hl. unfold onDisconnected, unhooked.
  rewrite result_modify, exec_modify.
  destruct isMobile.
  - rewrite exec_safe, result_safe by run_m.
    rewrite exec_modify. change (exec (modify ?g) ?s) with (g s).
    rewrite result_gets, exec_gets. cbn [localVideoTrack on_page set_page].
    rewrite Hl. rewrite result_modify, exec_modify, result_gets, exec_gets.
    rewrite exec_safe, result_safe by auto with js.
    rewrite exec_safe, result_safe by (apply safe_forEach; auto with js).
    rewrite !result_modify, !exec_modify.
    destruct error; split; reflexivity.
  - rewrite exec_safe, result_safe by run_m.
    change (exec (ret tt) ?s) with s.
    rewrite result_gets, exec_gets. cbn [localVideoTrack on_page set_page].
    rewrite Hl. rewrite result_modify, exec_modify, result_gets, exec_gets.
    rewrite exec_safe, result_safe by auto with js.
    rewrite exec_safe, result_safe by (apply safe_forEach; auto with js).
    rewrite !result_modify, !exec_modify.
    destruct error; split; reflexivity.
Qed.

Lemma forEach_participantDisconnected_keeps {B} (f : State -> B) ps :
  ignores_page f -> ignores_active f -> ignores_pinned f ->
  keeps f (forEach participantDisconnected ps).
Proof.
  intros. apply keeps_forEach. intro. apply participantDisconnected_keeps; auto.
Qed.

Lemma onDisconnected_post error st lt :
  localVideoTrack st = Some lt ->
  let st' := exec (onDisconnected isMobile error) st in
  result (onDisconnected isMobile error) st = Ok tt
  /\ torn_down isMobile lt (room st) (heap st) st'
  /\ joinPromise st' = match joinPromise st with
                       | Pending => outcome error
                       | settled => settled
                       end
  /\ localVideoTrack st' = Some lt
  /\ room st' = room st
  /\ heap st' = heap st.
Proof.
  intro Hl. cbn zeta.
  destruct (@onDisconnected_exec error st lt Hl) as [Hres Hex].
  split; [exact Hres|]. rewrite Hex. clear Hex Hres.
  set (s0 := log (CStop lt) (unhooked isMobile st)).
  set (s1 := exec (participantDisconnected (localParticipant (room st))) s0).
  set (s2 := exec (forEach participantDisconnected (participants (room st))) s1).
  set (s3 := on_page (set_window_room false)
               (on_activeVideo (set_srcObject None) s2)).
  assert (Hk : forall B (f : State -> B),
             ignores_page f -> ignores_active f -> ignores_pinned f ->
             f s2 = f s0).
  { intros B f Hp Ha Hi. unfold s2, s1.
    rewrite exec_keeps by (apply forEach_participantDisconnected_keeps; auto).
    apply exec_keeps, participantDisconnected_keeps; auto. }
  assert (Hs : forall B (f : State -> B),
             (forall v s, f (set_joinPromise v s) = f s) ->
             f (settle (outcome error) s3) = f s3).
  { intros B f Hf. unfold settle. destruct (joinPromise s3); auto. }
  assert (Hh0 : heap s0 = heap st) by (unfold s0, unhooked; destruct isMobile; reflexivity).
  assert (Hr0 : room s0 = room st) by (unfold s0, unhooked; destruct isMobile; reflexivity).
  assert (Hhooks : hooks s2 = hooks s0).
  { unfold s2, s1.
    rewrite exec_keeps
      by (apply keeps_forEach; intro; apply participantDisconnected_hooks).
    apply exec_keeps, participantDisconnected_hooks. }
  split; [|split; [|split; [|split]]].
  - (* torn down *)
    unfold torn_down. split; [|split; [|split; [|split]]].
    + rewrite Hs by reflexivity.
      change (calls s3) with (calls s2). rewrite (Hk _ calls) by auto with js.
      unfold s0, log. cbn [calls set_calls]. apply in_or_app. right. left.
      reflexivity.
    + intros q Hq. unfold no_node. rewrite (Hs _ nodes) by reflexivity.
      change (nodes s3) with (nodes s2).
      assert (Hh1 : heap s1 = heap st).
      { unfold s1. rewrite exec_keeps
          by (apply participantDisconnected_keeps; auto with js). exact Hh0. }
      destruct Hq as [<-|Hq].
      * apply (@preserves_forEach _ (no_node (sid (heap st (localParticipant (room st)))))
                 participantDisconnected (participants (room st))).
        -- intro x. apply participantDisconnected_no_node.
        -- rewrite <- Hh0. apply participantDisconnected_removes.
      * rewrite <- Hh1. apply forEach_participantDisconnected_removes, Hq.
    + rewrite (Hs _ main_video) by reflexivity. reflexivity.
    + rewrite (Hs _ (fun s => onbeforeunload (page s))) by reflexivity.
      change (onbeforeunload (page s3)) with (onbeforeunload (page s2)).
      assert (E : onbeforeunload (page s2) = onbeforeunload (page s0))
        by (injection Hhooks; auto).
      rewrite E. unfold s0, unhooked. destruct isMobile; reflexivity.
    + intro Hm.
      rewrite (Hs _ (fun s => onpagehide (page s))),
              (Hs _ (fun s => onvisibilitychange (page s))) by reflexivity.
      change (onpagehide (page s3)) with (onpagehide (page s2)).
      change (onvisibilitychange (page s3)) with (onvisibilitychange (page s2)).
      assert (E : onpagehide (page s2) = onpagehide (page s0)
                  /\ onvisibilitychange (page s2) = onvisibilitychange (page s0))
        by (injection Hhooks; auto).
      destruct E as [-> ->]. unfold s0, unhooked. rewrite Hm. split; reflexivity.
  - (* promise *)
    assert (E : joinPromise s3 = joinPromise st).
    { change (joinPromise s3) with (joinPromise s2).
      rewrite (Hk _ joinPromise) by auto with js.
      unfold s0, unhooked. destruct isMobile; reflexivity. }
    unfold settle. rewrite E. destruct (joinPromise st); try exact E; reflexivity.
  - rewrite Hs by reflexivity. change (localVideoTrack s3) with (localVideoTrack s2).
    rewrite (Hk _ localVideoTrack) by auto with js.
    unfold s0, unhooked. destruct isMobile; exact Hl.
  - rewrite Hs by reflexivity. change (room s3) with (room s2).
    rewrite (Hk _ room) by auto with js. exact Hr0.
  - rewrite Hs by reflexivity. change (heap s3) with (heap s2).
    rewrite (Hk _ heap) by auto with js. exact Hh0.
Qed.

End Teardown.

Section Disconnected.

Variable isMobile : bool.

Lemma deliver_disconnected error l :
  deliver isMobile (disconnected_ error) l
  = match l with
    | OnceDisconnected =>
        modify (fun st => set_listeners (drop_once (listeners st)) st) ;;
        onDisconnected isMobile error
    | _ => ret tt
    end.
Proof. destruct l; reflexivity. Qed.

(** Delivery of [disconnected] to the listeners [ls]: once the [once]
    listener of [joinRoom] is among them, the room's thumbnails are gone
    and the promise is settled. *)
Lemma disconnected_delivered error lt rm h ls : forall st,
  localVideoTrack st = Some lt -> room st = rm -> heap st = h ->
  joinPromise st = Pending \/ joinPromise st = outcome error ->
  (torn_down isMobile lt rm h st /\ joinPromise st = outcome error)
  \/ In OnceDisconnected ls ->
  let st' := exec (forEach (deliver isMobile (disconnected_ error)) ls) st in
  result (forEach (deliver isMobile (disconnected_ error)) ls) st = Ok tt
  /\ torn_down isMobile lt rm h st'
  /\ joinPromise st' = outcome error.
Proof.
  induction ls as [|l ls IH]; intros st Hl Hr Hh Hp Hcase; cbn zeta.
  - destruct Hcase as [[Ht Hj]|[]]. split; [reflexivity|]. split; assumption.
  - cbn [forEach]. rewrite deliver_disconnected.
    destruct l;
      try (rewrite result_safe, exec_safe by apply safe_ret;
           apply IH; try assumption;
           destruct Hcase as [H|[H|H]];
           [left; exact H | discriminate H | right; exact H]).
    set (st0 := set_listeners (drop_once (listeners st)) st).
    destruct (@onDisconnected_post isMobile error st0 lt Hl)
      as (Hres & Htorn & Hprom & Hl' & Hr' & Hh').
    assert (Hsafe : result (modify (fun st => set_listeners (drop_once (listeners st)) st) ;;
                            onDisconnected isMobile error) st = Ok tt).
    { rewrite result_modify. exact Hres. }
    rewrite (@result_bind _ _ _ _ st tt Hsafe), (@exec_bind _ _ _ _ st tt Hsafe).
    change (snd ((modify (fun st => set_listeners (drop_once (listeners st)) st) ;;
                  onDisconnected isMobile error) st))
      with (exec (onDisconnected isMobile error) st0).
    assert (Hj : joinPromise (exec (onDisconnected isMobile error) st0)
                 = outcome error).
    { rewrite Hprom. change (joinPromise st0) with (joinPromise st).
      destruct Hp as [->| ->]; [reflexivity|]. destruct error; reflexivity. }
    apply IH.
    + exact Hl'.
    + rewrite Hr'. exact Hr.
    + rewrite Hh'. exact Hh.
    + right. exact Hj.
    + left. split; [|exact Hj].
      change (room st0) with (room st) in Htorn.
      change (heap st0) with (heap st) in Htorn.
      rewrite Hr, Hh in Htorn. exact Htorn.
Qed.

Lemma emit_disconnected error lt st :
  localVideoTrack st = Some lt ->
  joinPromise st = Pending ->
  listening OnceDisconnected st ->
  let st' := exec (emit isMobile (disconnected_ error)) st in
  result (emit isMobile (disconnected_ error)) st = Ok tt
  /\ torn_down isMobile lt (room st) (heap st) st'
  /\ joinPromise st' = outcome error.
Proof.
  intros Hl Hp Hin. cbn zeta. unfold emit. rewrite result_gets, exec_gets.
  apply disconnected_delivered; auto.
Qed.

End Disconnected.

(** The handlers of earlier joins, which a click on Leave runs first:
    each takes itself off and calls [disconnect] on a room that has been
    left. *)
Lemma times_onLeave_earlier_safe n : safe (times n onLeave_earlier).
Proof. induction n as [|n IH]; cbn [times]; unfold onLeave_earlier; run_m. Qed.

Lemma times_onLeave_earlier_keeps {B} (f : State -> B) n :
  ignores_page f -> ignores_calls f -> keeps f (times n onLeave_earlier).
Proof.
  intros Hp Hc. induction n as [|n IH]; cbn [times]; unfold onLeave_earlier, log, on_page;
    run_m.
Qed.

Lemma times_onLeave_earlier_bound n :
  keeps (fun st => leaveClick (page st)) (times n onLeave_earlier).
Proof. induction n as [|n IH]; cbn [times]; unfold onLeave_earlier; run_m. Qed.




Lemma times_onLeave_earlier_left n : forall st,
  leaveClickEarlier (page st) = n ->
  leaveClickEarlier (page (exec (times n onLeave_earlier) st)) = 0.
Proof.
  induction n as [|n IH]; intros st Hn; cbn [times].
  - exact Hn.
  - unfold onLeave_earlier at 1. rewrite exec_safe by run_m.
    apply IH.
    change (leaveClickEarlier
              (page (exec (modify (on_page ?g) ;; modify (log CDisconnect)) st)))
      with (pred (leaveClickEarlier (page st))).
    rewrite Hn. reflexivity.
Qed.

(** C7. A click on "Leave Room" and a disconnect reported by the SDK
    both end in the [disconnected] listener of [joinRoom]: the local
    video track is stopped, the thumbnail of the local and of every
    remote participant is removed, the main video's [srcObject] is
    cleared, and the window and document hooks are taken off.  The
    promise of [joinRoom] is rejected with the SDK's error, and resolved
    after a leave. *)
Theorem C7_leave_and_error_share_teardown :
  forall isMobile st lt,
    localVideoTrack st = Some lt ->
    joinPromise st = Pending ->
    listening OnceDisconnected st ->
    connected (room st) = true ->
    leaveClick (page st) = true ->
    (let st' := exec (step isMobile EvLeaveClick) st in
     result (step isMobile EvLeaveClick) st = Ok tt
     /\ torn_down isMobile lt (room st) (heap st) st'
     /\ joinPromise st' = Resolved)
    /\ (forall e,
          let st' := exec (step isMobile (EvDisconnected e)) st in
          result (step isMobile (EvDisconnected e)) st = Ok tt
          /\ torn_down isMobile lt (room st) (heap st) st'
          /\ joinPromise st' = Rejected e).
Proof.
  intros isMobile st lt Hl Hp Hin Hc Hb. split.
  - cbn zeta. unfold step. rewrite result_gets, exec_gets.
    rewrite result_safe, exec_safe by apply times_onLeave_earlier_safe.
    set (s1 := exec (times (leaveClickEarlier (page st)) onLeave_earlier) st).
    assert (Hk : forall B (f : State -> B),
               ignores_page f -> ignores_calls f -> f s1 = f st)
      by (intros B f H1 H2; apply exec_keeps, times_onLeave_earlier_keeps;
          assumption).
    assert (Hb1 : leaveClick (page s1) = true)
      by (unfold s1;
          rewrite (exec_keeps (f := fun st => leaveClick (page st)))
            by apply times_onLeave_earlier_bound;
          exact Hb).
    rewrite <- (Hk _ localVideoTrack) in Hl by auto with js.
    rewrite <- (Hk _ joinPromise) in Hp by auto with js.
    unfold listening in Hin. rewrite <- (Hk _ listeners) in Hin by auto with js.
    rewrite <- (Hk _ room) in Hc by auto with js.
    rewrite <- (Hk _ room), <- (Hk _ heap) by auto with js.
    clearbody s1. clear Hk.
    rewrite result_gets, exec_gets, Hb1.
    unfold onLeave, room_disconnect.
    rewrite !result_modify, !exec_modify, result_gets, exec_gets.
    cbn [room on_page set_page log set_calls]. rewrite Hc.
    rewrite result_modify, exec_modify.
    match goal with
    | |- context [exec (emit isMobile (disconnected_ None)) ?s] =>
        destruct (@emit_disconnected isMobile None lt s Hl Hp Hin)
          as (Hres & Htorn & Hj)
    end.
    split; [exact Hres|]. split; [exact Htorn | exact Hj].
  - intro e. cbn zeta. unfold step.
    rewrite result_gets, exec_gets, Hc. rewrite result_modify, exec_modify.
    match goal with
    | |- context [exec (emit isMobile (disconnected_ (Some e))) ?s] =>
        destruct (@emit_disconnected isMobile (Some e) lt s Hl Hp Hin)
          as (Hres & Htorn & Hj)
    end.
    split; [exact Hres|]. split; [exact Htorn | exact Hj].
Qed.

Lemma C7_witness :
  localVideoTrack trio = Some camera
  /\ joinPromise trio = Pending
  /\ listening OnceDisconnected trio
  /\ connected (room trio) = true
  /\ leaveClick (page trio) = true
  /\ (let st' := exec (step false EvLeaveClick) trio in
      result (step false EvLeaveClick) trio = Ok tt
      /\ torn_down false camera (room trio) (heap trio) st'
      /\ joinPromise st' = Resolved)
  /\ (forall e,
        let st' := exec (step false (EvDisconnected e)) trio in
        result (step false (EvDisconnected e)) trio = Ok tt
        /\ torn_down false camera (room trio) (heap trio) st'
        /\ joinPromise st' = Rejected e).
Proof.
  assert (Hin : listening OnceDisconnected trio).
  { vm_compute. repeat first [left; reflexivity | right]. }
  split; [vm_compute; reflexivity|]. split; [vm_compute; reflexivity|].
  split; [exact Hin|].
  split; [vm_compute; reflexivity|]. split; [vm_compute; reflexivity|].
  apply (@C7_leave_and_error_share_teardown false trio camera).
  - vm_compute; reflexivity.
  - vm_compute; reflexivity.
  - exact Hin.
  - vm_compute; reflexivity.
  - vm_compute; reflexivity.
Defined.

(* ------------------------------------------------------------------ *)
(** ** Where [attachTrack] renders a track *)

Lemma main_condition trk p st :
  kind_eqb (kind trk) video && ref_is (activeParticipant st) p = true
  <-> kind trk = video /\ activeParticipant st = Some p.
Proof.
  rewrite andb_true_iff. split.
  - intros [Hk Hr]. split.
    + destruct (kind trk); [discriminate Hk | reflexivity].
    + destruct (activeParticipant st) as [a|]; [|discriminate Hr].
      cbn [ref_is] in Hr. apply Nat.eqb_eq in Hr. congruence.
  - intros [-> ->]. cbn [ref_is]. rewrite Nat.eqb_refl. split; reflexivity.
Qed.

(** C8, as stated, fails for the audio track of the active participant:
    it goes to the thumbnail only. *)
Lemma C8_counterexample :
  activeParticipant trio = Some 0
  /\ ~ shows microphone (main_video (exec (attachTrack microphone 0) trio))
  /\ ~ attach_renders_as_stated microphone 0 trio.
Proof.
  assert (Ha : activeParticipant trio = Some 0) by (vm_compute; reflexivity).
  assert (Hn : ~ shows microphone (main_video (exec (attachTrack microphone 0) trio))).
  { vm_compute. intros [H|[]]. discriminate H. }
  split; [exact Ha|]. split; [exact Hn|].
  intros [_ H]. apply Hn, H, Ha.
Qed.

(** C8, amended. When the publisher's thumbnail exists, [attachTrack]
    renders the track into the thumbnail element of its kind; it also
    renders it into the main video if and only if the track is a video
    track and the publisher is the active participant, and otherwise
    leaves the main video as it was. *)
Theorem C8_attach_renders_thumbnail_and_main :
  forall trk p st,
    jq_get0 (sid (heap st p)) (participantsDiv (page st)) <> None ->
    let st' := exec (attachTrack trk p) st in
    rendered_in_thumbnail trk (sid (heap st p)) st'
    /\ (kind trk = video /\ activeParticipant st = Some p ->
        shows trk (main_video st') /\ opacity (main_video st') = None)
    /\ (~ (kind trk = video /\ activeParticipant st = Some p) ->
        main_video st' = main_video st).
Proof.
  intros trk p st Hne. cbn zeta.
  destruct (jq_get0 (sid (heap st p)) (participantsDiv (page st)))
    as [c|] eqn:Hc; [clear Hne|congruence].
  rewrite attachTrack_exec. cbn zeta.
  assert (Hthumb : rendered_in_thumbnail trk (sid (heap st p))
                     (on_participantsDiv (thumb_attached trk (sid (heap st p))) st)).
  { unfold rendered_in_thumbnail.
    cbn [page participantsDiv on_participantsDiv on_page set_page set_participantsDiv].
    unfold thumb_attached.
    rewrite jq_get0_first, jq_get0_each, Hc by apply on_media_keeps_id.
    eexists. split; [reflexivity|]. destruct (kind trk); cbn.
    - split; [apply in_or_app; right; left; reflexivity | reflexivity].
    - split; [apply in_or_app; right; left; reflexivity | reflexivity]. }
  pose proof (main_condition trk p st) as Hcond.
  destruct (kind_eqb (kind trk) video && ref_is (activeParticipant st) p).
  - split; [exact Hthumb|]. split.
    + intros _. split; [apply sdk_attach_shows | reflexivity].
    + intro Hn. exfalso. apply Hn, Hcond. reflexivity.
  - split; [exact Hthumb|]. split.
    + intro H. apply Hcond in H. discriminate H.
    + intros _. reflexivity.
Qed.

Lemma C8_witness :
  jq_get0 (sid (heap trio 1)) (participantsDiv (page trio)) <> None
  /\ let st' := exec (attachTrack (remote_video 3) 1) trio in
     rendered_in_thumbnail (remote_video 3) (sid (heap trio 1)) st'
     /\ (kind (remote_video 3) = video /\ activeParticipant trio = Some 1 ->
         shows (remote_video 3) (main_video st') /\ opacity (main_video st') = None)
     /\ (~ (kind (remote_video 3) = video /\ activeParticipant trio = Some 1) ->
         main_video st' = main_video trio).
Proof.
  split; [vm_compute; discriminate|].
  apply (@C8_attach_renders_thumbnail_and_main (remote_video 3) 1 trio).
  vm_compute; discriminate.
Defined.

(* ------------------------------------------------------------------ *)
(** ** [joinRoom] without a local video publication *)

Lemma joinRoom_throw isMobile token conn st e :
  result (joinRoom_body isMobile token conn) st = Throw e ->
  joinRoom isMobile token conn st
  = set_joinPromise (Rejected e) (exec (joinRoom_body isMobile token conn) st).
Proof.
  unfold joinRoom, result, exec.
  destruct (joinRoom_body isMobile token conn st) as [r st']. cbn [fst snd].
  intros ->. reflexivity.
Qed.

Lemma joinRoom_body_no_video isMobile token rm st :
  videoTracks (heap st (localParticipant rm)) = [] ->
  result (joinRoom_body isMobile token (inr rm)) st
  = Throw (TypeError "Cannot read properties of undefined (reading 'track')")
  /\ exec (joinRoom_body isMobile token (inr rm)) st
     = set_listeners []
         (set_room rm (log (CConnect token 3 3) (log (CLoggerSetLevel "debug") st))).
Proof.
  intro Hv. unfold joinRoom_body.
  rewrite !result_modify, !exec_modify, result_gets, exec_gets.
  cbn [heap set_listeners set_room log set_calls]. rewrite Hv.
  split; reflexivity.
Qed.

(** C9. [joinRoom] reads [.track] of the first local video publication
    right after [connect]; when the local participant has none it throws
    there, so the promise it returned is rejected with that TypeError, no
    listener is registered on the new room, and the page (thumbnails,
    main video, button and window hooks) and the module's variables are
    as they were. *)
Theorem C9_join_needs_local_video :
  forall isMobile token rm st0,
    videoTracks (heap st0 (localParticipant rm)) = [] ->
    let st' := joinRoom isMobile token (inr rm) st0 in
    joinPromise st'
    = Rejected (TypeError "Cannot read properties of undefined (reading 'track')")
    /\ listeners st' = []
    /\ page st' = page st0
    /\ activeParticipant st' = activeParticipant st0
    /\ isActiveParticipantPinned st' = isActiveParticipantPinned st0
    /\ localVideoTrack st' = localVideoTrack st0.
Proof.
  intros isMobile token rm st0 Hv. cbn zeta.
  destruct (@joinRoom_body_no_video isMobile token rm st0 Hv) as [Hres Hex].
  rewrite (joinRoom_throw _ _ _ _ Hres), Hex.
  repeat split.
Qed.

Lemma C9_witness :
  videoTracks (heap (initial audio_only_people) (localParticipant (room_of [1]))) = []
  /\ let st' := joinRoom true "token" (inr (room_of [1])) (initial audio_only_people) in
     joinPromise st'
     = Rejected (TypeError "Cannot read properties of undefined (reading 'track')")
     /\ listeners st' = []
     /\ page st' = page (initial audio_only_people)
     /\ activeParticipant st' = activeParticipant (initial audio_only_people)
     /\ isActiveParticipantPinned st'
        = isActiveParticipantPinned (initial audio_only_people)
     /\ localVideoTrack st' = localVideoTrack (initial audio_only_people).
Proof.
  split; [reflexivity|].
  exact (@C9_join_needs_local_video true "token" (room_of [1])
           (initial audio_only_people) eq_refl).
Defined.

(* ------------------------------------------------------------------ *)
(** ** A stale active participant *)

Lemma keeps_selection {A} a (c : M A) :
  keeps selection c -> preserves (unpinned_active a) c.
Proof.
  intros H st [Ha Hp]. specialize (H st). unfold selection in H.
  injection H as H1 H2. split; congruence.
Qed.

Lemma participantDisconnected_unpinned a q :
  preserves (unpinned_active a) (participantDisconnected q).
Proof.
  intros st [Ha Hp].
  change (snd (participantDisconnected q st))
    with (exec (participantDisconnected q) st).
  rewrite participantDisconnected_exec, Hp, andb_false_r. cbn zeta.
  split; assumption.
Qed.

Ltac keep_m :=
  repeat first
    [ match goal with H : _ |- preserves _ _ => apply H end
    | apply preserves_ret
    | apply preserves_gets
    | apply preserves_throw
    | apply preserves_modify; intros ? ?; assumption
    | apply preserves_forEach; intro
    | match goal with
      | |- preserves _ (bind _ _) => apply preserves_bind; [ | intro ]
      | |- preserves _ (match ?x with _ => _ end) => destruct x
      end ].

Section Quiet.

Variable isMobile : bool.
Variable a : option PRef.

Lemma onDisconnected_unpinned error :
  preserves (unpinned_active a) (onDisconnected isMobile error).
Proof.
  pose proof (@participantDisconnected_unpinned a) as Hd.
  assert (Hs : forall v, preserves (unpinned_active a) (modify (settle v))).
  { intro v. apply preserves_modify. intros st H. unfold settle.
    destruct (joinPromise st); exact H. }
  unfold onDisconnected. keep_m.
Qed.

Lemma deliver_unpinned e l :
  e <> dominantSpeakerChanged_ ->
  preserves (unpinned_active a) (deliver isMobile e l).
Proof.
  intro He.
  pose proof (@participantDisconnected_unpinned a) as Hd.
  pose proof (onDisconnected_unpinned) as Ho.
  assert (Hc : forall p, preserves (unpinned_active a) (participantConnected p))
    by (intro; apply keeps_selection, participantConnected_keeps; auto with js).
  assert (Hn : forall p, preserves (unpinned_active a)
                           (setupNetworkQualityUpdatesForParticipant p))
    by (intro; apply keeps_selection,
          setupNetworkQualityUpdatesForParticipant_keeps; auto with js).
  assert (Hu : forall p, preserves (unpinned_active a) (updateNetworkQualityReport p))
    by (intro; apply keeps_selection, updateNetworkQualityReport_keeps; auto with js).
  assert (Ht : forall pub p, preserves (unpinned_active a) (trackPublished pub p))
    by (intros; apply keeps_selection, trackPublished_keeps; auto with js).
  assert (Hat : forall trk p, preserves (unpinned_active a) (attachTrack trk p))
    by (intros; apply keeps_selection, attachTrack_keeps; auto with js).
  assert (Hdt : forall trk p, preserves (unpinned_active a) (detachTrack trk p))
    by (intros; apply keeps_selection, detachTrack_keeps; auto with js).
  unfold deliver.
  destruct l, e; cbn [handler]; try congruence;
    try match goal with
        | |- context [if ?b then Some _ else None] => destruct b
        end;
    keep_m.
Qed.

Lemma emit_unpinned e :
  e <> dominantSpeakerChanged_ ->
  preserves (unpinned_active a) (emit isMobile e).
Proof.
  intro He. unfold emit. pose proof (fun l => @deliver_unpinned e l He). keep_m.
Qed.

Lemma step_quiet ev :
  quiet ev = true -> preserves (unpinned_active a) (step isMobile ev).
Proof.
  intro Hq.
  assert (He : forall e, e <> dominantSpeakerChanged_ ->
                         preserves (unpinned_active a) (emit isMobile e))
    by apply emit_unpinned.
  assert (Hn : forall n, preserves (unpinned_active a) (times n onLeave_earlier))
    by (intro; apply keeps_selection, times_onLeave_earlier_keeps; auto with js).
  destruct ev; try discriminate Hq;
    unfold step, onLeave, room_disconnect, onVisibilityChange,
      onLocalVideoTrackCreated;
    keep_m; discriminate.
Qed.

Lemma run_quiet evs : forall st,
  forallb quiet evs = true ->
  unpinned_active a st -> unpinned_active a (run isMobile evs st).
Proof.
  induction evs as [|ev evs IH]; intros st Hq H; [exact H|].
  cbn [forallb] in Hq. apply andb_true_iff in Hq. destruct Hq as [Hev Hq].
  cbn [run fold_left]. apply IH; [exact Hq|].
  apply (@step_quiet ev Hev), H.
Qed.

End Quiet.

(** C10. When the active participant disconnects while nobody is pinned,
    [participantDisconnected] removes its thumbnail and leaves
    [activeParticipant] pointing at it.  The reference stays through every
    later event that is neither a click on a thumbnail nor a
    [dominantSpeakerChanged] notification; the next
    [dominantSpeakerChanged] replaces it by the dominant-speaker rule. *)
Theorem C10_unpinned_active_disconnect_leaves_stale_reference :
  forall isMobile p st,
    activeParticipant st = Some p ->
    isActiveParticipantPinned st = false ->
    listening OnDominantSpeakerChanged st ->
    let st1 := exec (participantDisconnected p) st in
    activeParticipant st1 = Some p
    /\ no_node (sid (heap st p)) st1
    /\ (forall evs, forallb quiet evs = true ->
          activeParticipant (run isMobile evs st1) = Some p)
    /\ (forall d,
          activeParticipant (exec (step isMobile (EvDominantSpeakerChanged d)) st1)
          = selected (localParticipant (room st)) d).
Proof.
  intros isMobile p st Ha Hp Hl. cbn zeta.
  assert (H1 : unpinned_active (Some p) (exec (participantDisconnected p) st)).
  { apply (@participantDisconnected_unpinned (Some p) p st). split; assumption. }
  split; [apply H1|]. split; [apply participantDisconnected_removes|]. split.
  - intros evs Hq. apply (@run_quiet isMobile (Some p) evs _ Hq H1).
  - intro d.
    assert (Hl1 : listening OnDominantSpeakerChanged
                    (exec (participantDisconnected p) st)).
    { unfold listening.
      rewrite (exec_keeps (f := listeners))
        by (apply participantDisconnected_keeps; auto with js).
      exact Hl. }
    destruct (@step_dominantSpeakerChanged_unpinned isMobile d _ (proj2 H1) Hl1)
      as (Hact & _ & _ & Hd & Hloc).
    rewrite Hact. unfold speaker_or_local, selected. rewrite Hd, Hloc.
    rewrite (exec_keeps (f := room))
      by (apply participantDisconnected_keeps; auto with js).
    reflexivity.
Qed.

Lemma C10_witness :
  let st := exec (step false (EvDominantSpeakerChanged (Some 1))) trio in
  activeParticipant st = Some 1
  /\ isActiveParticipantPinned st = false
  /\ listening OnDominantSpeakerChanged st
  /\ let st1 := exec (participantDisconnected 1) st in
     activeParticipant st1 = Some 1
     /\ no_node (sid (heap st 1)) st1
     /\ (forall evs, forallb quiet evs = true ->
           activeParticipant (run false evs st1) = Some 1)
     /\ (forall d,
           activeParticipant (exec (step false (EvDominantSpeakerChanged d)) st1)
           = selected (localParticipant (room st)) d).
Proof.
  cbn zeta.
  assert (Hin : listening OnDominantSpeakerChanged
                  (exec (step false (EvDominantSpeakerChanged (Some 1))) trio)).
  { vm_compute. repeat first [left; reflexivity | right]. }
  split; [vm_compute; reflexivity|]. split; [vm_compute; reflexivity|].
  split; [exact Hin|].
  apply (@C10_unpinned_active_disconnect_leaves_stale_reference false 1
           (exec (step false (EvDominantSpeakerChanged (Some 1))) trio)).
  - vm_compute; reflexivity.
  - vm_compute; reflexivity.
  - exact Hin.
Defined.

(* ================================================================== *)
(** * Further properties of the module *)

(* ------------------------------------------------------------------ *)
(** ** Marks put on and taken off by [setActiveParticipant] *)

Lemma setActiveParticipant_thumbnails p st :
  participantsDiv (page (exec (setActiveParticipant p) st))
  = remarked (sid (heap st p)) (isActiveParticipantPinned st)
      (unmarked (active_sid st) (participantsDiv (page st))).
Proof.
  unfold setActiveParticipant. rewrite exec_gets.
  rewrite exec_safe by (destruct (activeParticipant st); run_m).
  match goal with |- context [exec ?c st] => set (st1 := exec c st) end.
  assert (Hh : heap st1 = heap st).
  { unfold st1. apply exec_keeps. destruct (activeParticipant st); run_m. }
  assert (Hp : isActiveParticipantPinned st1 = isActiveParticipantPinned st).
  { unfold st1. apply exec_keeps. destruct (activeParticipant st); run_m. }
  assert (Hd : participantsDiv (page st1)
               = unmarked (active_sid st) (participantsDiv (page st))).
  { unfold st1, active_sid, unmarked.
    destruct (activeParticipant st) as [act|]; [|reflexivity].
    cbn [option_map]. rewrite exec_gets, !exec_modify, exec_gets.
    cbn [heap on_participantsDiv on_page set_page].
    destruct (first_video_track (heap st act)); reflexivity. }
  rewrite exec_modify, exec_gets. cbn [heap set_activeParticipant].
  rewrite Hh. rewrite exec_modify, exec_gets.
  cbn [isActiveParticipantPinned on_participantsDiv on_page set_page
         set_activeParticipant].
  rewrite Hp. unfold remarked. rewrite <- Hd.
  destruct (isActiveParticipantPinned st);
    destruct (first_video_track (heap st p)); reflexivity.
Qed.

Lemma in_removeClass x cls c :
  In x (classes (removeClass cls c)) <-> In x (classes c) /\ x <> cls.
Proof.
  unfold removeClass. cbn [classes set_classes]. rewrite filter_In.
  destruct (String.eqb_spec x cls) as [->|Hne]; cbn [negb]; intuition congruence.
Qed.

Lemma in_addClass x cls c :
  In x (classes (addClass cls c)) <-> In x (classes c) \/ x = cls.
Proof.
  unfold addClass. destruct (existsb (String.eqb cls) (classes c)) eqn:E.
  - split; [auto|]. intros [H| ->]; [exact H|].
    apply existsb_exists in E. destruct E as (y & Hy & Hey).
    apply String.eqb_eq in Hey. subst y. exact Hy.
  - cbn [classes set_classes]. rewrite in_app_iff. cbn [In]. intuition congruence.
Qed.

(** A thumbnail of the list [jq_each s f cs] comes from one of [cs]. *)
Lemma in_jq_each s f cs c' :
  In c' (jq_each s f cs) <->
  exists c, In c cs /\ c' = (if matches s c then f c else c).
Proof.
  unfold jq_each. rewrite in_map_iff. split; intros (c & H1 & H2); exists c; auto.
Qed.

Lemma in_unmarked old cs c' :
  In c' (unmarked old cs) ->
  exists c, In c cs /\ el_id c' = el_id c
            /\ (forall x, In x (classes c') -> In x (classes c))
            /\ (old = Some (el_id c) ->
                ~ In "active" (classes c') /\ ~ In "pinned" (classes c'))
            /\ (old <> Some (el_id c) -> classes c' = classes c).
Proof.
  unfold unmarked. destruct old as [s|].
  - intro H. apply in_jq_each in H. destruct H as (c1 & H1 & ->).
    apply in_jq_each in H1. destruct H1 as (c & Hc & ->).
    exists c. split; [exact Hc|].
    destruct (matches s c) eqn:E.
    + rewrite (matches_keeps_id s c (@removeClass_keeps_id "active")), E.
      apply String.eqb_eq in E.
      split; [reflexivity|]. split.
      * intros x Hx. apply in_removeClass in Hx. destruct Hx as [Hx _].
        apply in_removeClass in Hx. apply Hx.
      * split.
        -- intros _. split; intro Hx; apply in_removeClass in Hx.
           ++ destruct Hx as [Hx _]. apply in_removeClass in Hx.
              destruct Hx as [_ Hx]. apply Hx; reflexivity.
           ++ destruct Hx as [_ Hx]. apply Hx; reflexivity.
        -- intro Hn. exfalso. apply Hn. rewrite E. reflexivity.
    + rewrite E. apply String.eqb_neq in E.
      split; [reflexivity|]. split; [auto|]. split.
      * intro Hs. exfalso. apply E. congruence.
      * reflexivity.
  - intro H. exists c'. repeat split; auto; discriminate.
Qed.

Lemma in_remarked new pinned cs c' :
  In c' (remarked new pinned cs) ->
  exists c, In c cs /\ el_id c' = el_id c
            /\ (el_id c = new ->
                forall x, In x (classes c') <->
                          In x (classes c) \/ x = "active"
                          \/ (pinned = true /\ x = "pinned"))
            /\ (el_id c <> new -> classes c' = classes c).
Proof.
  unfold remarked. intro H.
  assert (Ha : forall c1, In c1 (jq_each new (addClass "active") cs) ->
               exists c, In c cs /\ el_id c1 = el_id c
                 /\ (el_id c = new ->
                     forall x, In x (classes c1) <-> In x (classes c) \/ x = "active")
                 /\ (el_id c <> new -> classes c1 = classes c)).
  { intros c1 H1. apply in_jq_each in H1. destruct H1 as (c & Hc & ->).
    exists c. split; [exact Hc|]. unfold matches.
    destruct (String.eqb_spec (el_id c) new) as [E|E].
    - split; [apply addClass_keeps_id|]. split; [|congruence].
      intros _ x. apply in_addClass.
    - split; [reflexivity|]. split; [congruence|reflexivity]. }
  destruct pinned.
  - apply in_jq_each in H. destruct H as (c1 & H1 & ->).
    destruct (Ha c1 H1) as (c & Hc & Hid & Hin & Hout).
    exists c. split; [exact Hc|]. unfold matches. rewrite Hid.
    destruct (String.eqb_spec (el_id c) new) as [E|E].
    + split; [rewrite addClass_keeps_id; exact Hid|]. split; [|congruence].
      intros _ x. rewrite in_addClass, (Hin E). intuition congruence.
    + split; [exact Hid|]. split; [congruence|]. intros _. apply Hout, E.
  - destruct (Ha c' H) as (c & Hc & Hid & Hin & Hout).
    exists c. split; [exact Hc|]. split; [exact Hid|]. split; [|exact Hout].
    intros E x. rewrite (Hin E). intuition congruence.
Qed.

Lemma setActiveParticipant_identity p st :
  activeIdentity (page (exec (setActiveParticipant p) st))
  = Some (identity (heap st p)).
Proof.
  unfold setActiveParticipant. rewrite exec_gets.
  rewrite exec_safe by (destruct (activeParticipant st); run_m).
  match goal with |- context [exec ?c st] => set (st1 := exec c st) end.
  assert (Hh : heap st1 = heap st).
  { unfold st1. apply exec_keeps. destruct (activeParticipant st); run_m. }
  rewrite exec_modify, exec_gets. cbn [heap set_activeParticipant].
  rewrite Hh. rewrite exec_modify, exec_gets.
  rewrite exec_safe by run_m. rewrite exec_safe by run_m.
  reflexivity.
Qed.

Lemma unmarked_clean st c1 :
  marks_on_active st ->
  In c1 (unmarked (active_sid st) (participantsDiv (page st))) ->
  ~ In "active" (classes c1) /\ ~ In "pinned" (classes c1).
Proof.
  intros HA H1. apply in_unmarked in H1.
  destruct H1 as (c & Hc & _ & _ & Hold & Hother).
  assert (Hl : In (label c) (labels st)) by (apply in_map, Hc).
  assert (Hdec : active_sid st = Some (el_id c) \/ active_sid st <> Some (el_id c)).
  { destruct (active_sid st) as [s|]; [|right; discriminate].
    destruct (String.string_dec s (el_id c)) as [->|Hne];
      [left; reflexivity | right; congruence]. }
  destruct Hdec as [E|E].
  - apply Hold, E.
  - rewrite (Hother E).
    split; intro Hx; apply E; apply (HA (label c) Hl); [left|right]; exact Hx.
Qed.

Lemma setActiveParticipant_labels p st l :
  marks_on_active st ->
  In l (labels (exec (setActiveParticipant p) st)) ->
  (marked "active" l <-> fst l = sid (heap st p))
  /\ (marked "pinned" l <->
      isActiveParticipantPinned st = true /\ fst l = sid (heap st p)).
Proof.
  intros HA Hl. unfold labels in Hl. rewrite setActiveParticipant_thumbnails in Hl.
  apply in_map_iff in Hl. destruct Hl as (c' & <- & Hc').
  apply in_remarked in Hc'. destruct Hc' as (c1 & Hc1 & Hid & Hnew & Hother).
  destruct (@unmarked_clean st c1 HA Hc1) as [Hna Hnp].
  unfold marked, label. cbn [fst snd]. rewrite Hid.
  destruct (String.string_dec (el_id c1) (sid (heap st p))) as [E|E].
  - specialize (Hnew E). split.
    + split; [intros _; exact E|]. intros _. apply Hnew. right. left. reflexivity.
    + rewrite Hnew. split.
      * intros [H|[H|[H _]]]; [contradiction | discriminate H | split; assumption].
      * intros [H _]. right. right. split; [exact H | reflexivity].
  - rewrite (Hother E). split; split; intro H; exfalso; tauto.
Qed.

(** X1. After [setActiveParticipant p], from a state in which the marks sit
    on the active participant's thumbnails only, "active" marks exactly
    the thumbnails of [p], "pinned" marks them exactly when the flag is
    up, the label of the main surface is [p]'s identity, and no thumbnail
    was added or removed. *)
Theorem setActiveParticipant_marks :
  forall p st,
    marks_on_active st ->
    let st' := exec (setActiveParticipant p) st in
    (forall l, In l (labels st') ->
       (marked "active" l <-> fst l = sid (heap st p))
       /\ (marked "pinned" l <->
           isActiveParticipantPinned st = true /\ fst l = sid (heap st p)))
    /\ activeIdentity (page st') = Some (identity (heap st p))
    /\ nodes st' = nodes st.
Proof.
  intros p st HA. cbn zeta.
  split; [|split; [apply setActiveParticipant_identity
                  | apply (setActiveParticipant_nodes p)]].
  intros l Hl. apply (@setActiveParticipant_labels p st l HA Hl).
Qed.

Lemma has_class_marked cls l : has_class cls l = true <-> marked cls l.
Proof.
  unfold has_class, marked. rewrite existsb_exists. split.
  - intros (x & Hx & E). apply String.eqb_eq in E. subst x. exact Hx.
  - intro H. exists cls. split; [exact H | apply String.eqb_refl].
Qed.

Lemma marks_on_activeb_ok st : marks_on_activeb st = true -> marks_on_active st.
Proof.
  unfold marks_on_activeb, marks_on_active. rewrite forallb_forall.
  intros H l Hl Hm. specialize (H l Hl). unfold on_activeb in H.
  assert (E : has_class "active" l || has_class "pinned" l = true).
  { apply orb_true_iff. destruct Hm as [Hm|Hm]; [left|right];
      apply has_class_marked, Hm. }
  rewrite E in H. destruct (active_sid st) as [s|]; [|discriminate H].
  apply String.eqb_eq in H. congruence.
Qed.

Lemma highlight_okb_ok st : highlight_okb st = true -> highlight_ok st.
Proof.
  unfold highlight_okb, highlight_ok. rewrite andb_true_iff, forallb_forall.
  intros [HA HB]. split; [apply marks_on_activeb_ok, HA|].
  intros l Hl Hm. specialize (HB l Hl).
  apply has_class_marked in Hm. rewrite Hm in HB. exact HB.
Qed.

Lemma setActiveParticipant_marks_witness :
  marks_on_active trio
  /\ let st' := exec (setActiveParticipant 1) trio in
     (forall l, In l (labels st') ->
        (marked "active" l <-> fst l = sid (heap trio 1))
        /\ (marked "pinned" l <->
            isActiveParticipantPinned trio = true /\ fst l = sid (heap trio 1)))
     /\ activeIdentity (page st') = Some (identity (heap trio 1))
     /\ nodes st' = nodes trio.
Proof.
  assert (HA : marks_on_active trio)
    by (apply marks_on_activeb_ok; vm_compute; reflexivity).
  split; [exact HA|].
  exact (@setActiveParticipant_marks 1 trio HA).
Defined.

(* ------------------------------------------------------------------ *)
(** ** The highlighting is kept by every handler *)

Lemma highlight_ok_ext st st' :
  highlighting st' = highlighting st -> highlight_ok st -> highlight_ok st'.
Proof.
  unfold highlighting, highlight_ok, marks_on_active.
  intro E. injection E as E1 E2 E3. rewrite E1, E2, E3. auto.
Qed.

Lemma keeps_highlighting {A} (c : M A) :
  keeps highlighting c -> preserves highlight_ok c.
Proof. intros H st Hok. apply (@highlight_ok_ext st (snd (c st)) (H st) Hok). Qed.

Lemma setActiveParticipant_highlight p st :
  marks_on_active st -> highlight_ok (exec (setActiveParticipant p) st).
Proof.
  intro HA.
  assert (Hs : active_sid (exec (setActiveParticipant p) st) = Some (sid (heap st p))).
  { unfold active_sid. rewrite setActiveParticipant_active. cbn [option_map].
    rewrite (exec_keeps (f := heap))
      by (apply setActiveParticipant_keeps; auto with js).
    reflexivity. }
  assert (Hf : isActiveParticipantPinned (exec (setActiveParticipant p) st)
               = isActiveParticipantPinned st)
    by (apply exec_keeps, setActiveParticipant_keeps; auto with js).
  split.
  - intros l Hl Hm. rewrite Hs. f_equal. symmetry.
    destruct (@setActiveParticipant_labels p st l HA Hl) as [H1 H2].
    destruct Hm as [Hm|Hm]; [apply H1, Hm | apply H2, Hm].
  - intros l Hl Hm. rewrite Hf.
    apply (@setActiveParticipant_labels p st l HA Hl), Hm.
Qed.

Lemma setActiveParticipant_highlight_ok p :
  preserves highlight_ok (setActiveParticipant p).
Proof. intros st [HA _]. apply setActiveParticipant_highlight, HA. Qed.

Lemma setCurrentActiveParticipant_highlight st :
  marks_on_active st -> highlight_ok (exec setCurrentActiveParticipant st).
Proof.
  intro HA. unfold setCurrentActiveParticipant. rewrite exec_gets.
  apply setActiveParticipant_highlight, HA.
Qed.

Lemma labels_jq_each s f st :
  keeps_label f -> highlighting (on_participantsDiv (jq_each s f) st) = highlighting st.
Proof.
  intro H. unfold highlighting, labels. cbn. do 2 f_equal.
  unfold jq_each. rewrite map_map. apply map_ext.
  intro c. destruct (matches s c); [apply H | reflexivity].
Qed.

Lemma labels_jq_first s f st :
  keeps_label f -> highlighting (on_participantsDiv (jq_first s f) st) = highlighting st.
Proof.
  intro H. unfold highlighting, labels. cbn. do 2 f_equal.
  induction (participantsDiv (page st)) as [|c cs IH]; [reflexivity|].
  cbn [jq_first]. destruct (matches s c); cbn [map].
  - rewrite H. reflexivity.
  - rewrite IH. reflexivity.
Qed.

Lemma labels_sdk_detach_all trk st :
  highlighting (on_page (sdk_detach_all trk) st) = highlighting st.
Proof.
  unfold highlighting, labels. cbn. do 2 f_equal.
  rewrite map_map. apply map_ext. intro c. reflexivity.
Qed.

Lemma on_media_keeps_label k g : keeps_label (on_media k g).
Proof. intro c. destruct k; reflexivity. Qed.

Lemma attachTrack_highlighting trk p : keeps highlighting (attachTrack trk p).
Proof.
  unfold attachTrack.
  pose proof labels_jq_each as H1. pose proof labels_jq_first as H2.
  run_m; apply on_media_keeps_label.
Qed.

Lemma detachTrack_highlighting trk p : keeps highlighting (detachTrack trk p).
Proof.
  unfold detachTrack.
  pose proof labels_jq_each as H1. pose proof labels_jq_first as H2.
  pose proof labels_sdk_detach_all as H3.
  run_m; apply on_media_keeps_label.
Qed.

Lemma updateNetworkQualityReport_highlighting p :
  keeps highlighting (updateNetworkQualityReport p).
Proof.
  unfold updateNetworkQualityReport. pose proof labels_jq_first as H2.
  run_m. intro c. reflexivity.
Qed.

Lemma setupParticipantContainer_plain p st :
  plain (identity (heap st p)) = true ->
  exec (setupParticipantContainer p) st
  = on_participantsDiv
      (fun cs => cs ++ [template (heap st p)
                          (Nat.eqb p (localParticipant (room st))) p]) st.
Proof.
  intro Hp. unfold setupParticipantContainer. rewrite !exec_gets.
  unfold jq_html. rewrite Hp. reflexivity.
Qed.

Lemma tidy_lift {A} (c : M A) :
  preserves highlight_ok c -> keeps heap c -> preserves tidy c.
Proof.
  intros Hc Hh st [Hp Hok]. split; [|apply Hc, Hok].
  unfold plain_identities. rewrite Hh. exact Hp.
Qed.

Lemma setupParticipantContainer_highlight p :
  preserves tidy (setupParticipantContainer p).
Proof.
  intros st [Hplain [HA HB]].
  change (snd (setupParticipantContainer p st))
    with (exec (setupParticipantContainer p) st).
  rewrite (setupParticipantContainer_plain p st (Hplain p)).
  split; [exact Hplain|].
  set (c := template (heap st p) (Nat.eqb p (localParticipant (room st))) p).
  assert (Hnew : forall l,
             In l (labels (on_participantsDiv (fun cs => cs ++ [c]) st)) ->
             In l (labels st) \/ snd l = ["participant"]).
  { intros l Hl. unfold labels in Hl. cbn in Hl. rewrite map_app in Hl.
    apply in_app_iff in Hl.
    destruct Hl as [Hl|[<-|[]]]; [left; exact Hl | right; reflexivity]. }
  split.
  - intros l Hl Hm. destruct (Hnew l Hl) as [Ho|Hn].
    + apply (HA l Ho Hm).
    + unfold marked in Hm. rewrite Hn in Hm.
      destruct Hm as [[Hm|[]]|[Hm|[]]]; discriminate Hm.
  - intros l Hl Hm. destruct (Hnew l Hl) as [Ho|Hn].
    + apply (HB l Ho Hm).
    + unfold marked in Hm. rewrite Hn in Hm. destruct Hm as [Hm|[]]; discriminate Hm.
Qed.

Create HintDb hl discriminated.
#[export] Hint Constants Opaque : hl.
#[export] Hint Variables Opaque : hl.

Ltac keep_ok :=
  repeat first
    [ solve [auto 1 with hl nocore]
    | apply preserves_ret
    | apply preserves_gets
    | apply preserves_throw
    | apply preserves_modify; intros ? ?; assumption
    | apply preserves_forEach; intro
    | match goal with
      | |- preserves _ (bind _ _) => apply preserves_bind; [ | intro ]
      | |- preserves _ (match ?x with _ => _ end) => destruct x
      end ].

Lemma attachTrack_highlight trk p : preserves tidy (attachTrack trk p).
Proof.
  apply tidy_lift; [apply keeps_highlighting, attachTrack_highlighting|].
  apply attachTrack_keeps; auto with js.
Qed.

Lemma detachTrack_highlight trk p : preserves tidy (detachTrack trk p).
Proof.
  apply tidy_lift; [apply keeps_highlighting, detachTrack_highlighting|].
  apply detachTrack_keeps; auto with js.
Qed.

Lemma updateNetworkQualityReport_highlight p :
  preserves tidy (updateNetworkQualityReport p).
Proof.
  apply tidy_lift; [apply keeps_highlighting, updateNetworkQualityReport_highlighting|].
  apply updateNetworkQualityReport_keeps; auto with js.
Qed.

#[export] Hint Resolve setupParticipantContainer_highlight attachTrack_highlight
  detachTrack_highlight updateNetworkQualityReport_highlight : hl.

Lemma trackPublished_highlight publication p :
  preserves tidy (trackPublished publication p).
Proof.
  unfold trackPublished. keep_ok.
Qed.

#[export] Hint Resolve trackPublished_highlight : hl.

Lemma participantConnected_highlight p :
  preserves tidy (participantConnected p).
Proof.
  unfold participantConnected. keep_ok.
Qed.

Lemma setupNetworkQualityUpdatesForParticipant_highlight p :
  preserves tidy (setupNetworkQualityUpdatesForParticipant p).
Proof.
  unfold setupNetworkQualityUpdatesForParticipant. keep_ok.
Qed.

#[export] Hint Resolve participantConnected_highlight
  setupNetworkQualityUpdatesForParticipant_highlight : hl.

Lemma setupNetworkQualityUpdates_highlight :
  preserves tidy setupNetworkQualityUpdates.
Proof.
  unfold setupNetworkQualityUpdates. keep_ok.
Qed.

Lemma jq_remove_highlight s st :
  highlight_ok st -> highlight_ok (on_participantsDiv (jq_remove s) st).
Proof.
  intros [HA HB].
  assert (Hsub : forall l, In l (labels (on_participantsDiv (jq_remove s) st)) ->
                           In l (labels st)).
  { intros l Hl. unfold labels in *. cbn in Hl. apply in_map_iff in Hl.
    destruct Hl as (c & <- & Hc). apply filter_In in Hc. apply in_map, Hc. }
  split.
  - intros l Hl Hm. apply (HA l (Hsub l Hl) Hm).
  - intros l Hl Hm. apply (HB l (Hsub l Hl) Hm).
Qed.

Lemma participantDisconnected_highlight p :
  preserves tidy (participantDisconnected p).
Proof.
  apply tidy_lift; [|apply participantDisconnected_keeps; auto with js].
  intros st Hok.
  change (snd (participantDisconnected p st))
    with (exec (participantDisconnected p) st).
  rewrite participantDisconnected_exec. cbn zeta. apply jq_remove_highlight.
  destruct (ref_is (activeParticipant st) p && isActiveParticipantPinned st);
    [|exact Hok].
  apply setCurrentActiveParticipant_highlight. exact (proj1 Hok).
Qed.

Lemma onDominantSpeakerChanged_highlight :
  preserves tidy onDominantSpeakerChanged.
Proof.
  apply tidy_lift; [|apply onDominantSpeakerChanged_keeps; auto with js].
  intros st Hok.
  change (snd (onDominantSpeakerChanged st)) with (exec onDominantSpeakerChanged st).
  unfold onDominantSpeakerChanged. rewrite exec_gets.
  destruct (isActiveParticipantPinned st); [exact Hok|].
  apply setCurrentActiveParticipant_highlight, Hok.
Qed.

Lemma setVideoPriority_highlight who priority :
  preserves tidy (setVideoPriority who priority).
Proof.
  apply tidy_lift; [|apply setVideoPriority_keeps; auto with js].
  apply keeps_highlighting, setVideoPriority_keeps. intros v st. reflexivity.
Qed.

Lemma container_click_highlight p :
  preserves tidy (container_click p).
Proof.
  apply tidy_lift; [|apply container_click_keeps; auto with js].
  intros st Hok.
  change (snd (container_click p st)) with (exec (container_click p) st).
  assert (Hsvp : forall who pr s, marks_on_active s ->
                   marks_on_active (exec (setVideoPriority who pr) s)).
  { intros who pr s Hs.
    assert (E : highlighting (exec (setVideoPriority who pr) s) = highlighting s)
      by (apply exec_keeps, setVideoPriority_keeps; intros v x; reflexivity).
    unfold highlighting in E. injection E as E1 E2 _.
    unfold marks_on_active. rewrite E1, E2. exact Hs. }
  unfold container_click. rewrite !exec_gets.
  destruct (ref_is (activeParticipant st) p && isActiveParticipantPinned st).
  - rewrite exec_safe by auto with js. rewrite exec_modify.
    apply setCurrentActiveParticipant_highlight.
    apply (Hsvp (Some p) None st (proj1 Hok)).
  - fold (reset_previous st).
    destruct (isActiveParticipantPinned st) eqn:Hp.
    + destruct (activeParticipant st) as [a|] eqn:Ha.
      * unfold reset_previous. rewrite Hp, Ha.
        rewrite exec_safe by auto with js.
        rewrite exec_safe by auto with js. rewrite exec_modify.
        apply setActiveParticipant_highlight.
        apply (Hsvp (Some p) (Some "high") _ (Hsvp (Some a) None st (proj1 Hok))).
      * unfold reset_previous. rewrite Hp, Ha. exact Hok.
    + unfold reset_previous. rewrite Hp.
      rewrite exec_safe by apply safe_ret.
      rewrite exec_safe by auto with js. rewrite exec_modify.
      apply setActiveParticipant_highlight.
      apply (Hsvp (Some p) (Some "high") st (proj1 Hok)).
Qed.

#[export] Hint Resolve setupNetworkQualityUpdates_highlight
  participantDisconnected_highlight onDominantSpeakerChanged_highlight
  setVideoPriority_highlight container_click_highlight : hl.

Lemma on_participant_highlight p f :
  keeps_sid f -> keeps_identity f ->
  preserves tidy (modify (on_participant p f)).
Proof.
  intros Hf Hi st [Hplain Hok]. split.
  - intro q. cbn [snd modify heap on_participant set_heap].
    destruct (Nat.eqb q p); [rewrite Hi|]; apply Hplain.
  - revert Hok. apply keeps_highlighting, keeps_modify. intro s.
    unfold highlighting, active_sid. cbn [activeParticipant set_heap on_participant
      heap isActiveParticipantPinned]. f_equal. f_equal.
    destruct (activeParticipant s) as [a|]; [|reflexivity].
    cbn [option_map]. destruct (Nat.eqb a p); [rewrite Hf|]; reflexivity.
Qed.

Section Highlight.

Variable isMobile : bool.

Lemma onDisconnected_highlight error :
  preserves tidy (onDisconnected isMobile error).
Proof.
  assert (Hs : forall v, preserves tidy (modify (settle v))).
  { intro v. apply preserves_modify. intros st H. unfold settle.
    destruct (joinPromise st); exact H. }
  unfold onDisconnected. keep_ok; apply Hs.
Qed.

Lemma deliver_highlight e l : preserves tidy (deliver isMobile e l).
Proof.
  unfold deliver.
  destruct l, e; cbn [handler];
    try match goal with
        | |- context [if ?b then Some _ else None] => destruct b
        end;
    keep_ok; apply onDisconnected_highlight.
Qed.

Lemma emit_highlight e : preserves tidy (emit isMobile e).
Proof. unfold emit. keep_ok; apply deliver_highlight. Qed.

Lemma times_onLeave_earlier_highlight n :
  preserves tidy (times n onLeave_earlier).
Proof.
  induction n as [|n IH]; cbn [times]; unfold onLeave_earlier; keep_ok.
Qed.

Lemma step_highlight ev : preserves tidy (step isMobile ev).
Proof.
  pose proof times_onLeave_earlier_highlight as Hn.
  destruct ev;
    unfold step, onLeave, room_disconnect, onVisibilityChange,
      onLocalVideoTrackCreated;
    keep_ok;
    first [ apply emit_highlight
          | apply Hn
          | apply on_participant_highlight; intro who; reflexivity ].
Qed.

Lemma joinRoom_body_highlight token conn :
  preserves tidy (joinRoom_body isMobile token conn).
Proof.
  assert (Hs : preserves tidy setCurrentActiveParticipant).
  { apply tidy_lift; [|apply setCurrentActiveParticipant_keeps; auto with js].
    intros st Hok. apply setCurrentActiveParticipant_highlight, Hok. }
  unfold joinRoom_body. keep_ok; apply Hs.
Qed.

Lemma joinRoom_highlight token conn st :
  tidy st -> tidy (joinRoom isMobile token conn st).
Proof.
  intro Hok. pose proof (@joinRoom_body_highlight token conn st Hok) as H.
  unfold joinRoom. destruct (joinRoom_body isMobile token conn st) as [[[]|e] st'];
    exact H.
Qed.

Lemma run_highlight evs : forall st,
  tidy st -> tidy (run isMobile evs st).
Proof.
  induction evs as [|ev evs IH]; intros st Hok; [exact Hok|].
  cbn [run fold_left]. apply IH. apply (@step_highlight ev st Hok).
Qed.

End Highlight.

(** X2. While the identities of the participants are plain text (no
    quote, ampersand, slash or angle bracket), only thumbnails of the
    active participant are marked "active" or "pinned", and "pinned" is
    shown only while the flag is up: this holds when the page is loaded,
    and [joinRoom] and every user gesture and SDK notification keep it,
    whether the handler returns or throws. *)
Theorem highlight_invariant :
  forall isMobile,
    (forall h, highlight_ok (initial h))
    /\ (forall token conn st,
          plain_identities st -> highlight_ok st ->
          highlight_ok (joinRoom isMobile token conn st))
    /\ (forall evs st,
          plain_identities st -> highlight_ok st ->
          highlight_ok (run isMobile evs st)).
Proof.
  intro isMobile. split; [|split].
  - intro h. split; intros l [].
  - intros token conn st Hp Hok.
    apply (@joinRoom_highlight isMobile token conn st (conj Hp Hok)).
  - intros evs st Hp Hok.
    apply (@run_highlight isMobile evs st (conj Hp Hok)).
Qed.

Lemma plain_people st : heap st = people -> plain_identities st.
Proof. intros E q. rewrite E. destruct q as [|[|[|q]]]; reflexivity. Qed.

Lemma highlight_invariant_witness :
  plain_identities trio
  /\ highlight_ok trio
  /\ highlight_ok
       (run false [EvClick 1; EvDominantSpeakerChanged (Some 2);
                   EvParticipantDisconnected 1; EvClick 1; EvLeaveClick] trio).
Proof.
  assert (Hp : plain_identities trio) by (apply plain_people; reflexivity).
  assert (H : highlight_ok trio) by (apply highlight_okb_ok; vm_compute; reflexivity).
  split; [exact Hp|]. split; [exact H|].
  exact (proj2 (proj2 (highlight_invariant false)) _ trio Hp H).
Defined.

(* ------------------------------------------------------------------ *)
(** ** The main surface when the active participant changes *)

Lemma track_eqb_refl t : track_eqb t t = true.
Proof.
  unfold track_eqb. rewrite Nat.eqb_refl.
  destruct (kind t), (has_setPriority t); reflexivity.
Qed.

Lemma sdk_detach_hides t el : ~ shows t (sdk_detach t el).
Proof.
  unfold shows, sdk_detach. cbn [srcObject set_srcObject].
  destruct (srcObject el) as [s|]; cbn [option_map]; [|auto].
  intro H. apply filter_In in H. destruct H as [_ H].
  rewrite track_eqb_refl in H. discriminate H.
Qed.

Lemma setActiveParticipant_main_without_video p st :
  first_video_track (heap st p) = None ->
  main_video (exec (setActiveParticipant p) st)
  = match activeParticipant st with
    | Some a =>
        match first_video_track (heap st a) with
        | Some t => set_opacity (Some "0") (sdk_detach t (main_video st))
        | None => main_video st
        end
    | None => main_video st
    end.
Proof.
  intro Ht. unfold setActiveParticipant. rewrite exec_gets.
  rewrite exec_safe by (destruct (activeParticipant st); run_m).
  match goal with |- context [exec ?c st] => set (st1 := exec c st) end.
  assert (Hh : heap st1 = heap st).
  { unfold st1. apply exec_keeps. destruct (activeParticipant st); run_m. }
  rewrite exec_modify, exec_gets. cbn [heap set_activeParticipant].
  rewrite Hh, Ht. rewrite exec_modify, exec_gets.
  rewrite exec_safe by run_m. rewrite exec_safe by run_m.
  change (exec (modify ?g) ?s) with (g s).
  match goal with
  | |- main_video (on_page _ (exec ?c1 (exec ?c2 ?s))) = _ =>
      change (main_video (exec c1 (exec c2 s)) = 
              match activeParticipant st with
              | Some a =>
                  match first_video_track (heap st a) with
                  | Some t => set_opacity (Some "0") (sdk_detach t (main_video st))
                  | None => main_video st
                  end
              | None => main_video st
              end);
      assert (E1 : main_video (exec c1 (exec c2 s)) = main_video s)
  end.
  { rewrite exec_keeps by run_m. apply exec_keeps.
    destruct (isActiveParticipantPinned
                (on_participantsDiv (jq_each (sid (heap st p)) (addClass "active"))
                   (set_activeParticipant (Some p) st1))); run_m. }
  rewrite E1. change (main_video (on_participantsDiv ?g (set_activeParticipant ?v st1)))
    with (main_video st1).
  unfold st1. destruct (activeParticipant st) as [a|]; [|reflexivity].
  rewrite exec_gets, !exec_modify, exec_gets.
  cbn [heap on_participantsDiv on_page set_page].
  destruct (first_video_track (heap st a)); reflexivity.
Qed.

(** X3. The main surface after [setActiveParticipant p].  With a first video
    track, [p] is shown and the opacity cleared.  Without one, the first
    video track of the previous active participant is taken off and the
    surface hidden; if there was no such track the surface is left as it
    was. *)
Theorem setActiveParticipant_main_surface :
  forall p st,
    let st' := exec (setActiveParticipant p) st in
    (forall trk, first_video_track (heap st p) = Some trk ->
       shows trk (main_video st') /\ opacity (main_video st') = None)
    /\ (first_video_track (heap st p) = None ->
        (forall a t, activeParticipant st = Some a ->
                     first_video_track (heap st a) = Some t ->
                     ~ shows t (main_video st')
                     /\ opacity (main_video st') = Some "0")
        /\ (activeParticipant st = None
            \/ (exists a, activeParticipant st = Some a
                          /\ first_video_track (heap st a) = None) ->
            main_video st' = main_video st)).
Proof.
  intros p st. cbn zeta. split.
  - intros trk Ht. destruct (@setActiveParticipant_main p trk st Ht) as [el E].
    unfold main_video. rewrite E. split; [apply sdk_attach_shows | reflexivity].
  - intro Hn. rewrite (@setActiveParticipant_main_without_video p st Hn). split.
    + intros a t Ha Ht. rewrite Ha, Ht. split; [|reflexivity].
      apply (sdk_detach_hides t (main_video st)).
    + intros [Ha|(a & Ha & Ht)]; [rewrite Ha | rewrite Ha, Ht]; reflexivity.
Qed.

Lemma setActiveParticipant_main_surface_witness :
  first_video_track (heap (exec (step false (EvUnsubscribed 2 "MT4" (remote_video 4))) trio) 2)
  = None
  /\ let st := exec (step false (EvUnsubscribed 2 "MT4" (remote_video 4))) trio in
     let st' := exec (setActiveParticipant 2) st in
     ~ shows camera (main_video st') /\ opacity (main_video st') = Some "0".
Proof.
  assert (Hn : first_video_track
                 (heap (exec (step false (EvUnsubscribed 2 "MT4" (remote_video 4))) trio) 2)
               = None) by (vm_compute; reflexivity).
  split; [exact Hn|]. cbn zeta.
  refine (proj1 (proj2 (setActiveParticipant_main_surface 2
            (exec (step false (EvUnsubscribed 2 "MT4" (remote_video 4))) trio)) Hn)
            0 camera _ _); vm_compute; reflexivity.
Defined.

(* ------------------------------------------------------------------ *)
(** ** A participant joins, a participant leaves *)

Lemma setupParticipantContainer_nodes p st :
  plain (identity (heap st p)) = true ->
  nodes (exec (setupParticipantContainer p) st) = nodes st ++ [sid (heap st p)].
Proof.
  intro Hp. rewrite (setupParticipantContainer_plain p st Hp).
  unfold nodes. cbn. rewrite map_app. reflexivity.
Qed.

Lemma attachTrack_keeps_nodes trk p : keeps nodes (attachTrack trk p).
Proof. intro st. apply attachTrack_nodes. Qed.

Lemma trackPublished_nodes publication p : keeps nodes (trackPublished publication p).
Proof.
  unfold trackPublished. pose proof attachTrack_keeps_nodes. run_m.
Qed.

Lemma trackPublished_listeners publication p st :
  listeners (exec (trackPublished publication p) st)
  = listeners st ++ publication_listeners p publication.
Proof.
  unfold trackPublished.
  rewrite exec_safe by (destruct (track publication); auto with js; apply safe_ret).
  rewrite exec_modify. change (exec (modify ?g) ?s) with (g s).
  unfold register. cbn [listeners set_listeners].
  rewrite (exec_keeps (f := listeners)).
  - rewrite <- app_assoc. reflexivity.
  - destruct (track publication); [apply attachTrack_keeps; auto with js | apply keeps_ret].
Qed.

Lemma forEach_trackPublished_listeners p pubs : forall st,
  listeners (exec (forEach (fun publication => trackPublished publication p) pubs) st)
  = listeners st ++ flat_map (publication_listeners p) pubs.
Proof.
  induction pubs as [|publication pubs IH]; intro st; cbn [forEach flat_map].
  - symmetry. apply app_nil_r.
  - rewrite exec_safe by auto with js. rewrite IH, trackPublished_listeners.
    rewrite <- app_assoc. reflexivity.
Qed.

Lemma participantConnected_nodes p st :
  plain (identity (heap st p)) = true ->
  nodes (exec (participantConnected p) st) = nodes st ++ [sid (heap st p)].
Proof.
  intro Hp. unfold participantConnected.
  rewrite exec_safe by auto with js. rewrite exec_gets.
  rewrite exec_safe by (apply safe_forEach; intro; auto with js).
  change (exec (modify ?g) ?s) with (g s).
  change (nodes (register ?l ?s)) with (nodes s).
  rewrite (exec_keeps (f := nodes))
    by (apply keeps_forEach; intro; apply trackPublished_nodes).
  apply setupParticipantContainer_nodes, Hp.
Qed.

Lemma participantConnected_listeners p st :
  listeners (exec (participantConnected p) st)
  = listeners st ++ participant_listeners (heap st) p.
Proof.
  unfold participantConnected, participant_listeners.
  rewrite exec_safe by auto with js. rewrite exec_gets.
  rewrite exec_safe by (apply safe_forEach; intro; auto with js).
  change (exec (modify ?g) ?s) with (g s).
  unfold register. cbn [listeners set_listeners].
  rewrite forEach_trackPublished_listeners.
  change (heap (exec (setupParticipantContainer p) st)) with (heap st).
  change (listeners (exec (setupParticipantContainer p) st)) with (listeners st).
  rewrite <- app_assoc. reflexivity.
Qed.

(** X4. For a participant with a plain identity, whose publications are
    of audio and video tracks, [participantConnected] does not throw.  It
    appends one thumbnail, carrying the participant's sid, after the
    existing ones; it registers a [subscribed] and an [unsubscribed]
    listener for each publication the participant has, in order, and
    then the [trackPublished] listener; it leaves the active
    participant, the pin flag and the SDK call log as they were. *)
Theorem participantConnected_adds_thumbnail_and_listeners :
  forall p st,
    plain (identity (heap st p)) = true ->
    let st' := exec (participantConnected p) st in
    result (participantConnected p) st = Ok tt
    /\ nodes st' = nodes st ++ [sid (heap st p)]
    /\ listeners st' = listeners st ++ participant_listeners (heap st) p
    /\ selection st' = selection st
    /\ calls st' = calls st.
Proof.
  intros p st Hp. cbn zeta.
  split; [apply (safe_unit _ (participantConnected_safe p))|].
  split; [apply participantConnected_nodes, Hp|].
  split; [apply participantConnected_listeners|].
  split; apply exec_keeps, participantConnected_keeps; auto with js.
Qed.

Lemma participantConnected_adds_thumbnail_witness :
  plain (identity (heap bob_gone 1)) = true
  /\ (let st' := exec (participantConnected 1) bob_gone in
      result (participantConnected 1) bob_gone = Ok tt
      /\ nodes st' = nodes bob_gone ++ [sid (heap bob_gone 1)]
      /\ listeners st' = listeners bob_gone ++ participant_listeners (heap bob_gone) 1
      /\ selection st' = selection bob_gone
      /\ calls st' = calls bob_gone).
Proof.
  assert (Hp : plain (identity (heap bob_gone 1)) = true) by (vm_compute; reflexivity).
  split; [exact Hp|].
  exact (@participantConnected_adds_thumbnail_and_listeners 1 bob_gone Hp).
Defined.

(** X5. A participant with a plain identity, whose sid no thumbnail
    carries yet, connects and then disconnects: the thumbnails are the
    ones there were before, in the same order. *)
Theorem connect_then_disconnect_restores_thumbnails :
  forall p st,
    plain (identity (heap st p)) = true ->
    no_node (sid (heap st p)) st ->
    nodes (exec (participantDisconnected p) (exec (participantConnected p) st))
    = nodes st.
Proof.
  intros p st Hp Hfresh.
  rewrite participantDisconnected_nodes, participantConnected_nodes by exact Hp.
  rewrite (exec_keeps (f := heap)) by (apply participantConnected_keeps; auto with js).
  rewrite filter_app. cbn [filter]. rewrite String.eqb_refl. cbn [negb].
  rewrite app_nil_r. unfold no_node in Hfresh.
  induction (nodes st) as [|i l IH]; [reflexivity|].
  cbn [filter]. destruct (String.eqb_spec i (sid (heap st p))) as [E|E].
  - exfalso. apply Hfresh. left. exact E.
  - cbn [negb]. f_equal. apply IH. intro H. apply Hfresh. right. exact H.
Qed.

Lemma connect_then_disconnect_witness :
  plain (identity (heap bob_gone 1)) = true
  /\ no_node (sid (heap bob_gone 1)) bob_gone
  /\ nodes (exec (participantDisconnected 1) (exec (participantConnected 1) bob_gone))
     = nodes bob_gone.
Proof.
  assert (Hp : plain (identity (heap bob_gone 1)) = true) by (vm_compute; reflexivity).
  assert (H : no_node (sid (heap bob_gone 1)) bob_gone).
  { unfold no_node. vm_compute. intros [H|[H|[]]]; discriminate H. }
  split; [exact Hp|]. split; [exact H|].
  exact (@connect_then_disconnect_restores_thumbnails 1 bob_gone Hp H).
Defined.

(* ------------------------------------------------------------------ *)
(** ** Detaching after attaching *)

Lemma blank_elb_ok el : blank_elb el = true -> blank_el el.
Proof.
  unfold blank_elb, blank_el.
  destruct (opacity el) as [o|]; [|discriminate].
  destruct (srcObject el); [discriminate|].
  intro H. apply String.eqb_eq in H. subst o. split; reflexivity.
Qed.

Lemma thumbnails_blankb_ok k s st :
  thumbnails_blankb k s st = true -> thumbnails_blank k s st.
Proof.
  unfold thumbnails_blankb, thumbnails_blank. rewrite forallb_forall.
  intros H c Hc E. specialize (H c Hc). unfold matches in H.
  rewrite E, String.eqb_refl in H. apply blank_elb_ok, H.
Qed.

Lemma blank_el_eq el :
  blank_el el -> set_opacity (Some "0") (set_srcObject None el) = el.
Proof. destruct el as [o s m]. intros [Ho Hs]. cbn in *. subst. reflexivity. Qed.

Lemma on_media_blank k c :
  blank_el (media_el k c) ->
  on_media k (fun el => set_opacity (Some "0") (set_srcObject None el)) c = c.
Proof.
  intro H. unfold on_media. rewrite (blank_el_eq H).
  destruct c, k; reflexivity.
Qed.

Lemma jq_each_id s f cs :
  (forall c, In c cs -> matches s c = true -> f c = c) -> jq_each s f cs = cs.
Proof.
  intro H. unfold jq_each. induction cs as [|c cs IH]; [reflexivity|].
  cbn [map]. rewrite IH by (intros c0 H0; apply H; right; exact H0).
  destruct (matches s c) eqn:E; [|reflexivity].
  rewrite (H c (or_introl eq_refl) E). reflexivity.
Qed.

Lemma jq_first_id s f cs :
  (forall c, In c cs -> matches s c = true -> f c = c) -> jq_first s f cs = cs.
Proof.
  intro H. induction cs as [|c cs IH]; [reflexivity|].
  cbn [jq_first]. destruct (matches s c) eqn:E.
  - rewrite (H c (or_introl eq_refl) E). reflexivity.
  - rewrite IH by (intros c0 H0; apply H; right; exact H0). reflexivity.
Qed.

(** On thumbnails whose element is blank, attaching and then detaching
    gives back the thumbnails. *)
Lemma thumb_detached_attached trk s cs :
  (forall c, In c cs -> el_id c = s -> blank_el (media_el (kind trk) c)) ->
  thumb_detached trk s (thumb_attached trk s cs) = cs.
Proof.
  intro Hb. unfold thumb_detached, thumb_attached.
  rewrite (@jq_each_first s (on_media (kind trk) (set_opacity (Some "0")))
             (on_media (kind trk) (sdk_attach trk)));
    try apply on_media_keeps_id; [|intro c; destruct (kind trk); reflexivity].
  rewrite !jq_first_first, jq_each_each by apply on_media_keeps_id.
  assert (Hblank : forall c, In c cs -> matches s c = true ->
                             blank_el (media_el (kind trk) c)).
  { intros c Hc E. apply Hb; [exact Hc | apply String.eqb_eq, E]. }
  rewrite (@jq_each_id s _ cs).
  - apply jq_first_id. intros c Hc E. destruct (Hblank c Hc E) as [_ Hs].
    destruct c as [i d cl [ao asrc am] [vo vsrc vm] cp].
    destruct (kind trk); cbn in *; subst; reflexivity.
  - intros c Hc E. destruct (Hblank c Hc E) as [Ho _].
    destruct c as [i d cl [ao asrc am] [vo vsrc vm] cp].
    destruct (kind trk); cbn in *; subst; reflexivity.
Qed.

(** X6. A track is attached and then detached, for a participant all of
    whose thumbnails have a blank element of the track's kind: the
    thumbnails are exactly as before, neither call throws, and the main
    video, if the track went there, ends blank. *)
Theorem attach_then_detach_restores_thumbnails :
  forall trk p st,
    jq_get0 (sid (heap st p)) (participantsDiv (page st)) <> None ->
    thumbnails_blank (kind trk) (sid (heap st p)) st ->
    let st1 := exec (attachTrack trk p) st in
    let st2 := exec (detachTrack trk p) st1 in
    result (attachTrack trk p) st = Ok tt
    /\ result (detachTrack trk p) st1 = Ok tt
    /\ participantsDiv (page st2) = participantsDiv (page st)
    /\ (kind trk = video /\ activeParticipant st = Some p -> blank_el (main_video st2))
    /\ (~ (kind trk = video /\ activeParticipant st = Some p) ->
        main_video st2 = main_video st).
Proof.
  intros trk p st Hne Hb. cbn zeta.
  destruct (jq_get0 (sid (heap st p)) (participantsDiv (page st)))
    as [c|] eqn:Hc; [clear Hne|congruence].
  split; [apply (safe_unit _ (attachTrack_safe trk p))|].
  assert (Hh : heap (exec (attachTrack trk p) st) = heap st)
    by (apply exec_keeps, attachTrack_keeps; auto with js).
  assert (Ha : activeParticipant (exec (attachTrack trk p) st) = activeParticipant st)
    by (apply exec_keeps, attachTrack_keeps; auto with js).
  assert (Hdiv : participantsDiv (page (exec (attachTrack trk p) st))
                 = thumb_attached trk (sid (heap st p)) (participantsDiv (page st))).
  { rewrite attachTrack_exec. cbn zeta.
    destruct (kind_eqb (kind trk) video && ref_is (activeParticipant st) p);
      reflexivity. }
  assert (Hc1 : exists c1, jq_get0 (sid (heap (exec (attachTrack trk p) st) p))
                   (participantsDiv (page (exec (attachTrack trk p) st))) = Some c1).
  { rewrite Hh, Hdiv. unfold thumb_attached.
    rewrite jq_get0_first, jq_get0_each, Hc by apply on_media_keeps_id.
    eexists. reflexivity. }
  destruct Hc1 as [c1 Hc1].
  destruct (@detachTrack_present trk p _ c1 Hc1) as [Hres Hex].
  split; [exact Hres|]. rewrite Hex. cbn zeta. rewrite Hh, Ha.
  pose proof (main_condition trk p st) as Hcond.
  assert (Hmain : main_video (exec (attachTrack trk p) st)
                  = if kind_eqb (kind trk) video && ref_is (activeParticipant st) p
                    then main_attached trk (main_video st) else main_video st).
  { rewrite attachTrack_exec. cbn zeta.
    destruct (kind_eqb (kind trk) video && ref_is (activeParticipant st) p);
      reflexivity. }
  destruct (kind_eqb (kind trk) video && ref_is (activeParticipant st) p).
  - cbn [page participantsDiv on_activeVideo on_participantsDiv on_page set_page
           set_activeVideo set_participantsDiv].
    rewrite Hdiv. split; [apply thumb_detached_attached, Hb|]. split.
    + intros _. split; reflexivity.
    + intro Hn. exfalso. apply Hn, Hcond. reflexivity.
  - cbn [page participantsDiv on_participantsDiv on_page set_page set_participantsDiv].
    rewrite Hdiv. split; [apply thumb_detached_attached, Hb|]. split.
    + intro H. apply Hcond in H. discriminate H.
    + intros _. exact Hmain.
Qed.

Lemma attach_then_detach_witness :
  jq_get0 (sid (heap trio 1)) (participantsDiv (page trio)) <> None
  /\ thumbnails_blank audio (sid (heap trio 1)) trio
  /\ participantsDiv
       (page (exec (detachTrack microphone 1) (exec (attachTrack microphone 1) trio)))
     = participantsDiv (page trio).
Proof.
  assert (H1 : jq_get0 (sid (heap trio 1)) (participantsDiv (page trio)) <> None)
    by (vm_compute; discriminate).
  assert (H2 : thumbnails_blank (kind microphone) (sid (heap trio 1)) trio)
    by (apply thumbnails_blankb_ok; vm_compute; reflexivity).
  split; [exact H1|]. split; [exact H2|].
  exact (proj1 (proj2 (proj2
           (@attach_then_detach_restores_thumbnails microphone 1 trio H1 H2)))).
Defined.

(** X7. [detachTrack] blanks the element it is given, whatever that element
    shows: the first thumbnail element of the track's kind ends hidden
    and without a stream even when the detached track was not the one it
    showed, and so does the main video when the track is a video track of
    the active participant. *)
Theorem detachTrack_blanks_the_element :
  forall trk p st,
    jq_get0 (sid (heap st p)) (participantsDiv (page st)) <> None ->
    let st' := exec (detachTrack trk p) st in
    (exists c', jq_get0 (sid (heap st p)) (participantsDiv (page st')) = Some c'
                /\ blank_el (media_el (kind trk) c'))
    /\ (kind trk = video /\ activeParticipant st = Some p ->
        blank_el (main_video st')).
Proof.
  intros trk p st Hne. cbn zeta.
  destruct (jq_get0 (sid (heap st p)) (participantsDiv (page st)))
    as [c|] eqn:Hc; [clear Hne|congruence].
  destruct (@detachTrack_present trk p st c Hc) as [_ Hex]. rewrite Hex. cbn zeta.
  assert (Hthumb : exists c',
             jq_get0 (sid (heap st p))
               (thumb_detached trk (sid (heap st p)) (participantsDiv (page st)))
             = Some c' /\ blank_el (media_el (kind trk) c')).
  { unfold thumb_detached.
    rewrite !jq_get0_first, jq_get0_each, Hc by apply on_media_keeps_id.
    eexists. split; [reflexivity|]. destruct (kind trk); split; reflexivity. }
  pose proof (main_condition trk p st) as Hcond.
  destruct (kind_eqb (kind trk) video && ref_is (activeParticipant st) p).
  - split; [exact Hthumb|]. intros _. split; reflexivity.
  - split; [exact Hthumb|]. intro H. apply Hcond in H. discriminate H.
Qed.

Lemma detachTrack_blanks_witness :
  jq_get0 (sid (heap trio 1)) (participantsDiv (page trio)) <> None
  /\ (exists c, jq_get0 (sid (heap trio 1)) (participantsDiv (page trio)) = Some c
                /\ shows (remote_video 3) (media_el video c))
  /\ exists c', jq_get0 (sid (heap trio 1))
                  (participantsDiv (page (exec (detachTrack (remote_video 9) 1) trio)))
                = Some c'
                /\ blank_el (media_el (kind (remote_video 9)) c').
Proof.
  assert (H1 : jq_get0 (sid (heap trio 1)) (participantsDiv (page trio)) <> None)
    by (vm_compute; discriminate).
  split; [exact H1|]. split.
  - eexists. split; [vm_compute; reflexivity|]. vm_compute. left. reflexivity.
  - exact (proj1 (@detachTrack_blanks_the_element (remote_video 9) 1 trio H1)).
Defined.

(* ------------------------------------------------------------------ *)
(** ** The network quality report *)

Lemma jq_get0_none_matches s cs c :
  jq_get0 s cs = None -> In c cs -> matches s c = false.
Proof.
  unfold jq_get0. intros H Hc. exact (find_none _ _ H c Hc).
Qed.

Lemma on_participantsDiv_fix g st :
  g (participantsDiv (page st)) = participantsDiv (page st) ->
  on_participantsDiv g st = st.
Proof.
  intro H. unfold on_participantsDiv, on_page, set_page, set_participantsDiv.
  rewrite H. destruct st as [a f pg h r l c v n j]. destruct pg. reflexivity.
Qed.

(** X8. [updateNetworkQualityReport] never throws.  Without a thumbnail for
    the participant it changes nothing at all.  With one, it replaces
    the label of the first such thumbnail by the quality text (the level
    printed in decimal, or "null" before the first report); in both cases
    ids, classes, the active participant and the pin flag stay as they
    were. *)
Theorem updateNetworkQualityReport_writes_first_label :
  forall p st,
    let st' := exec (updateNetworkQualityReport p) st in
    result (updateNetworkQualityReport p) st = Ok tt
    /\ match jq_get0 (sid (heap st p)) (participantsDiv (page st)) with
       | None => st' = st
       | Some c =>
           jq_get0 (sid (heap st p)) (participantsDiv (page st'))
           = Some (set_data_identity (quality_text (heap st p)) c)
       end
    /\ highlighting st' = highlighting st.
Proof.
  intros p st. cbn zeta.
  split; [exact (@safe_unit (updateNetworkQualityReport p) st (updateNetworkQualityReport_safe p))|].
  split.
  - destruct (jq_get0 (sid (heap st p)) (participantsDiv (page st))) as [c|] eqn:Hc.
    + change (participantsDiv (page (exec (updateNetworkQualityReport p) st)))
        with (jq_first (sid (heap st p))
                (set_data_identity (quality_text (heap st p)))
                (participantsDiv (page st))).
      rewrite jq_get0_first by (intro; reflexivity). rewrite Hc. reflexivity.
    + change (exec (updateNetworkQualityReport p) st)
        with (on_participantsDiv
                (jq_first (sid (heap st p))
                   (set_data_identity (quality_text (heap st p)))) st).
      apply on_participantsDiv_fix.
      apply jq_first_id. intros c Hin E.
      rewrite (@jq_get0_none_matches _ _ c Hc Hin) in E. discriminate E.
  - apply (updateNetworkQualityReport_highlighting p).
Qed.

(* ------------------------------------------------------------------ *)
(** ** What [joinRoom] sets up *)

(** X9. [joinRoom] when [connect] is rejected: the promise it returned is
    rejected with the same error; the logger level and the connect
    request (network quality verbosity 3 and 3) are the only SDK calls;
    the page, the listeners, the room and the module's variables are
    untouched. *)
Theorem joinRoom_connect_rejected :
  forall isMobile token e st,
    let st' := joinRoom isMobile token (inl e) st in
    joinPromise st' = Rejected e
    /\ calls st' = calls st ++ [CLoggerSetLevel "debug"; CConnect token 3 3]
    /\ page st' = page st
    /\ listeners st' = listeners st
    /\ room st' = room st
    /\ selection st' = selection st.
Proof.
  intros isMobile token e st. cbn zeta.
  assert (E : joinRoom isMobile token (inl e) st
              = set_joinPromise (Rejected e)
                  (log (CConnect token 3 3) (log (CLoggerSetLevel "debug") st)))
    by reflexivity.
  rewrite E. unfold log. cbn [joinPromise calls page listeners room selection
    set_joinPromise set_calls]. rewrite <- app_assoc.
  repeat split.
Qed.

Lemma forEach_participantConnected_nodes ps : forall st,
  plain_among (heap st) ps = true ->
  nodes (exec (forEach participantConnected ps) st)
  = nodes st ++ map (fun q => sid (heap st q)) ps.
Proof.
  induction ps as [|p ps IH]; intros st Hp; cbn [forEach map].
  - symmetry. apply app_nil_r.
  - unfold plain_among in Hp. cbn [forallb] in Hp.
    apply andb_true_iff in Hp. destruct Hp as [Hp Hps].
    assert (Hh : heap (exec (participantConnected p) st) = heap st)
      by (apply exec_keeps, participantConnected_keeps; auto with js).
    rewrite exec_safe by auto with js.
    rewrite IH by (rewrite Hh; exact Hps).
    rewrite participantConnected_nodes by exact Hp.
    rewrite Hh. rewrite <- app_assoc. reflexivity.
Qed.

Lemma forEach_participantConnected_listeners ps : forall st,
  listeners (exec (forEach participantConnected ps) st)
  = listeners st ++ flat_map (participant_listeners (heap st)) ps.
Proof.
  induction ps as [|p ps IH]; intro st; cbn [forEach flat_map].
  - symmetry. apply app_nil_r.
  - rewrite exec_safe by auto with js. rewrite IH, participantConnected_listeners.
    rewrite (exec_keeps (f := heap)) by (apply participantConnected_keeps; auto with js).
    rewrite <- app_assoc. reflexivity.
Qed.

Lemma updateNetworkQualityReport_nodes p : keeps nodes (updateNetworkQualityReport p).
Proof.
  intro st.
  change (snd (updateNetworkQualityReport p st))
    with (on_participantsDiv
            (jq_first (sid (heap st p)) (set_data_identity (quality_text (heap st p)))) st).
  unfold nodes. cbn. apply jq_first_ids. intro c. reflexivity.
Qed.

Lemma setupNetworkQualityUpdates_nodes : keeps nodes setupNetworkQualityUpdates.
Proof.
  unfold setupNetworkQualityUpdates, setupNetworkQualityUpdatesForParticipant.
  pose proof updateNetworkQualityReport_nodes. run_m.
Qed.

Lemma after_selection_nodes isMobile : keeps nodes (after_selection isMobile).
Proof.
  unfold after_selection. pose proof setupNetworkQualityUpdates_nodes. run_m.
Qed.

Lemma setupNetworkQualityUpdatesForParticipant_listeners p st :
  listeners (exec (setupNetworkQualityUpdatesForParticipant p) st)
  = listeners st ++ [OnNetworkQualityLevelChanged p].
Proof. reflexivity. Qed.

Lemma forEach_setupNetworkQualityUpdates_listeners ps : forall st,
  listeners (exec (forEach setupNetworkQualityUpdatesForParticipant ps) st)
  = listeners st ++ map OnNetworkQualityLevelChanged ps.
Proof.
  induction ps as [|p ps IH]; intro st; cbn [forEach map].
  - symmetry. apply app_nil_r.
  - rewrite exec_safe by auto with js.
    rewrite IH, setupNetworkQualityUpdatesForParticipant_listeners.
    rewrite <- app_assoc. reflexivity.
Qed.

Lemma setupNetworkQualityUpdates_listeners st :
  listeners (exec setupNetworkQualityUpdates st)
  = listeners st ++ map OnNetworkQualityLevelChanged (everyone (room st))
      ++ [OnParticipantConnectedNQ].
Proof.
  unfold setupNetworkQualityUpdates, everyone. rewrite exec_gets.
  rewrite exec_safe by auto with js.
  rewrite exec_safe by (apply safe_forEach; auto with js).
  change (exec (modify ?g) ?s) with (g s). unfold register.
  cbn [listeners set_listeners].
  rewrite forEach_setupNetworkQualityUpdates_listeners,
    setupNetworkQualityUpdatesForParticipant_listeners.
  cbn [map]. rewrite <- !app_assoc. reflexivity.
Qed.

Lemma after_selection_listeners isMobile st :
  listeners (exec (after_selection isMobile) st)
  = listeners st ++ [OnDominantSpeakerChanged]
      ++ map OnNetworkQualityLevelChanged (everyone (room st))
      ++ [OnParticipantConnectedNQ; OnceDisconnected].
Proof.
  unfold after_selection. rewrite exec_modify.
  rewrite exec_safe by auto with js. rewrite !exec_modify.
  rewrite exec_safe by (destruct isMobile; run_m).
  change (exec (modify ?g) ?s) with (g s). unfold register at 1.
  cbn [listeners set_listeners].
  rewrite (exec_keeps (f := listeners)) by (destruct isMobile; run_m).
  cbn [listeners on_page set_page].
  rewrite setupNetworkQualityUpdates_listeners.
  unfold register. cbn [listeners set_listeners room].
  rewrite <- !app_assoc. reflexivity.
Qed.

Lemma joinRoom_nodes isMobile token rm st publication vts :
  videoTracks (heap st (localParticipant rm)) = publication :: vts ->
  plain_among (heap st) (everyone rm) = true ->
  nodes (joinRoom isMobile token (inr rm) st)
  = nodes st ++ map (fun q => sid (heap st q)) (everyone rm).
Proof.
  intros Hv Hp. unfold plain_among, everyone in Hp. cbn [forallb] in Hp.
  apply andb_true_iff in Hp. destruct Hp as [Hloc Hps].
  rewrite (@joinRoom_exec isMobile token rm st publication vts Hv).
  change (nodes (set_joinPromise ?v ?s)) with (nodes s).
  rewrite (exec_keeps (f := nodes)) by apply after_selection_nodes.
  rewrite (exec_keeps (f := nodes)) by apply setCurrentActiveParticipant_nodes.
  unfold before_selection.
  do 2 change (nodes (register ?l ?s)) with (nodes s).
  match goal with
  | |- context [exec (participantConnected (localParticipant rm)) ?s] =>
      set (s0 := s)
  end.
  assert (Hh0 : heap s0 = heap st) by reflexivity.
  assert (Hh : heap (exec (participantConnected (localParticipant rm)) s0) = heap st)
    by (rewrite (exec_keeps (f := heap))
          by (apply participantConnected_keeps; auto with js);
        exact Hh0).
  rewrite forEach_participantConnected_nodes by (rewrite Hh; exact Hps).
  rewrite participantConnected_nodes by (rewrite Hh0; exact Hloc).
  rewrite Hh, Hh0. change (nodes s0) with (nodes st).
  unfold everyone. cbn [map]. rewrite <- app_assoc. reflexivity.
Qed.

Lemma joinRoom_listeners isMobile token rm st publication vts :
  videoTracks (heap st (localParticipant rm)) = publication :: vts ->
  listeners (joinRoom isMobile token (inr rm) st) = joined_listeners (heap st) rm.
Proof.
  intro Hv. rewrite (@joinRoom_exec isMobile token rm st publication vts Hv).
  change (listeners (set_joinPromise ?v ?s)) with (listeners s).
  rewrite after_selection_listeners.
  rewrite (exec_keeps (f := listeners))
    by (apply setCurrentActiveParticipant_keeps; auto with js).
  rewrite (exec_keeps (f := room))
    by (apply setCurrentActiveParticipant_keeps; auto with js).
  rewrite (before_selection_keeps (f := room)) by auto with js.
  cbn [room set_localVideoTrack set_room].
  unfold before_selection, register. cbn [listeners set_listeners].
  rewrite forEach_participantConnected_listeners, participantConnected_listeners.
  rewrite (exec_keeps (f := heap)) by (apply participantConnected_keeps; auto with js).
  cbn [listeners heap on_page set_page set_localVideoTrack set_listeners set_room
         log set_calls app].
  unfold joined_listeners, everyone. cbn [flat_map].
  rewrite <- !app_assoc. reflexivity.
Qed.

Lemma filter_participant_listeners (t : Listener -> bool) h ps :
  (forall s p, t (OnSubscribed s p) = false) ->
  (forall s p, t (OnUnsubscribed s p) = false) ->
  (forall p, t (OnTrackPublished p) = false) ->
  filter t (flat_map (participant_listeners h) ps) = [].
Proof.
  intros H1 H2 H3. induction ps as [|p ps IH]; [reflexivity|].
  cbn [flat_map]. rewrite filter_app, IH, app_nil_r.
  unfold participant_listeners. rewrite filter_app. cbn [filter]. rewrite H3.
  rewrite app_nil_r. induction (tracks (h p)) as [|pub pubs IHp]; [reflexivity|].
  cbn [flat_map publication_listeners app filter]. rewrite H1, H2. exact IHp.
Qed.

Lemma filter_quality_listeners (t : Listener -> bool) ps :
  (forall p, t (OnNetworkQualityLevelChanged p) = false) ->
  filter t (map OnNetworkQualityLevelChanged ps) = [].
Proof.
  intro H. induction ps as [|p ps IH]; [reflexivity|].
  cbn [map filter]. rewrite H. exact IH.
Qed.

(** X10. After a [joinRoom] that got past its read of the local video
    publication, in a room whose participants have plain identities: one
    thumbnail per participant has been appended, the local participant's
    first and the remote ones in the room's order; the listeners on the
    room's objects are exactly those of [joined_listeners], so the
    [dominantSpeakerChanged] and the [disconnected] listener are each
    registered once. *)
Theorem joinRoom_thumbnails_and_listeners :
  forall isMobile token rm st,
    videoTracks (heap st (localParticipant rm)) <> [] ->
    plain_among (heap st) (everyone rm) = true ->
    let st' := joinRoom isMobile token (inr rm) st in
    nodes st' = nodes st ++ map (fun q => sid (heap st q)) (everyone rm)
    /\ listeners st' = joined_listeners (heap st) rm
    /\ filter is_dominant (listeners st') = [OnDominantSpeakerChanged]
    /\ filter is_once (listeners st') = [OnceDisconnected].
Proof.
  intros isMobile token rm st Hv Hp. cbn zeta.
  destruct (videoTracks (heap st (localParticipant rm)))
    as [|publication vts] eqn:Hvt; [congruence|].
  rewrite (@joinRoom_nodes isMobile token rm st publication vts Hvt Hp).
  rewrite (@joinRoom_listeners isMobile token rm st publication vts Hvt).
  split; [reflexivity|]. split; [reflexivity|].
  unfold joined_listeners. rewrite !filter_app.
  rewrite !filter_participant_listeners, !filter_quality_listeners
    by (intros; reflexivity).
  split; reflexivity.
Qed.

Lemma joinRoom_thumbnails_and_listeners_witness :
  videoTracks (heap (initial people) (localParticipant (room_of [1; 2]))) <> []
  /\ plain_among (heap (initial people)) (everyone (room_of [1; 2])) = true
  /\ nodes trio = ["PA0"; "PA1"; "PA2"]
  /\ listeners trio = joined_listeners people (room_of [1; 2])
  /\ filter is_dominant (listeners trio) = [OnDominantSpeakerChanged]
  /\ filter is_once (listeners trio) = [OnceDisconnected].
Proof.
  assert (Hv : videoTracks (heap (initial people) (localParticipant (room_of [1; 2])))
               <> []) by discriminate.
  split; [exact Hv|]. split; [reflexivity|].
  exact (@joinRoom_thumbnails_and_listeners false "token" (room_of [1; 2])
           (initial people) Hv eq_refl).
Defined.

Lemma participantConnected_hooks p : keeps hooks (participantConnected p).
Proof.
  unfold participantConnected, setupParticipantContainer, trackPublished, attachTrack.
  run_m.
Qed.

Lemma setupNetworkQualityUpdates_hooks : keeps hooks setupNetworkQualityUpdates.
Proof.
  unfold setupNetworkQualityUpdates, setupNetworkQualityUpdatesForParticipant,
    updateNetworkQualityReport.
  run_m.
Qed.

Lemma joinRoom_frame {B} (f : State -> B) isMobile token rm st publication vts :
  videoTracks (heap st (localParticipant rm)) = publication :: vts ->
  ignores_page f -> ignores_listeners f -> ignores_active f ->
  (forall v s, f (set_joinPromise v s) = f s) ->
  f (joinRoom isMobile token (inr rm) st)
  = f (set_localVideoTrack (track publication)
         (set_room rm (log (CConnect token 3 3)
                         (log (CLoggerSetLevel "debug") st)))).
Proof.
  intros Hv Hp Hl Ha Hj.
  rewrite (@joinRoom_exec isMobile token rm st publication vts Hv).
  rewrite Hj.
  rewrite exec_keeps by (apply after_selection_keeps; assumption).
  rewrite exec_keeps by (apply setCurrentActiveParticipant_keeps; assumption).
  apply before_selection_keeps; assumption.
Qed.

Lemma joinRoom_hooks isMobile token rm st publication vts :
  videoTracks (heap st (localParticipant rm)) = publication :: vts ->
  hooks (joinRoom isMobile token (inr rm) st)
  = (true, true, Some HDisconnect,
     (if isMobile then Some HDisconnect else onpagehide (page st)),
     (if isMobile then Some HVisibilityChange else onvisibilitychange (page st)),
     true).
Proof.
  intro Hv.
  rewrite (@joinRoom_exec isMobile token rm st publication vts Hv).
  set (sb := before_selection token rm publication st).
  set (sc := exec setCurrentActiveParticipant sb).
  change (hooks (set_joinPromise ?v ?s)) with (hooks s).
  assert (Hb : hooks sc = (leaveClick (page st), startScreenClick (page st),
                           onbeforeunload (page st), onpagehide (page st),
                           onvisibilitychange (page st), true)).
  { unfold sc, setCurrentActiveParticipant. rewrite exec_gets.
    rewrite (exec_keeps (f := hooks)) by apply setActiveParticipant_hooks.
    unfold sb, before_selection.
    do 2 change (hooks (register ?l ?s)) with (hooks s).
    rewrite (exec_keeps (f := hooks))
      by (apply keeps_forEach; intro; apply participantConnected_hooks).
    rewrite (exec_keeps (f := hooks)) by apply participantConnected_hooks.
    reflexivity. }
  unfold after_selection. rewrite exec_modify.
  rewrite exec_safe by auto with js. rewrite !exec_modify.
  assert (Hn : hooks (exec setupNetworkQualityUpdates
                        (register OnDominantSpeakerChanged sc))
               = hooks sc)
    by (rewrite (exec_keeps (f := hooks)) by apply setupNetworkQualityUpdates_hooks;
        reflexivity).
  unfold hooks in Hn, Hb |- *. rewrite Hb in Hn. injection Hn as H1 H2 H3 H4 H5 H6.
  set (sn := exec setupNetworkQualityUpdates
               (register OnDominantSpeakerChanged sc)) in *.
  clearbody sn. clear Hb. clearbody sc.
  destruct isMobile; rewrite exec_safe by run_m.
  + rewrite exec_modify. cbn. rewrite H6. reflexivity.
  + cbn. rewrite H4, H5, H6. reflexivity.
Qed.

(** X11. What else a successful [joinRoom] leaves: the logger level and the
    connect request are the only SDK calls; the local video track saved
    is the track of the first local video publication; the Leave and
    screen-share buttons are bound, [window.room] is set and
    [onbeforeunload] disconnects; [onpagehide] and [onvisibilitychange]
    are installed on mobile browsers and left as they were on the
    others; the promise is pending. *)
Theorem joinRoom_hooks_and_calls :
  forall isMobile token rm st publication vts,
    videoTracks (heap st (localParticipant rm)) = publication :: vts ->
    let st' := joinRoom isMobile token (inr rm) st in
    calls st' = calls st ++ [CLoggerSetLevel "debug"; CConnect token 3 3]
    /\ localVideoTrack st' = track publication
    /\ hooks st'
       = (true, true, Some HDisconnect,
          (if isMobile then Some HDisconnect else onpagehide (page st)),
          (if isMobile then Some HVisibilityChange
           else onvisibilitychange (page st)),
          true)
    /\ joinPromise st' = Pending.
Proof.
  intros isMobile token rm st publication vts Hv. cbn zeta.
  split; [|split; [|split]].
  - rewrite (@joinRoom_frame _ calls isMobile token rm st publication vts Hv)
      by (auto with js; reflexivity).
    unfold log. cbn [calls set_calls set_localVideoTrack set_room].
    rewrite <- app_assoc. reflexivity.
  - rewrite (@joinRoom_frame _ localVideoTrack isMobile token rm st publication vts Hv)
      by (auto with js; reflexivity).
    reflexivity.
  - exact (@joinRoom_hooks isMobile token rm st publication vts Hv).
  - rewrite (@joinRoom_exec isMobile token rm st publication vts Hv). reflexivity.
Qed.

Lemma joinRoom_hooks_and_calls_witness :
  videoTracks (heap (initial people) (localParticipant (room_of [1; 2])))
  = {| trackSid := "MT1"; pub_kind := video; track := Some camera |} :: []
  /\ calls trio = [CLoggerSetLevel "debug"; CConnect "token" 3 3]
  /\ localVideoTrack trio = Some camera
  /\ hooks trio = (true, true, Some HDisconnect, None, None, true)
  /\ joinPromise trio = Pending.
Proof.
  split; [reflexivity|].
  exact (@joinRoom_hooks_and_calls false "token" (room_of [1; 2]) (initial people)
           _ _ eq_refl).
Defined.

(* ------------------------------------------------------------------ *)
(** ** Joining and then leaving *)





Section Leaving.

Variable isMobile : bool.





End Leaving.

Lemma settle_frame {B} (f : State -> B) v st :
  (forall w s, f (set_joinPromise w s) = f s) -> f (settle v st) = f st.
Proof. intro H. unfold settle. destruct (joinPromise st); auto. Qed.


(** The [onLeave] handlers of earlier joins are counted apart from the
    rest of the page. *)
Lemma setActiveParticipant_earlier p :
  keeps (fun st => leaveClickEarlier (page st)) (setActiveParticipant p).
Proof. unfold setActiveParticipant. run_m. Qed.

Lemma participantDisconnected_earlier p :
  keeps (fun st => leaveClickEarlier (page st)) (participantDisconnected p).
Proof.
  unfold participantDisconnected, setCurrentActiveParticipant.
  pose proof setActiveParticipant_earlier. run_m.
Qed.



Lemma keeps_leave_handlers {A} (c : M A) :
  keeps hooks c -> keeps (fun st => leaveClickEarlier (page st)) c ->
  keeps leave_handlers c.
Proof.
  intros Hh He st. specialize (Hh st). specialize (He st).
  unfold hooks in Hh. injection Hh as H1 _ _ _ _ _.
  unfold leave_handlers. cbn beta in He. rewrite H1, He. reflexivity.
Qed.

Lemma leave_handlers_none st :
  leave_handlers st = 0 ->
  leaveClick (page st) = false /\ leaveClickEarlier (page st) = 0.
Proof.
  unfold leave_handlers. destruct (leaveClick (page st)); [discriminate|].
  intro H. split; [reflexivity | exact H].
Qed.





(* ------------------------------------------------------------------ *)
(** ** The Leave button and the visibility of the page *)

Lemma settle_leave_handlers v st : leave_handlers (settle v st) = leave_handlers st.
Proof. apply settle_frame. reflexivity. Qed.

Section LeaveOnce.

Variable isMobile : bool.

Lemma onDisconnected_leave_handlers error :
  keeps leave_handlers (onDisconnected isMobile error).
Proof.
  unfold onDisconnected.
  pose proof (fun p => keeps_leave_handlers (participantDisconnected_hooks p)
                         (participantDisconnected_earlier p)).
  pose proof settle_leave_handlers.
  destruct isMobile; run_m.
Qed.

Lemma room_disconnect_leave_handlers :
  keeps leave_handlers (room_disconnect isMobile).
Proof.
  unfold room_disconnect, emit.
  assert (H : forall l, keeps leave_handlers (deliver isMobile (disconnected_ None) l)).
  { intro l. rewrite deliver_disconnected.
    pose proof (onDisconnected_leave_handlers None). destruct l; run_m. }
  run_m.
Qed.

End LeaveOnce.

(** X13. [onLeave] unbinds itself before it disconnects: whatever the
    disconnect does, no [onLeave] is bound after a click on the Leave
    button, and a second click neither throws nor changes anything. *)
Theorem leave_button_works_once :
  forall isMobile st,
    let st1 := exec (step isMobile EvLeaveClick) st in
    leave_bound st1 = false
    /\ result (step isMobile EvLeaveClick) st1 = Ok tt
    /\ exec (step isMobile EvLeaveClick) st1 = st1.
Proof.
  intros isMobile st. cbn zeta.
  assert (H : leave_handlers (exec (step isMobile EvLeaveClick) st) = 0).
  { cbn [step]. rewrite exec_gets.
    rewrite exec_safe by apply times_onLeave_earlier_safe.
    pose proof (@times_onLeave_earlier_left (leaveClickEarlier (page st)) st eq_refl)
      as H0.
    set (s1 := exec (times (leaveClickEarlier (page st)) onLeave_earlier) st) in *.
    clearbody s1. rewrite exec_gets.
    destruct (leaveClick (page s1)) eqn:E.
    - unfold onLeave. rewrite exec_modify.
      rewrite (exec_keeps (f := leave_handlers))
        by apply room_disconnect_leave_handlers.
      unfold leave_handlers. cbn. exact H0.
    - unfold leave_handlers.
      change (exec (ret tt) s1) with s1. rewrite E. exact H0. }
  set (st1 := exec (step isMobile EvLeaveClick) st) in *. clearbody st1.
  split; [unfold leave_bound; rewrite H; reflexivity|].
  destruct (leave_handlers_none st1 H) as [Hb He].
  cbn [step]. rewrite result_gets, exec_gets. rewrite He. cbn [times].
  rewrite result_safe, exec_safe by apply safe_ret.
  change (exec (ret tt) st1) with st1.
  rewrite result_gets, exec_gets. rewrite Hb. split; reflexivity.
Qed.

Lemma jq_get0_nodes s cs : jq_get0 s cs <> None <-> In s (map el_id cs).
Proof.
  unfold jq_get0, matches. induction cs as [|c cs IH]; cbn [find map In].
  - split; [congruence | intros []].
  - destruct (String.eqb_spec (el_id c) s) as [E|E].
    + split; [intros _; left; exact E | discriminate].
    + rewrite IH. split; [intro H; right; exact H | intros [H|H]; [congruence | exact H]].
Qed.

Lemma attachTrack_rendered trk p st :
  In (sid (heap st p)) (nodes st) ->
  rendered_in_thumbnail trk (sid (heap st p)) (exec (attachTrack trk p) st).
Proof.
  intro Hin. apply jq_get0_nodes in Hin.
  destruct (jq_get0 (sid (heap st p)) (participantsDiv (page st)))
    as [c|] eqn:Hc; [clear Hin|congruence].
  rewrite attachTrack_exec. cbn zeta.
  assert (Hthumb : rendered_in_thumbnail trk (sid (heap st p))
                     (on_participantsDiv (thumb_attached trk (sid (heap st p))) st)).
  { unfold rendered_in_thumbnail.
    cbn [page participantsDiv on_participantsDiv on_page set_page set_participantsDiv].
    unfold thumb_attached.
    rewrite jq_get0_first, jq_get0_each, Hc by apply on_media_keeps_id.
    eexists. split; [reflexivity|]. destruct (kind trk); cbn.
    - split; [apply in_or_app; right; left; reflexivity | reflexivity].
    - split; [apply in_or_app; right; left; reflexivity | reflexivity]. }
  destruct (kind_eqb (kind trk) video && ref_is (activeParticipant st) p);
    exact Hthumb.
Qed.

Lemma trackPublished_rendered publication trk p st :
  track publication = Some trk ->
  In (sid (heap st p)) (nodes st) ->
  rendered_in_thumbnail trk (sid (heap st p))
    (exec (trackPublished publication p) st).
Proof.
  intros Ht Hin. unfold trackPublished. rewrite Ht.
  rewrite exec_safe by auto with js. rewrite exec_modify.
  change (exec (modify ?g) ?s) with (g s).
  exact (@attachTrack_rendered trk p st Hin).
Qed.

Section Visibility.

Variable isMobile : bool.

Lemma onDisconnected_calls error st lt :
  localVideoTrack st = Some lt ->
  calls (exec (onDisconnected isMobile error) st) = calls st ++ [CStop lt].
Proof.
  intro Hl. destruct (@onDisconnected_exec isMobile error st lt Hl) as [_ Hex].
  rewrite Hex. rewrite settle_frame by reflexivity.
  change (calls (on_page (set_window_room false)
                   (on_activeVideo (set_srcObject None) ?y)))
    with (calls y).
  rewrite (exec_keeps (f := calls))
    by (apply keeps_forEach; intro; apply participantDisconnected_keeps;
        auto with js).
  rewrite (exec_keeps (f := calls))
    by (apply participantDisconnected_keeps; auto with js).
  unfold unhooked. destruct isMobile; reflexivity.
Qed.

(** The listeners that hear [trackPublished] of [p] are the ones
    [participantConnected] registered for [p]. *)
Lemma deliver_trackPublished p publication l :
  deliver isMobile (trackPublished_ p publication) l
  = match l with
    | OnTrackPublished q =>
        if Nat.eqb q p then ret tt ;; trackPublished publication q else ret tt
    | _ => ret tt
    end.
Proof.
  destruct l; try reflexivity.
  unfold deliver. cbn [handler]. destruct (Nat.eqb p0 p); reflexivity.
Qed.

Lemma trackPublished_delivered p publication trk ls :
  track publication = Some trk -> forall st,
  In (sid (heap st p)) (nodes st) ->
  rendered_in_thumbnail trk (sid (heap st p)) st
  \/ In (OnTrackPublished p) ls ->
  let st' := exec (forEach (deliver isMobile (trackPublished_ p publication)) ls) st in
  result (forEach (deliver isMobile (trackPublished_ p publication)) ls) st = Ok tt
  /\ rendered_in_thumbnail trk (sid (heap st p)) st'
  /\ heap st' = heap st.
Proof.
  intro Ht. induction ls as [|l ls IH]; intros st Hin Hcase; cbn zeta.
  - destruct Hcase as [H|[]]. repeat split. exact H.
  - cbn [forEach]. rewrite deliver_trackPublished.
    assert (Hskip : (rendered_in_thumbnail trk (sid (heap st p)) st
                     \/ In (OnTrackPublished p) ls) ->
              result (ret tt ;; forEach (deliver isMobile (trackPublished_ p publication)) ls) st
              = Ok tt
              /\ rendered_in_thumbnail trk (sid (heap st p))
                   (exec (ret tt ;; forEach (deliver isMobile
                                               (trackPublished_ p publication)) ls) st)
              /\ heap (exec (ret tt ;; forEach (deliver isMobile
                                                  (trackPublished_ p publication)) ls) st)
                 = heap st).
    { intro Hc. rewrite result_safe, exec_safe by apply safe_ret.
      exact (IH st Hin Hc). }
    destruct l;
      try (apply Hskip; destruct Hcase as [H|[H|H]];
           [left; exact H | discriminate H | right; exact H]).
    destruct (Nat.eqb_spec p0 p) as [->|Hne].
    + assert (Hs : safe (ret tt ;; trackPublished publication p))
        by (apply safe_bind; [apply safe_ret | intro; auto with js]).
      rewrite (result_safe (c := ret tt ;; trackPublished publication p)),
        (exec_safe (c := ret tt ;; trackPublished publication p)) by exact Hs.
      change (exec (ret tt ;; trackPublished publication p) st)
        with (exec (trackPublished publication p) st).
      set (s := exec (trackPublished publication p) st).
      assert (Hh : heap s = heap st)
        by (apply exec_keeps, trackPublished_keeps; auto with js).
      assert (Hn : nodes s = nodes st)
        by apply (trackPublished_nodes publication p st).
      assert (Hr : rendered_in_thumbnail trk (sid (heap s p)) s)
        by (rewrite Hh; apply trackPublished_rendered; assumption).
      assert (Hin' : In (sid (heap s p)) (nodes s)) by (rewrite Hh, Hn; exact Hin).
      destruct (IH s Hin' (or_introl Hr)) as (R1 & R2 & R3).
      rewrite Hh in R2. rewrite Hh in R3. repeat split; assumption.
    + apply Hskip. destruct Hcase as [H|[H|H]];
        [left; exact H | congruence | right; exact H].
Qed.

End Visibility.

(** X14. A page with the visibility hook of [joinRoom] goes to the
    background and comes back.  Hiding stops the saved local video track
    and unpublishes it, which takes its publication off the local
    participant; showing asks for a new track, and once it is there it
    is saved in place of the old one and [publishTrack] is called.  The
    page, the listeners, the active participant and the pin flag are as
    before, and the teardown of the room then stops the new track.  When
    the SDK reports the new publication, it is the last video
    publication of the local participant, and the [trackPublished]
    listener of the local participant, if it is registered and the
    thumbnail exists, renders the new track in the thumbnail. *)
Theorem visibility_cycle_replaces_local_video_track :
  forall isMobile st lt t error,
    onvisibilitychange (page st) = Some HVisibilityChange ->
    localVideoTrack st = Some lt ->
    let loc := localParticipant (room st) in
    let st1 := run isMobile [EvVisibilityChange true; EvVisibilityChange false;
                             EvLocalVideoTrackCreated (inr t)] st in
    calls st1 = calls st ++ [CStop lt; CUnpublishTrack lt;
                             CCreateLocalVideoTrack; CPublishTrack t]
    /\ localVideoTrack st1 = Some t
    /\ heap st1 = heap (on_participant loc (unpublish lt) st)
    /\ page st1 = page st
    /\ selection st1 = selection st
    /\ listeners st1 = listeners st
    /\ calls (exec (onDisconnected isMobile error) st1) = calls st1 ++ [CStop t]
    /\ (forall publication,
          track publication = Some t ->
          pub_kind publication = video ->
          In (OnTrackPublished loc) (listeners st) ->
          In (sid (heap st loc)) (nodes st) ->
          let st2 := exec (step isMobile (EvTrackPublished loc publication)) st1 in
          result (step isMobile (EvTrackPublished loc publication)) st1 = Ok tt
          /\ videoTracks (heap st2 loc)
             = without_track lt (videoTracks (heap st loc)) ++ [publication]
          /\ rendered_in_thumbnail t (sid (heap st loc)) st2).
Proof.
  intros isMobile st lt t error Hh Hl. cbn zeta.
  set (loc := localParticipant (room st)).
  assert (E : run isMobile [EvVisibilityChange true; EvVisibilityChange false;
                            EvLocalVideoTrackCreated (inr t)] st
              = set_localVideoTrack (Some t)
                  (set_calls (calls st ++ [CStop lt; CUnpublishTrack lt;
                                           CCreateLocalVideoTrack; CPublishTrack t])
                     (on_participant loc (unpublish lt) st))).
  { unfold run. cbn [fold_left].
    assert (E1 : exec (step isMobile (EvVisibilityChange true)) st
                 = on_participant loc (unpublish lt)
                     (log (CUnpublishTrack lt) (log (CStop lt) st))).
    { cbn [step]. rewrite exec_gets, Hh. unfold onVisibilityChange.
      rewrite exec_gets, Hl. reflexivity. }
    rewrite E1.
    assert (E2 : forall s, onvisibilitychange (page s) = Some HVisibilityChange ->
                   exec (step isMobile (EvVisibilityChange false)) s
                   = set_pendingVideo (S (pendingVideo s))
                       (log CCreateLocalVideoTrack s)).
    { intros s Hs. cbn [step]. rewrite exec_gets, Hs. reflexivity. }
    rewrite E2 by exact Hh.
    assert (E3 : forall s n, pendingVideo s = S n ->
                   exec (step isMobile (EvLocalVideoTrackCreated (inr t))) s
                   = log (CPublishTrack t)
                       (set_localVideoTrack (Some t) (set_pendingVideo n s))).
    { intros s n Hs. cbn [step]. unfold onLocalVideoTrackCreated.
      rewrite exec_gets, Hs. reflexivity. }
    rewrite (E3 _ (pendingVideo st)) by reflexivity.
    unfold log, on_participant, loc. destruct st as [a f pg h r l c v n j].
    cbn. rewrite <- !app_assoc. reflexivity. }
  rewrite E. clear E.
  set (st1 := set_localVideoTrack (Some t)
                (set_calls (calls st ++ [CStop lt; CUnpublishTrack lt;
                                         CCreateLocalVideoTrack; CPublishTrack t])
                   (on_participant loc (unpublish lt) st))).
  split; [reflexivity|]. split; [reflexivity|]. split; [reflexivity|].
  split; [reflexivity|]. split; [reflexivity|]. split; [reflexivity|].
  split; [apply onDisconnected_calls; reflexivity|].
  intros publication Ht Hk Hlis Hin. cbn zeta. cbn [step].
  rewrite result_modify, exec_modify. unfold emit.
  rewrite result_gets, exec_gets.
  set (s := on_participant loc (add_publication publication) st1).
  assert (Hsid : sid (heap s loc) = sid (heap st loc)).
  { unfold s, st1, on_participant. cbn [heap set_heap set_localVideoTrack set_calls].
    rewrite Nat.eqb_refl. reflexivity. }
  assert (Hvt : videoTracks (heap s loc)
                = without_track lt (videoTracks (heap st loc)) ++ [publication]).
  { unfold s, st1, on_participant. cbn [heap set_heap set_localVideoTrack set_calls].
    rewrite Nat.eqb_refl. unfold add_publication, unpublish. cbn [videoTracks].
    rewrite Hk. reflexivity. }
  assert (Hin' : In (sid (heap s loc)) (nodes s)) by (rewrite Hsid; exact Hin).
  assert (Hlis' : In (OnTrackPublished loc) (listeners s)) by exact Hlis.
  destruct (@trackPublished_delivered isMobile loc publication t (listeners s)
              Ht s Hin' (or_intror Hlis')) as (R1 & R2 & R3).
  cbn zeta in R2, R3. clearbody st1.
  split; [exact R1|]. split.
  - rewrite R3. exact Hvt.
  - rewrite <- Hsid. exact R2.
Qed.

Lemma visibility_cycle_witness :
  let st := joinRoom true "token" (inr (room_of [1; 2])) (initial people) in
  onvisibilitychange (page st) = Some HVisibilityChange
  /\ localVideoTrack st = Some camera
  /\ (let loc := localParticipant (room st) in
      let st1 := run true [EvVisibilityChange true; EvVisibilityChange false;
                           EvLocalVideoTrackCreated (inr second_camera)] st in
      calls st1 = calls st ++ [CStop camera; CUnpublishTrack camera;
                               CCreateLocalVideoTrack; CPublishTrack second_camera]
      /\ localVideoTrack st1 = Some second_camera
      /\ heap st1 = heap (on_participant loc (unpublish camera) st)
      /\ page st1 = page st
      /\ selection st1 = selection st
      /\ listeners st1 = listeners st
      /\ calls (exec (onDisconnected true None) st1) = calls st1 ++ [CStop second_camera]
      /\ (forall publication,
            track publication = Some second_camera ->
            pub_kind publication = video ->
            In (OnTrackPublished loc) (listeners st) ->
            In (sid (heap st loc)) (nodes st) ->
            let st2 := exec (step true (EvTrackPublished loc publication)) st1 in
            result (step true (EvTrackPublished loc publication)) st1 = Ok tt
            /\ videoTracks (heap st2 loc)
               = without_track camera (videoTracks (heap st loc)) ++ [publication]
            /\ rendered_in_thumbnail second_camera (sid (heap st loc)) st2)).
Proof.
  cbn zeta.
  assert (H1 : onvisibilitychange
                 (page (joinRoom true "token" (inr (room_of [1; 2])) (initial people)))
               = Some HVisibilityChange) by (vm_compute; reflexivity).
  assert (H2 : localVideoTrack
                 (joinRoom true "token" (inr (room_of [1; 2])) (initial people))
               = Some camera) by (vm_compute; reflexivity).
  split; [exact H1|]. split; [exact H2|].
  exact (@visibility_cycle_replaces_local_video_track true
           (joinRoom true "token" (inr (room_of [1; 2])) (initial people))
           camera second_camera None H1 H2).
Defined.
